(** * Scenic Quality model: a shallow embedding of
      [natcap/invest/scenic_quality/scenic_quality.py]

    Rasters are streamed block by block.  A block is modelled as the
    row-major flattening of the numpy array the code handles (a boolean-mask
    selection [a[m]] visits the pixels of a 2-D array in exactly that order),
    and a raster as the list of its blocks in [iterblocks] order.

    Pixel values are numpy floats in the source; they are modelled by real
    numbers, so rounding, infinities and NaN are outside this model.  The
    fixed-width integers of the classifier ([numpy.int8], a [GDT_Byte] band)
    are integers with their wrap-around written out. *)

From Stdlib Require Import Reals Lra Lia List ZArith Bool.
From Stdlib Require String Ascii.
Import String.StringSyntax.
From Stdlib Require Import QArith Qround Sorted Permutation.
Import ListNotations.

Set Implicit Arguments.
Delimit Scope string_scope with string.

(* ================================================================== *)
(** * Part I: the program                                               *)
(* ================================================================== *)

(** ** Module-level constants *)

Definition _VALUATION_NODATA : R := (-99999)%R.
Definition _BYTE_NODATA : Z := 255%Z.

(** ** Comparisons of pixel values, as the booleans numpy computes *)

Definition Reqb (x y : R) : bool := if Req_dec_T x y then true else false.
Definition Rleb (x y : R) : bool := if Rle_dec x y then true else false.
Definition Rltb (x y : R) : bool := if Rlt_dec x y then true else false.
Definition Rneb (x y : R) : bool := negb (Reqb x y).

(** ** The numpy array operations the model uses *)

Module Np.

(** [numpy.empty(shape); a[:] = c] *)
Definition full (A : Type) (n : nat) (c : A) : list A := repeat c n.

(** Element-wise binary operators on arrays of the same shape. *)
Fixpoint zip_with (A B C : Type) (f : A -> B -> C) (a : list A) (b : list B)
  : list C :=
  match a, b with
  | x :: a', y :: b' => f x y :: zip_with f a' b'
  | _, _ => []
  end.

(** [m1 & m2] and [~m] on boolean masks. *)
Definition mask_and (m1 m2 : list bool) : list bool := zip_with andb m1 m2.
Definition mask_not (m : list bool) : list bool := map negb m.

(** [a[m]]: the elements under a true entry of the mask, in order. *)
Fixpoint select (A : Type) (a : list A) (m : list bool) : list A :=
  match a, m with
  | x :: a', b :: m' => if b then x :: select a' m' else select a' m'
  | _, _ => []
  end.

(** [a[m] = vals]: the values are written, in order, under the true entries
    of the mask. *)
Fixpoint assign (A : Type) (a : list A) (m : list bool) (vals : list A)
  : list A :=
  match a, m with
  | x :: a', b :: m' =>
      if b then
        match vals with
        | v :: vs => v :: assign a' m' vs
        | [] => x :: assign a' m' []
        end
      else x :: assign a' m' vals
  | _, _ => a
  end.

(** [a[m] = c] for a scalar [c]. *)
Fixpoint assign_scalar (A : Type) (a : list A) (m : list bool) (c : A)
  : list A :=
  match a, m with
  | x :: a', b :: m' => (if b then c else x) :: assign_scalar a' m' c
  | _, _ => a
  end.

(** [numpy.where(m, s, a)]: [s] under the true entries of the mask, [a]
    elsewhere; the pixel-wise reading of a masked assignment. *)
Fixpoint where_ (A : Type) (m : list bool) (s a : list A) : list A :=
  match m, s, a with
  | b :: m', y :: s', x :: a' => (if b then y else x) :: where_ m' s' a'
  | _, _, _ => []
  end.

(** [a[m] += vals] *)
Definition add_at (a : list R) (m : list bool) (vals : list R) : list R :=
  assign a m (zip_with Rplus (select a m) vals).

(** [numpy.linspace(start, start + n - 1, n)] for an integer [start]: the
    [n] consecutive integers from [start], as floats. *)
Definition linspace (start : Z) (n : nat) : list R :=
  map (fun k => IZR (start + Z.of_nat k)) (seq 0 n).

(** [numpy.meshgrid(x, y)], each matrix flattened row-major. *)
Definition meshgrid_x (x y : list R) : list R :=
  flat_map (fun _ => x) y.
Definition meshgrid_y (x y : list R) : list R :=
  flat_map (fun yv => map (fun _ => yv) x) y.

(** [numpy.hypot] *)
Definition hypot (x y : R) : R := sqrt (x * x + y * y).

(** [ndarray.sort()] on a flat array: ascending order. *)
Fixpoint insert_sorted (x : R) (l : list R) : list R :=
  match l with
  | [] => [x]
  | y :: l' => if Rleb x y then x :: l else y :: insert_sorted x l'
  end.
Fixpoint sort (l : list R) : list R :=
  match l with
  | [] => []
  | x :: l' => insert_sorted x (sort l')
  end.

(** [numpy.searchsorted(a, v, side='right')] on an ascending array: the
    index [i] with [a[i-1] <= v < a[i]]; found here by a scan from the left
    for the first element greater than [v]. *)
Fixpoint searchsorted_right (a : list R) (v : R) : nat :=
  match a with
  | [] => 0
  | x :: a' => if Rleb x v then S (searchsorted_right a' v) else 0
  end.

(** [numpy.searchsorted(a, v, side='left')]: the index [i] with
    [a[i-1] < v <= a[i]]. *)
Fixpoint searchsorted_left (a : list R) (v : R) : nat :=
  match a with
  | [] => 0
  | x :: a' => if Rltb x v then S (searchsorted_left a' v) else 0
  end.

Fixpoint nondecreasing (a : list R) : bool :=
  match a with
  | x :: ((y :: _) as a') => Rleb x y && nondecreasing a'
  | _ => true
  end.
Fixpoint nonincreasing (a : list R) : bool :=
  match a with
  | x :: ((y :: _) as a') => Rleb y x && nonincreasing a'
  | _ => true
  end.

(** [numpy.digitize(x, bins)] with [right=False]: the bins must be
    monotonic ([None] stands for the [ValueError] raised otherwise);
    increasing bins are searched from the right side, decreasing bins are
    reversed and the result inverted. *)
Definition digitize (x : list R) (bins : list R) : option (list nat) :=
  if nondecreasing bins then
    Some (map (searchsorted_right bins) x)
  else if nonincreasing bins then
    Some (map (fun v => length bins - searchsorted_left (rev bins) v)%nat x)
  else None.

End Np.

(** ** Valuation of one viewshed: [_calculate_valuation] *)

Inductive valuation_method : Type :=
| linear
| logarithmic
| exponential.

(** [valuation_coefficients], the dictionary with keys ['a'] and ['b']. *)
Record valuation_coefficients : Type := {
  coef_a : R;
  coef_b : R
}.

(** The closure [_valuation(distance, visibility)] that
    [_calculate_valuation] selects by method; it closes over [a], [b] and
    [weight]. *)
Definition _valuation (valuation_method : valuation_method)
  (coefs : valuation_coefficients) (weight : R)
  (distance visibility : list R) : list R :=
  let a := coef_a coefs in
  let b := coef_b coefs in
  match valuation_method with
  | linear =>
      let valid_pixels := map (fun v => Rltb 0 v) visibility in
      let valuation := Np.full (length distance) 0%R in
      let x := Np.select distance valid_pixels in
      Np.assign valuation valid_pixels
        (Np.zip_with Rmult
           (map (fun x => a + b * x)%R x)
           (map (fun v => weight * v)%R (Np.select visibility valid_pixels)))
  | logarithmic =>
      let valid_pixels :=
        Np.mask_and (map (fun v => Rltb 0 v) visibility)
                    (map (fun d => Rltb 0 d) distance) in
      let valuation := Np.full (length distance) 0%R in
      Np.assign valuation valid_pixels
        (Np.zip_with Rmult
           (map (fun d => a + b * ln d)%R (Np.select distance valid_pixels))
           (map (fun v => weight * v)%R (Np.select visibility valid_pixels)))
  | exponential =>
      let valid_pixels := map (fun v => Rltb 0 v) visibility in
      let valuation := Np.full (length distance) 0%R in
      Np.assign valuation valid_pixels
        (Np.zip_with Rmult
           (map (fun d => a * exp (- b * d))%R
                (Np.select distance valid_pixels))
           (map (fun v => weight * v)%R (Np.select visibility valid_pixels)))
  end.

(** What [_valuation] computes at one pixel, read off its three bodies. *)
Definition pixel_valuation (valuation_method : valuation_method)
  (coefs : valuation_coefficients) (weight : R) (d v : R) : R :=
  let a := coef_a coefs in
  let b := coef_b coefs in
  match valuation_method with
  | linear =>
      if Rltb 0 v then ((a + b * d) * (weight * v))%R else 0%R
  | logarithmic =>
      if Rltb 0 v && Rltb 0 d then ((a + b * ln d) * (weight * v))%R
      else 0%R
  | exponential =>
      if Rltb 0 v then ((a * exp (- b * d)) * (weight * v))%R else 0%R
  end.

(** The [block_info] dictionary that [iterblocks] yields with each block. *)
Record block_info : Type := {
  xoff : Z;
  yoff : Z;
  win_xsize : nat;
  win_ysize : nat
}.

(** The locals [_calculate_valuation] computes once, before its loop over
    the blocks: the pixel indexes of the viewpoint, the pixel size in
    metres and the no-data value of the visibility raster. *)
Record viewshed_geometry : Type := {
  ix_viewpoint : Z;
  iy_viewpoint : Z;
  pixel_size_in_m : R;
  vis_nodata : R
}.

(** [dist_in_m] of one block. *)
Definition dist_in_m (g : viewshed_geometry) (bi : block_info) : list R :=
  let x_coord := Np.linspace (xoff bi) (win_xsize bi) in
  let y_coord := Np.linspace (yoff bi) (win_ysize bi) in
  let ix_matrix := Np.meshgrid_x x_coord y_coord in
  let iy_matrix := Np.meshgrid_y x_coord y_coord in
  Np.zip_with
    (fun ix iy =>
       Np.hypot (Rabs (ix - IZR (ix_viewpoint g)))
                (Rabs (iy - IZR (iy_viewpoint g))) * pixel_size_in_m g)%R
    ix_matrix iy_matrix.

(** The body of the loop over [iterblocks(visibility_path)]: the array
    written to the valuation raster at the block's offset. *)
Definition valuation_block (method : valuation_method)
  (coefs : valuation_coefficients) (weight max_valuation_radius : R)
  (g : viewshed_geometry) (bi : block_info) (vis_block : list R) : list R :=
  let visibility_value := Np.full (length vis_block) _VALUATION_NODATA in
  let dist := dist_in_m g bi in
  let valid_distances := map (fun d => Rleb d max_valuation_radius) dist in
  let nodata := map (fun v => Reqb v (vis_nodata g)) vis_block in
  let valid_indexes := Np.mask_and valid_distances (Np.mask_not nodata) in
  let visibility_value :=
    Np.assign visibility_value valid_indexes
      (_valuation method coefs weight
         (Np.select dist valid_indexes)
         (Np.select vis_block valid_indexes)) in
  Np.assign_scalar visibility_value
    (Np.mask_and (Np.mask_not valid_distances) (Np.mask_not nodata)) 0%R.

(** [_calculate_valuation]: one output block per block of the visibility
    raster. *)
Definition _calculate_valuation (method : valuation_method)
  (coefs : valuation_coefficients) (weight max_valuation_radius : R)
  (g : viewshed_geometry) (visibility : list (block_info * list R))
  : list (list R) :=
  map (fun '(bi, vis_block) =>
         valuation_block method coefs weight max_valuation_radius g bi
           vis_block)
      visibility.

(** ** Aggregators *)

(** The sum of a list of numbers, and the values a list of aligned
    arrays holds at one pixel. *)
Definition Rsum (l : list R) : R := fold_right Rplus 0%R l.
Definition values_at (i : nat) (arrays : list (list R)) : list R :=
  map (fun a => nth i a 0%R) arrays.

(** The local operation [_sum_rasters] that
    [_sum_valuation_rasters] hands to [raster_calculator]. *)
Definition _sum_rasters (dem_nodata : R) (dem : list R)
  (valuation_rasters : list (list R)) : list R :=
  let valid_dem_pixels := map (fun v => Rneb v dem_nodata) dem in
  let raster_sum := Np.full (length dem) _VALUATION_NODATA in
  let raster_sum := Np.assign_scalar raster_sum valid_dem_pixels 0%R in
  fold_left
    (fun raster_sum valuation_matrix =>
       let valid_pixels :=
         Np.mask_and (map (fun v => Rneb v _VALUATION_NODATA) valuation_matrix)
                     valid_dem_pixels in
       Np.add_at raster_sum valid_pixels
                 (Np.select valuation_matrix valid_pixels))
    valuation_rasters raster_sum.

(** [raster_calculator] over aligned rasters: the [k]-th block of every
    input raster is passed to the local operation.  A stack of blocks is
    the DEM block together with the matching block of each valuation
    raster. *)
Definition _sum_valuation_rasters (dem_nodata : R)
  (stacks : list (list R * list (list R))) : list (list R) :=
  map (fun '(dem, valuation_rasters) =>
         _sum_rasters dem_nodata dem valuation_rasters)
      stacks.

(** The no-data value of the weighted count, [target_nodata = -1]. *)
Definition target_nodata : R := (-1)%R.

(** The body of the loop of [_count_visible_structures] over
    [iterblocks(clipped_dem)]: [visibility_matrices] are the blocks read
    from each visibility band at [block_info], zipped with [weights]. *)
Definition count_visible_block (dem_nodata : R) (weights : list R)
  (dem_matrix : list R) (visibility_matrices : list (list R)) : list R :=
  let visibility_sum := Np.full (length dem_matrix) 0%R in
  let valid_mask := map (fun v => Rneb v dem_nodata) dem_matrix in
  let visibility_sum :=
    Np.assign_scalar visibility_sum (Np.mask_not valid_mask) target_nodata in
  fold_left
    (fun visibility_sum '(visibility_matrix, weight) =>
       let visible_mask :=
         Np.mask_and (map (fun v => Reqb v 1) visibility_matrix) valid_mask in
       Np.add_at visibility_sum visible_mask
         (map (fun v => v * weight)%R
              (Np.select visibility_matrix visible_mask)))
    (combine visibility_matrices weights) visibility_sum.

Definition _count_visible_structures (dem_nodata : R) (weights : list R)
  (stacks : list (list R * list (list R))) : list (list R) :=
  map (fun '(dem_matrix, visibility_matrices) =>
         count_visible_block dem_nodata weights dem_matrix
           visibility_matrices)
      stacks.

(** ** Percentile classifier: the data path of [_calculate_visual_quality] *)

(** The state of the first loop: [n_elements] and the [iterators] over the
    sorted runs saved so far (a run read back from its file is the array
    that was saved). *)
Record spill_state : Type := {
  n_elements : nat;
  iterators : list (list R)
}.

Definition spill_block (raster_nodata : R) (st : spill_state)
  (block : list R) : spill_state :=
  let valid_pixels :=
    Np.select block
      (Np.mask_and (map (fun v => Rneb v raster_nodata) block)
                   (map (fun v => Rneb v 0) block)) in
  if (length valid_pixels =? 0)%nat then st
  else
    let valid_pixels := Np.sort valid_pixels in
    {| n_elements := n_elements st + length valid_pixels;
       iterators := iterators st ++ [valid_pixels] |}.

Definition spill_runs (raster_nodata : R) (blocks : list (list R))
  : spill_state :=
  fold_left (spill_block raster_nodata) blocks
            {| n_elements := 0; iterators := [] |}.

(** What the first loop maintains, for the population of eligible pixels
    met so far: their count, the ascending order inside each run, and the
    values the runs hold together. *)
Definition spill_invariant (st : spill_state) (population : list R) : Prop :=
  n_elements st = length population /\
  Forall (StronglySorted Rle) (iterators st) /\
  Permutation (concat (iterators st)) population.

(** [heapq.merge]: the next value is the smallest head among the runs, the
    earliest run winning a tie; [heap_pop] returns it with the runs that
    remain. *)
Fixpoint heap_pop (runs : list (list R)) : option (R * list (list R)) :=
  match runs with
  | [] => None
  | [] :: rest =>
      match heap_pop rest with
      | Some (v, rest') => Some (v, [] :: rest')
      | None => None
      end
  | (x :: xs) :: rest =>
      match heap_pop rest with
      | Some (y, rest') =>
          if Rleb x y then Some (x, xs :: rest)
          else Some (y, (x :: xs) :: rest')
      | None => Some (x, xs :: rest)
      end
  end.

Fixpoint heapq_merge_fuel (fuel : nat) (runs : list (list R)) : list R :=
  match fuel with
  | O => []
  | S fuel' =>
      match heap_pop runs with
      | Some (v, runs') => v :: heapq_merge_fuel fuel' runs'
      | None => []
      end
  end.

(** One step per value held by the runs exhausts them. *)
Definition heapq_merge (runs : list (list R)) : list R :=
  heapq_merge_fuel (length (concat runs)) runs.

(** The quantiles of the source, [(0.0, 0.25, 0.50, 0.75)]. *)
Definition quantiles : list Q := [0; 1 # 4; 1 # 2; 3 # 4]%Q.

(** [math.ceil(n * n_elements)] *)
Definition rank_ordinal (n_elements : nat) (n : Q) : Z :=
  Qceiling (n * inject_Z (Z.of_nat n_elements)).

(** The loop over the values of [heapq.merge] of the iterators.  [rank_ordinals] is
    the deque; popping it when it is empty raises [IndexError], on which
    the loop breaks. *)
Fixpoint percentile_loop (values : list R) (current_index : Z)
  (next_percentile_ordinal : Z) (rank_ordinals : list Z)
  (percentile_values : list R) : list R :=
  match values with
  | [] => percentile_values
  | value :: values' =>
      if (current_index =? next_percentile_ordinal)%Z then
        let percentile_values := percentile_values ++ [value] in
        match rank_ordinals with
        | next :: rank_ordinals' =>
            percentile_loop values' (current_index + 1)%Z next
              rank_ordinals' percentile_values
        | [] => percentile_values
        end
      else
        percentile_loop values' (current_index + 1)%Z
          next_percentile_ordinal rank_ordinals percentile_values
  end.

(** The rank positions and the loop over the merged values: the
    breakpoints recorded from [merged], [n_elements] being the count the
    first loop kept. *)
Definition merged_percentiles (n_elements : nat) (merged : list R)
  : list R :=
  let rank_ordinals := map (rank_ordinal n_elements) quantiles in
  match rank_ordinals with
  | next_percentile_ordinal :: rank_ordinals' =>
      percentile_loop merged 0%Z next_percentile_ordinal rank_ordinals' []
  | [] => []
  end.

(** Phase 1 of [_calculate_visual_quality]: the percentile breakpoints. *)
Definition percentile_values (raster_nodata : R) (blocks : list (list R))
  : list R :=
  let st := spill_runs raster_nodata blocks in
  merged_percentiles (n_elements st) (heapq_merge (iterators st)).

(** A value stored in a [numpy.int8] array, and the byte a [GDT_Byte] band
    reads from that array's buffer. *)
Definition int8 (z : Z) : Z := ((z + 128) mod 256 - 128)%Z.
Definition band_byte (z : Z) : Z := (z mod 256)%Z.

(** The local operation [_map_percentiles(valuation_matrix)]; [None] is
    the [ValueError] of [numpy.digitize]. *)
Definition _map_percentiles (raster_nodata : R) (percentile_bins : list R)
  (valuation_matrix : list R) : option (list Z) :=
  let nonzero := map (fun v => Rneb v 0) valuation_matrix in
  let nodata := map (fun v => Reqb v raster_nodata) valuation_matrix in
  let valid_indexes := Np.mask_and (Np.mask_not nodata) nonzero in
  let visual_quality :=
    Np.full (length valuation_matrix) (int8 _BYTE_NODATA) in
  let visual_quality :=
    Np.assign_scalar visual_quality
      (Np.mask_and (Np.mask_not nonzero) (Np.mask_not nodata)) (int8 0) in
  match Np.digitize (Np.select valuation_matrix valid_indexes)
                    percentile_bins with
  | Some buckets =>
      Some (Np.assign visual_quality valid_indexes
              (map (fun k => int8 (Z.of_nat k)) buckets))
  | None => None
  end.

(** What [_map_percentiles] computes at one pixel, read off its masks. *)
Definition pixel_bucket (raster_nodata : R) (percentile_bins : list R)
  (v : R) : Z :=
  if Reqb v raster_nodata then int8 _BYTE_NODATA
  else if Reqb v 0 then int8 0
  else int8 (Z.of_nat (Np.searchsorted_right percentile_bins v)).

(** The number of breakpoints less than or equal to a value. *)
Definition breakpoints_le (percentile_bins : list R) (v : R) : nat :=
  length (filter (fun b => Rleb b v) percentile_bins).

(** [raster_calculator] with a [GDT_Byte] target: every block goes through
    the local operation and is written to the byte band. *)
Fixpoint raster_calculator_byte (local_op : list R -> option (list Z))
  (blocks : list (list R)) : option (list (list Z)) :=
  match blocks with
  | [] => Some []
  | block :: blocks' =>
      match local_op block with
      | None => None
      | Some result =>
          match raster_calculator_byte local_op blocks' with
          | None => None
          | Some written => Some (map band_byte result :: written)
          end
      end
  end.

(** Phase 2 of [_calculate_visual_quality]: the classified raster. *)
Definition visual_quality_raster (raster_nodata : R)
  (blocks : list (list R)) : option (list (list Z)) :=
  let percentile_bins := percentile_values raster_nodata blocks in
  raster_calculator_byte (_map_percentiles raster_nodata percentile_bins)
                         blocks.

(** The in-memory reference the percentile algorithm is compared with:
    the whole eligible population is sorted at once, and for each quantile
    the value at rank [ceil(q * N)] is picked ([None] when the population
    has no such rank). *)
Definition eligible_population (raster_nodata : R) (blocks : list (list R))
  : list R :=
  filter (fun v => Rneb v raster_nodata && Rneb v 0) (concat blocks).

Definition breakpoints_in_memory (raster_nodata : R)
  (blocks : list (list R)) : list (option R) :=
  let population := Np.sort (eligible_population raster_nodata blocks) in
  map (fun q => nth_error population
                  (Z.to_nat (rank_ordinal (length population) q)))
      quantiles.

(** ** Effects: exceptions, the file system, the log and the task graph *)

Inductive exn : Type :=
| ValueError (msg : String.string)
| KeyError (key : String.string)
| TypeError
| AttributeError
| OSError
| RuntimeError
| OverflowError.

Inductive result (A : Type) : Type :=
| Return (a : A)
| Raise (e : exn).
Arguments Return {A} a.
Arguments Raise {A} e.

(** The tasks [execute] adds to the graph, by [task_name]. *)
Inductive task_name : Type :=
| reproject_aoi_to_dem
| reproject_structures_to_dem
| clip_reprojected_structures_to_aoi
| clip_dem_to_aoi
| calculate_visibility (feature_index : nat)
| calculate_valuation_for_viewshed (feature_index : nat)
| add_up_valuation_rasters
| sum_visibility_for_all_structures
| calculate_visual_quality.

(** What the functions below can change: the directories that exist, the
    records sent to [LOGGER], whether a [TaskGraph] has been constructed
    and the tasks added to it, latest first. *)
Record world : Type := {
  dirs : list String.string;
  logged : list String.string;
  graph_built : bool;
  tasks : list task_name
}.

Definition M (A : Type) : Type := world -> result A * world.

Definition ret (A : Type) (a : A) : M A := fun w => (Return a, w).
Definition raise (A : Type) (e : exn) : M A := fun w => (Raise e, w).
Arguments raise {A} e.
Definition bind (A B : Type) (c : M A) (k : A -> M B) : M B :=
  fun w =>
    match c w with
    | (Return a, w') => k a w'
    | (Raise e, w') => (Raise e, w')
    end.

Notation "x <- c1 ;; c2" := (bind c1 (fun x => c2))
  (at level 61, c1 at next level, right associativity).

(** A call to an external collaborator: it returns or raises as the host
    decides, and changes nothing that [world] records. *)
Definition call (A : Type) (outcome : result A) : M A :=
  fun w => (outcome, w).

Definition logger (record : String.string) : M unit :=
  fun w =>
    (Return tt,
     {| dirs := dirs w; logged := record :: logged w;
        graph_built := graph_built w; tasks := tasks w |}).

Definition path_exists (path : String.string) : M bool :=
  fun w => (Return (existsb (String.eqb path) (dirs w)), w).

Definition makedirs (path : String.string) : M unit :=
  fun w =>
    (Return tt,
     {| dirs := path :: dirs w; logged := logged w;
        graph_built := graph_built w; tasks := tasks w |}).

(** [path.endswith('/')] *)
Definition ends_with_slash (path : String.string) : bool :=
  String.eqb (String.substring (String.length path - 1) 1 path) "/"%string.

(** [os.path.join(dir, name)] of [posixpath]: an absolute [name]
    replaces [dir], and the separator is added only after a [dir] that
    is not empty and does not end with one. *)
Definition path_join (dir name : String.string) : String.string :=
  if String.prefix "/"%string name then name
  else if String.eqb dir ""%string || ends_with_slash dir
       then String.append dir name
       else String.append dir (String.append "/"%string name).

(** [tempfile.mkdtemp(dir=dir, prefix=prefix)]: a new directory inside
    [dir]; [suffix] is the random part of its name. *)
Definition mkdtemp (suffix dir prefix : String.string) : M String.string :=
  fun w =>
    let path := path_join dir (String.append prefix suffix) in
    (Return path,
     {| dirs := path :: dirs w; logged := logged w;
        graph_built := graph_built w; tasks := tasks w |}).

(** [shutil.rmtree(path)]: the directory is gone when the call returns;
    when it raises, the directory is still there. *)
Definition rmtree (outcome : result unit) (path : String.string) : M unit :=
  fun w =>
    match outcome with
    | Return _ =>
        (Return tt,
         {| dirs := filter (fun d => negb (String.eqb path d)) (dirs w);
            logged := logged w;
            graph_built := graph_built w; tasks := tasks w |})
    | Raise e => (Raise e, w)
    end.

(** [try: body except OSError: handler] *)
Definition try_except_OSError (body handler : M unit) : M unit :=
  fun w =>
    match body w with
    | (Raise OSError, w') => handler w'
    | r => r
    end.

(** ** [_clip_and_mask_dem] *)

(** How each external call of [_clip_and_mask_dem] ends. *)
Record clip_host : Type := {
  clip_tmp_suffix : String.string;
  clip_get_vector_info : result unit;
  clip_get_raster_info : result unit;
  clip_warp_raster : result unit;
  clip_new_raster_from_base : result unit;
  clip_rasterize : result unit;
  clip_raster_calculator : result unit;
  clip_rmtree : result unit
}.

Definition clip_temp_dir (h : clip_host) (working_dir : String.string)
  : String.string :=
  path_join working_dir (String.append "clip_dem"%string (clip_tmp_suffix h)).

Definition _clip_and_mask_dem (h : clip_host) (working_dir : String.string)
  : M unit :=
  temp_dir <- mkdtemp (clip_tmp_suffix h) working_dir "clip_dem"%string ;;
  _ <- logger "Clipping the DEM to its intersection with the AOI."%string ;;
  _ <- call (clip_get_vector_info h) ;;
  _ <- call (clip_get_raster_info h) ;;
  _ <- call (clip_warp_raster h) ;;
  _ <- logger "Masking DEM pixels outside the AOI to nodata"%string ;;
  _ <- call (clip_new_raster_from_base h) ;;
  _ <- call (clip_rasterize h) ;;
  _ <- call (clip_raster_calculator h) ;;
  try_except_OSError
    (rmtree (clip_rmtree h) temp_dir)
    (logger "Could not remove temp directory"%string).

(** ** [_calculate_visual_quality], with its file-system effects *)

(** How each external call of [_calculate_visual_quality] ends:
    reading the raster's blocks and saving the sorted runs, loading the
    runs back during the merge, removing the directory, and writing the
    classified raster. *)
Record quality_host : Type := {
  quality_tmp_suffix : String.string;
  quality_get_raster_info : result unit;
  quality_spill : result unit;
  quality_merge : result unit;
  quality_rmtree : result unit;
  quality_raster_calculator : result unit
}.

Definition quality_temp_dir (h : quality_host) (working_dir : String.string)
  : String.string :=
  path_join working_dir (String.append "visual_quality"%string (quality_tmp_suffix h)).

Definition _calculate_visual_quality (h : quality_host) (raster_nodata : R)
  (blocks : list (list R)) (working_dir : String.string)
  : M (list (list Z)) :=
  _ <- logger "Calculating visual quality"%string ;;
  _ <- call (quality_get_raster_info h) ;;
  present <- path_exists working_dir ;;
  _ <- (if present then ret tt else makedirs working_dir) ;;
  temp_dir <- mkdtemp (quality_tmp_suffix h) working_dir "visual_quality"%string ;;
  _ <- logger "Determining percentiles"%string ;;
  _ <- call (quality_spill h) ;;
  _ <- call (quality_merge h) ;;
  let percentile_bins := percentile_values raster_nodata blocks in
  _ <- try_except_OSError
         (rmtree (quality_rmtree h) temp_dir)
         (logger "Unable to remove temporary directory"%string) ;;
  _ <- logger "Mapping percentile breaks"%string ;;
  _ <- call (quality_raster_calculator h) ;;
  match raster_calculator_byte
          (_map_percentiles raster_nodata percentile_bins) blocks with
  | Some written => ret written
  | None => raise (ValueError "bins must be monotonically increasing or decreasing"%string)
  end.

(** ** Viewpoints over the DEM *)

(** What the code reads of the DEM: [bounding_box] and [mean_pixel_size]
    of [get_raster_info], and of the band opened with gdal its no-data
    value (absent when none is defined), the geotransform and the pixels
    ([None] outside the raster). *)
Record dem_raster : Type := {
  bounding_box : R * R * R * R;
  mean_pixel_size : R;
  GetNoDataValue : option R;
  GetGeoTransform : R * R * R * R * R * R;
  ReadAsArray : Z -> Z -> option R
}.

(** Python's [int] of a float: truncation toward zero. *)
Definition int_of_float (x : R) : Z :=
  if Rle_dec 0 x then Int_part x else (- Int_part (- x))%Z.

Definition _viewpoint_within_raster (viewpoint : R * R) (dem : dem_raster)
  : bool :=
  let '(bbox_minx, bbox_miny, bbox_maxx, bbox_maxy) := bounding_box dem in
  if negb (Rleb bbox_minx (fst viewpoint) && Rleb (fst viewpoint) bbox_maxx)
     || negb (Rleb bbox_miny (snd viewpoint) && Rleb (snd viewpoint) bbox_maxy)
  then false
  else true.

Definition _viewpoint_over_nodata (viewpoint : R * R) (dem : dem_raster)
  : bool :=
  let '(gt0, gt1, _, gt3, _, gt5) := GetGeoTransform dem in
  match GetNoDataValue dem with
  | None => false
  | Some nodata =>
      let ix_viewpoint := int_of_float ((fst viewpoint - gt0) / gt1) in
      let iy_viewpoint := int_of_float ((snd viewpoint - gt3) / gt5) in
      match ReadAsArray dem ix_viewpoint iy_viewpoint with
      | Some value_under_viewpoint =>
          if Reqb value_under_viewpoint nodata then true else false
      | None => false
      end
  end.

(** The two checks of the loop over the structures in [execute]: a point
    is skipped when it is outside the DEM or over no-data. *)
Definition viewpoint_kept (dem : dem_raster) (viewpoint : R * R) : bool :=
  if negb (_viewpoint_within_raster viewpoint dem) then false
  else if _viewpoint_over_nodata viewpoint dem then false
  else true.

(** ** [execute]: the arguments, and the construction of the task graph *)

(** A Python float: a number, an infinity or [nan]. *)
Inductive pyfloat : Type :=
| Finite (x : R)
| Infinity (negative : bool)
| NaN.

(** The values an [args] dictionary holds. *)
Inductive pyval : Type :=
| PyStr (s : String.string)
| PyFloat (x : pyfloat)
| PyInt (z : Z)
| PyNone.

Definition args_dict : Type := list (String.string * pyval).

Fixpoint lookup (key : String.string) (args : args_dict) : option pyval :=
  match args with
  | [] => None
  | (k, v) :: args' => if String.eqb key k then Some v else lookup key args'
  end.

(** [args[key]] *)
Definition getitem (args : args_dict) (key : String.string) : M pyval :=
  match lookup key args with
  | Some v => ret v
  | None => raise (KeyError key)
  end.

(** The external collaborators of [execute]: reading the DEM, Python's
    parsers of numbers, the points of the reprojected structures vector,
    and how the joins on the graph end. *)
Record execute_host : Type := {
  get_raster_info : pyval -> result dem_raster;
  float_of_string : String.string -> option pyfloat;
  int_of_string : String.string -> option Z;
  structures_points : result (list (R * R));
  clipped_dem_task_join : result unit;
  clipped_viewpoints_task_join : result unit;
  graph_join : result unit
}.

(** An integer is too large to convert to a float when it rounds to
    [2^1024] or beyond, that is from halfway between the largest float,
    [2^1024 - 2^971], and [2^1024]. *)
Definition float_overflows (z : Z) : bool :=
  (2 ^ 1024 - 2 ^ 970 <=? Z.abs z)%Z.

(** [float(v)] and [int(v)] *)
Definition float (h : execute_host) (v : pyval) : result pyfloat :=
  match v with
  | PyFloat x => Return x
  | PyInt z =>
      if float_overflows z then Raise OverflowError
      else Return (Finite (IZR z))
  | PyStr s =>
      match float_of_string h s with
      | Some x => Return x
      | None => Raise (ValueError "could not convert string to float"%string)
      end
  | PyNone => Raise TypeError
  end.

Definition int (h : execute_host) (v : pyval) : result Z :=
  match v with
  | PyInt z => Return z
  | PyFloat (Finite x) => Return (int_of_float x)
  | PyFloat (Infinity _) => Raise OverflowError
  | PyFloat NaN =>
      Raise (ValueError "cannot convert float NaN to integer"%string)
  | PyStr s =>
      match int_of_string h s with
      | Some z => Return z
      | None => Raise (ValueError "invalid literal for int()"%string)
      end
  | PyNone => Raise TypeError
  end.

(** [v.startswith(prefix)]: only a string has the method. *)
Definition startswith (v : pyval) (prefix : String.string) : M bool :=
  match v with
  | PyStr s => ret (String.prefix prefix s)
  | _ => raise AttributeError
  end.

(** ['%s' % v]; the message of [execute] is only ever built from a
    string, the digits of a number are not modelled. *)
Definition str (v : pyval) : String.string :=
  match v with
  | PyStr s => s
  | PyNone => "None"%string
  | _ => "<number>"%string
  end.

(** [os.path.join(v, name)] *)
Definition os_path_join (v : pyval) (name : String.string)
  : M String.string :=
  match v with
  | PyStr s => ret (path_join s name)
  | _ => raise AttributeError
  end.

(** [taskgraph.TaskGraph(work_token_dir, n_workers)] and [graph.add_task] *)
Definition TaskGraph (n_workers : Z) : M unit :=
  fun w =>
    (Return tt,
     {| dirs := dirs w; logged := logged w;
        graph_built := true; tasks := tasks w |}).

Definition add_task (name : task_name) : M unit :=
  fun w =>
    (Return tt,
     {| dirs := dirs w; logged := logged w;
        graph_built := graph_built w; tasks := name :: tasks w |}).

(** The selection of [valuation_method], lines 87 to 102. *)
Definition select_valuation_method (dem_raster_info : dem_raster)
  (args : args_dict) : M valuation_method :=
  f <- getitem args "valuation_function"%string ;;
  is_linear <- startswith f "linear"%string ;;
  if is_linear then ret linear
  else
    f <- getitem args "valuation_function"%string ;;
    is_logarithmic <- startswith f "logarithmic"%string ;;
    if is_logarithmic then
      _ <- (if Rltb (mean_pixel_size dem_raster_info) 1
            then logger "Pixel sizes are less than 1m."%string
            else ret tt) ;;
      ret logarithmic
    else
      f <- getitem args "valuation_function"%string ;;
      is_exponential <- startswith f "exponential"%string ;;
      if is_exponential then ret exponential
      else
        f <- getitem args "valuation_function"%string ;;
        raise (ValueError
                 (String.append "Valuation function type "%string
                    (String.append (str f) " not recognized"%string))).

(** [n_workers], with the default of the [except] clause. *)
Definition n_workers_of (h : execute_host) (args : args_dict) : M Z :=
  fun w =>
    match (v <- getitem args "n_workers"%string ;; call (int h v)) w with
    | (Raise (KeyError _), w') => (Return 0%Z, w')
    | (Raise (ValueError _), w') => (Return 0%Z, w')
    | (Raise TypeError, w') => (Return 0%Z, w')
    | r => r
    end.

(** The two tasks added for each kept viewpoint, in the order of the
    sorted viewpoint tuples; the names carry [feature_index]. *)
Fixpoint add_viewshed_tasks (h : execute_host) (args : args_dict)
  (viewpoint_tuples : list (R * R)) (feature_index : nat) : M unit :=
  match viewpoint_tuples with
  | [] => ret tt
  | _ :: viewpoint_tuples' =>
      refraction <- getitem args "refraction"%string ;;
      _ <- call (float h refraction) ;;
      _ <- add_task (calculate_visibility feature_index) ;;
      _ <- add_task (calculate_valuation_for_viewshed feature_index) ;;
      add_viewshed_tasks h args viewpoint_tuples' (S feature_index)
  end.

(** [execute]: which exception it raises, which directories it makes
    and which tasks it adds.  File names and the arguments handed to each
    task are not part of the model; the DEM read at the first statement
    stands for every later reading of [args['dem_path']]; sorting the
    viewpoint tuples changes neither their number nor the task names. *)
Definition execute (h : execute_host) (args : args_dict) : M unit :=
  _ <- logger "Starting Scenic Quality Model"%string ;;
  dem_path <- getitem args "dem_path"%string ;;
  dem_raster_info <- call (get_raster_info h dem_path) ;;
  a_coef <- getitem args "a_coef"%string ;;
  a <- call (float h a_coef) ;;
  b_coef <- getitem args "b_coef"%string ;;
  b <- call (float h b_coef) ;;
  valuation_method <- select_valuation_method dem_raster_info args ;;
  workspace_dir <- getitem args "workspace_dir"%string ;;
  output_dir <- os_path_join workspace_dir "output"%string ;;
  workspace_dir <- getitem args "workspace_dir"%string ;;
  intermediate_dir <- os_path_join workspace_dir "intermediate"%string ;;
  _ <- makedirs output_dir ;;
  _ <- makedirs intermediate_dir ;;
  _ <- logger "Building file registry"%string ;;
  radius <- getitem args "max_valuation_radius"%string ;;
  max_valuation_radius <- call (float h radius) ;;
  n_workers <- n_workers_of h args ;;
  _ <- TaskGraph n_workers ;;
  _ <- getitem args "aoi_path"%string ;;
  _ <- add_task reproject_aoi_to_dem ;;
  _ <- getitem args "structure_path"%string ;;
  _ <- add_task reproject_structures_to_dem ;;
  _ <- add_task clip_reprojected_structures_to_aoi ;;
  _ <- getitem args "dem_path"%string ;;
  _ <- add_task clip_dem_to_aoi ;;
  _ <- logger "Waiting for clipping to finish"%string ;;
  _ <- call (clipped_dem_task_join h) ;;
  _ <- call (clipped_viewpoints_task_join h) ;;
  _ <- logger "Setting up viewshed tasks"%string ;;
  points <- call (structures_points h) ;;
  let viewpoint_tuples := filter (viewpoint_kept dem_raster_info) points in
  _ <- add_viewshed_tasks h args viewpoint_tuples 0 ;;
  _ <- add_task add_up_valuation_rasters ;;
  _ <- add_task sum_visibility_for_all_structures ;;
  _ <- add_task calculate_visual_quality ;;
  _ <- logger "Waiting for Scenic Quality tasks to complete."%string ;;
  call (graph_join h).

(** ** [_clip_and_mask_dem]: the bounding box and the mask *)

(** Python's [max(a, b)] and [min(a, b)] of two numbers: the second
    argument is returned only when it is strictly beyond the first. *)
Definition py_max (a b : R) : R := if Rltb a b then b else a.
Definition py_min (a b : R) : R := if Rltb b a then b else a.

(** [intersection_bbox]: [max, max, min, min] zipped with the bounding
    boxes [(minx, miny, maxx, maxy)] of the AOI and of the DEM. *)
Definition intersection_bbox (aoi_bbox dem_bbox : R * R * R * R)
  : R * R * R * R :=
  let '(aoi_minx, aoi_miny, aoi_maxx, aoi_maxy) := aoi_bbox in
  let '(dem_minx, dem_miny, dem_maxx, dem_maxy) := dem_bbox in
  (py_max aoi_minx dem_minx, py_max aoi_miny dem_miny,
   py_min aoi_maxx dem_maxx, py_min aoi_maxy dem_maxy).

(** The local operation [_mask_op(dem, aoi_mask)]. *)
Definition _mask_op (dem_nodata : R) (dem aoi_mask : list R) : list R :=
  let valid_pixels :=
    Np.mask_and (map (fun v => Rneb v dem_nodata) dem)
                (map (fun m => Reqb m 1) aoi_mask) in
  let masked_dem := Np.full (length dem) dem_nodata in
  Np.assign masked_dem valid_pixels (Np.select dem valid_pixels).

(** ** [validate] *)

(** How [validate] ends: with the [KeyError] that carries every missing
    key, with another exception, or with its list of
    [(keys, message)] pairs. *)
Inductive validate_outcome : Type :=
| ValidateKeyError (missing_key_list : list String.string)
| ValidateRaise (e : exn)
| ValidateReturn
    (validation_error_list : list (list String.string * String.string)).

Definition required_keys : list String.string :=
  ["workspace_dir"; "aoi_path"; "structure_path"; "dem_path"; "refraction";
   "max_valuation_radius"; "valuation_function"; "a_coef";
   "b_coef"]%string.

Definition numeric_keys : list String.string :=
  ["refraction"; "max_valuation_radius"; "a_coef"; "b_coef"]%string.

(** [limit_to in (None, key)] *)
Definition limited_to (limit_to : option String.string)
  (key : String.string) : bool :=
  match limit_to with
  | None => true
  | Some k => String.eqb k key
  end.

(** [v in ('', None)] *)
Definition has_no_value (v : pyval) : bool :=
  match v with
  | PyStr s => String.eqb s ""%string
  | PyNone => true
  | _ => false
  end.

(** The loop over [required_keys]: [(missing_key_list, no_value_list)]. *)
Definition check_required_key (args : args_dict)
  (limit_to : option String.string)
  (lists : list String.string * list String.string) (key : String.string)
  : list String.string * list String.string :=
  let '(missing_key_list, no_value_list) := lists in
  if limited_to limit_to key then
    match lookup key args with
    | None => (missing_key_list ++ [key], no_value_list)
    | Some v =>
        if has_no_value v then (missing_key_list, no_value_list ++ [key])
        else (missing_key_list, no_value_list)
    end
  else (missing_key_list, no_value_list).

(** What [validate] asks of gdal: whether [gdal.OpenEx(v, filetype)]
    returns a dataset, and of the spatial reference of the DEM its linear
    units and whether it is projected. *)
Inductive filetype : Type :=
| OF_RASTER
| OF_VECTOR.

Record gdal_host : Type := {
  OpenEx : pyval -> filetype -> bool;
  GetLinearUnits : pyval -> R;
  IsProjected : pyval -> bool
}.

Definition spatial_files
  : list (String.string * filetype * String.string) :=
  [("dem_path", OF_RASTER, "raster"); ("aoi_path", OF_VECTOR, "vector");
   ("structure_path", OF_VECTOR, "vector")]%string.

(** The loop over [spatial_files]. *)
Definition check_spatial_file (g : gdal_host) (args : args_dict)
  (validation_error_list : list (list String.string * String.string))
  (file : String.string * filetype * String.string)
  : list (list String.string * String.string) :=
  let '(key, filetype, filetype_string) := file in
  match lookup key args with
  | None => validation_error_list
  | Some v =>
      if has_no_value v then validation_error_list
      else if OpenEx g v filetype then validation_error_list
      else validation_error_list ++
           [([key], String.append "Must be a "%string filetype_string)]
  end.

(** The loop over [numeric_keys]; an exception that is neither a
    [ValueError] nor a [TypeError] (the [KeyError] of a missing key
    included) is logged and adds nothing. *)
Definition check_numeric_key (h : execute_host) (args : args_dict)
  (limit_to : option String.string)
  (validation_error_list : list (list String.string * String.string))
  (key : String.string) : list (list String.string * String.string) :=
  if negb (limited_to limit_to key) then validation_error_list
  else
    match lookup key args with
    | None => validation_error_list
    | Some v =>
        match float h v with
        | Raise (ValueError _) =>
            validation_error_list ++ [([key], "Must be a number"%string)]
        | Raise TypeError =>
            validation_error_list ++ [([key], "Must be a number"%string)]
        | _ => validation_error_list
        end
    end.

(** [v.startswith(('linear', 'logarithmic', 'exponential'))] *)
Definition starts_with_a_method (s : String.string) : bool :=
  String.prefix "linear"%string s
  || String.prefix "logarithmic"%string s
  || String.prefix "exponential"%string s.

(** [validate(args, limit_to)], the function under its decorator; what
    it sends to the log is left out. *)
Definition validate (h : execute_host) (g : gdal_host) (args : args_dict)
  (limit_to : option String.string) : validate_outcome :=
  let '(missing_key_list, no_value_list) :=
    fold_left (check_required_key args limit_to) required_keys ([], []) in
  match missing_key_list with
  | _ :: _ => ValidateKeyError missing_key_list
  | [] =>
      let validation_error_list :=
        match no_value_list with
        | [] => []
        | _ :: _ => [(no_value_list, "parameter has no value"%string)]
        end in
      let checked_function :=
        if limited_to limit_to "valuation_function"%string then
          match lookup "valuation_function"%string args with
          | None => Raise (KeyError "valuation_function"%string)
          | Some (PyStr s) =>
              if negb (starts_with_a_method s) then
                Return (validation_error_list ++
                        [(["valuation_function"%string],
                          "Invalid function"%string)])
              else Return validation_error_list
          | Some _ => Raise AttributeError
          end
        else Return validation_error_list in
      match checked_function with
      | Raise e => ValidateRaise e
      | Return validation_error_list =>
          let validation_error_list :=
            fold_left (check_spatial_file g args) spatial_files
                      validation_error_list in
          let checked_projection :=
            if limited_to limit_to "dem_path"%string then
              match lookup "dem_path"%string args with
              | None => Raise (KeyError "dem_path"%string)
              | Some dem_path =>
                  if OpenEx g dem_path OF_RASTER then
                    if Rltb 5000000 (Rabs (GetLinearUnits g dem_path - 1))
                       || negb (IsProjected g dem_path)
                    then Return (validation_error_list ++
                                 [(["dem_path"%string],
                                   "Must be projected in meters"%string)])
                    else Return validation_error_list
                  else Return validation_error_list
              end
            else Return validation_error_list in
          match checked_projection with
          | Raise e => ValidateRaise e
          | Return validation_error_list =>
              ValidateReturn
                (fold_left (check_numeric_key h args limit_to) numeric_keys
                           validation_error_list)
          end
      end
  end.

(** ** Reading a raster *)

(** Pixel [i] of block [k]. *)
Definition pixel_at (A : Type) (raster : list (list A)) (k i : nat)
  : option A :=
  match nth_error raster k with
  | Some block => nth_error block i
  | None => None
  end.

(** ** The tasks of the viewpoints *)

(** The names of the tasks [execute] adds for [n] viewpoints, from
    [feature_index] on, in the order they are added. *)
Definition viewshed_task_names (feature_index n : nat) : list task_name :=
  flat_map (fun i => [calculate_visibility i;
                      calculate_valuation_for_viewshed i])
           (seq feature_index n).

(** ** A host and arguments to run [execute] on *)

(** A DEM of ten by ten pixels of 30 m without no-data pixels, one
    structure point, and joins that end as given. *)
Definition run_host (clipped_dem_join : result unit) : execute_host :=
  {| get_raster_info := fun _ =>
       Return {| bounding_box := (0, -300, 300, 0)%R;
                 mean_pixel_size := 30;
                 GetNoDataValue := Some (-1)%R;
                 GetGeoTransform := (0, 30, 0, 0, 0, -30)%R;
                 ReadAsArray := fun _ _ => Some 100%R |};
     float_of_string := fun _ => None;
     int_of_string := fun _ => None;
     structures_points := Return [(15, -15)%R];
     clipped_dem_task_join := clipped_dem_join;
     clipped_viewpoints_task_join := Return tt;
     graph_join := Return tt |}.

Definition run_args : args_dict :=
  [("workspace_dir", PyStr "ws"); ("dem_path", PyStr "dem.tif");
   ("aoi_path", PyStr "aoi.shp");
   ("structure_path", PyStr "structures.shp");
   ("refraction", PyFloat (Finite (13 / 100)));
   ("valuation_function", PyStr "linear");
   ("a_coef", PyFloat (Finite 1)); ("b_coef", PyFloat (Finite 0));
   ("max_valuation_radius", PyFloat (Finite 8000))]%string.

Definition run_gdal : gdal_host :=
  {| OpenEx := fun _ _ => true;
     GetLinearUnits := fun _ => 1%R;
     IsProjected := fun _ => true |}.

(** The same with a projection whose linear unit is the foot. *)
Definition run_gdal_in_feet : gdal_host :=
  {| OpenEx := fun _ _ => true;
     GetLinearUnits := fun _ => (3048 / 10000)%R;
     IsProjected := fun _ => true |}.

Definition new_world : world :=
  {| dirs := []; logged := []; graph_built := false; tasks := [] |}.

(* ================================================================== *)
(** * Part II: properties of the program                                *)
(* ================================================================== *)

(** ** Comparisons *)

Lemma Reqb_true (x y : R) : Reqb x y = true <-> x = y.
Proof. unfold Reqb. destruct (Req_dec_T x y); split; congruence. Qed.

Lemma Reqb_false (x y : R) : Reqb x y = false <-> x <> y.
Proof. unfold Reqb. destruct (Req_dec_T x y); split; congruence. Qed.

Lemma Reqb_refl (x : R) : Reqb x x = true.
Proof. now apply Reqb_true. Qed.

Lemma Rneb_true (x y : R) : Rneb x y = true <-> x <> y.
Proof. unfold Rneb. rewrite negb_true_iff. apply Reqb_false. Qed.

Lemma Rneb_false (x y : R) : Rneb x y = false <-> x = y.
Proof. unfold Rneb. rewrite negb_false_iff. apply Reqb_true. Qed.

Lemma Rleb_true (x y : R) : Rleb x y = true <-> (x <= y)%R.
Proof. unfold Rleb. destruct (Rle_dec x y); split; intros; congruence || lra. Qed.

Lemma Rleb_false (x y : R) : Rleb x y = false <-> (y < x)%R.
Proof. unfold Rleb. destruct (Rle_dec x y); split; intros; congruence || lra. Qed.

Lemma Rltb_true (x y : R) : Rltb x y = true <-> (x < y)%R.
Proof. unfold Rltb. destruct (Rlt_dec x y); split; intros; congruence || lra. Qed.

Lemma Rltb_false (x y : R) : Rltb x y = false <-> (y <= x)%R.
Proof. unfold Rltb. destruct (Rlt_dec x y); split; intros; congruence || lra. Qed.

(** Decides a comparison between two real constants. *)
Ltac Rcompare :=
  repeat match goal with
  | |- context [Reqb ?x ?y] =>
      first [ replace (Reqb x y) with true by (symmetry; apply Reqb_true; lra)
            | replace (Reqb x y) with false by (symmetry; apply Reqb_false; lra) ]
  | |- context [Rneb ?x ?y] =>
      first [ replace (Rneb x y) with true by (symmetry; apply Rneb_true; lra)
            | replace (Rneb x y) with false by (symmetry; apply Rneb_false; lra) ]
  | |- context [Rleb ?x ?y] =>
      first [ replace (Rleb x y) with true by (symmetry; apply Rleb_true; lra)
            | replace (Rleb x y) with false by (symmetry; apply Rleb_false; lra) ]
  | |- context [Rltb ?x ?y] =>
      first [ replace (Rltb x y) with true by (symmetry; apply Rltb_true; lra)
            | replace (Rltb x y) with false by (symmetry; apply Rltb_false; lra) ]
  end.

(** Evaluates a program on constants, comparisons included. *)
Ltac Reval := repeat (progress (simpl; Rcompare)).

(** ** Arrays *)

Section NpFacts.

Variables A B C : Type.

Lemma length_full (n : nat) (c : A) : length (Np.full n c) = n.
Proof. apply repeat_length. Qed.

Lemma nth_error_full (n i : nat) (c : A) :
  nth_error (Np.full n c) i = if (i <? n)%nat then Some c else None.
Proof.
  unfold Np.full. destruct (Nat.ltb_spec i n) as [Hlt | Hge].
  - now apply nth_error_repeat.
  - apply nth_error_None. now rewrite repeat_length.
Qed.

Lemma length_zip_with (f : A -> B -> C) (a : list A) (b : list B) :
  length (Np.zip_with f a b) = Nat.min (length a) (length b).
Proof.
  revert b. induction a as [| x a IH]; intros [| y b]; simpl; auto.
Qed.

Lemma nth_error_zip_with (f : A -> B -> C) (a : list A) (b : list B) i :
  nth_error (Np.zip_with f a b) i =
  match nth_error a i, nth_error b i with
  | Some x, Some y => Some (f x y)
  | _, _ => None
  end.
Proof.
  revert b i. induction a as [| x a IH]; intros [| y b] [| i]; simpl; auto.
  - now destruct (nth_error a i).
Qed.

Lemma length_select_le (a : list A) (m : list bool) :
  (length (Np.select a m) <= length a)%nat.
Proof.
  revert m. induction a as [| x a IH]; intros [| [|] m]; simpl; try lia;
    specialize (IH m); lia.
Qed.

Lemma length_select (a : list A) (b : list B) (m : list bool) :
  length a = length b ->
  length (Np.select a m) = length (Np.select b m).
Proof.
  revert b m.
  induction a as [| x a IH]; intros [| y b] [| [|] m] Hlen; simpl in *;
    try discriminate; auto.
Qed.

Lemma select_map (f : A -> B) (a : list A) (m : list bool) :
  Np.select (map f a) m = map f (Np.select a m).
Proof.
  revert m. induction a as [| x a IH]; intros [| [|] m]; simpl; auto.
  now rewrite IH.
Qed.

Lemma select_zip_with (f : A -> B -> C) (a : list A) (b : list B) m :
  Np.select (Np.zip_with f a b) m =
  Np.zip_with f (Np.select a m) (Np.select b m).
Proof.
  revert b m.
  induction a as [| x a IH]; intros [| y b] [| [|] m]; simpl; auto.
  - now destruct (Np.select a m).
  - now rewrite IH.
Qed.

Lemma zip_with_map (f : A -> B -> C) (A' B' : Type) (g : A' -> A)
  (h : B' -> B) (a : list A') (b : list B') :
  Np.zip_with f (map g a) (map h b) =
  Np.zip_with (fun x y => f (g x) (h y)) a b.
Proof.
  revert b. induction a as [| x a IH]; intros [| y b]; simpl; auto.
  now rewrite IH.
Qed.

Lemma length_assign (a : list A) (m : list bool) (vals : list A) :
  length (Np.assign a m vals) = length a.
Proof.
  revert m vals.
  induction a as [| x a IH]; intros [| [|] m] [| v vals]; simpl; auto.
Qed.

Lemma length_assign_scalar (a : list A) (m : list bool) (c : A) :
  length (Np.assign_scalar a m c) = length a.
Proof.
  revert m. induction a as [| x a IH]; intros [| b m]; simpl; auto.
Qed.

Lemma nth_error_assign_scalar (a : list A) (m : list bool) (c : A) i :
  length m = length a ->
  nth_error (Np.assign_scalar a m c) i =
  match nth_error m i with
  | Some true => Some c
  | _ => nth_error a i
  end.
Proof.
  revert m i.
  induction a as [| x a IH]; intros [| b m] [| i] Hlen; simpl in *;
    try discriminate; auto.
  now destruct b.
Qed.

(** A masked assignment of values selected with the same mask is
    [numpy.where]. *)
Lemma assign_select (a s : list A) (m : list bool) :
  length m = length a -> length s = length a ->
  Np.assign a m (Np.select s m) = Np.where_ m s a.
Proof.
  revert s m.
  induction a as [| x a IH]; intros [| y s] [| b m] Hm Hs; simpl in *;
    try discriminate; auto.
  destruct b; f_equal; apply IH; lia.
Qed.

Lemma nth_error_where (m : list bool) (s a : list A) i :
  length m = length a -> length s = length a ->
  nth_error (Np.where_ m s a) i =
  match nth_error m i with
  | Some true => nth_error s i
  | _ => nth_error a i
  end.
Proof.
  revert s a i.
  induction m as [| b m IH]; intros [| y s] [| x a] [| i] Hm Hs;
    simpl in *; try discriminate; auto.
  now destruct b.
Qed.

Lemma length_where (m : list bool) (s a : list A) :
  length m = length a -> length s = length a ->
  length (Np.where_ m s a) = length a.
Proof.
  revert s a.
  induction m as [| b m IH]; intros [| y s] [| x a] Hm Hs;
    simpl in *; try discriminate; auto.
Qed.

End NpFacts.

Lemma nth_error_mask_and (m1 m2 : list bool) i :
  nth_error (Np.mask_and m1 m2) i =
  match nth_error m1 i, nth_error m2 i with
  | Some b1, Some b2 => Some (b1 && b2)
  | _, _ => None
  end.
Proof. apply nth_error_zip_with. Qed.

Lemma nth_error_mask_not (m : list bool) i :
  nth_error (Np.mask_not m) i = option_map negb (nth_error m i).
Proof. apply nth_error_map. Qed.

Lemma length_mask_and (m1 m2 : list bool) :
  length (Np.mask_and m1 m2) = Nat.min (length m1) (length m2).
Proof. apply length_zip_with. Qed.

Lemma length_mask_not (m : list bool) : length (Np.mask_not m) = length m.
Proof. apply length_map. Qed.

(** [a[m] += select(x, m)] adds [x] to [a] under the mask. *)
Lemma add_at_select (a x : list R) (m : list bool) :
  length m = length a -> length x = length a ->
  Np.add_at a m (Np.select x m) = Np.where_ m (Np.zip_with Rplus a x) a.
Proof.
  intros Hm Hx. unfold Np.add_at.
  rewrite <- select_zip_with. apply assign_select; auto.
  rewrite length_zip_with. lia.
Qed.

(** ** Valuation *)

Section ValuationFacts.

Variable method : valuation_method.
Variable coefs : valuation_coefficients.
Variable weight : R.

(** The closure [_valuation] works pixel by pixel. *)
Lemma _valuation_pointwise (distance visibility : list R) :
  length distance = length visibility ->
  _valuation method coefs weight distance visibility =
  Np.zip_with (pixel_valuation method coefs weight) distance visibility.
Proof.
  revert visibility.
  induction distance as [| d distance IH]; intros [| v visibility] Hlen;
    simpl in Hlen; try discriminate.
  - now destruct method.
  - injection Hlen as Hlen. specialize (IH visibility Hlen).
    destruct method; unfold _valuation, Np.mask_and in *; simpl in *;
      unfold pixel_valuation at 1; simpl.
    + destruct (Rltb 0 v); simpl; now rewrite IH.
    + destruct (Rltb 0 v), (Rltb 0 d); simpl; now rewrite IH.
    + destruct (Rltb 0 v); simpl; now rewrite IH.
Qed.

(** The logarithm is only ever taken of a positive distance. *)
Lemma logarithm_arguments_positive (distance visibility : list R) :
  Forall (fun d => 0 < d)%R
    (Np.select distance
       (Np.mask_and (map (fun v => Rltb 0 v) visibility)
                    (map (fun d => Rltb 0 d) distance))).
Proof.
  revert visibility. unfold Np.mask_and.
  induction distance as [| d distance IH]; intros [| v visibility];
    simpl; auto.
  destruct (Rltb 0 v) eqn:Hv, (Rltb 0 d) eqn:Hd; simpl; auto.
  constructor; auto. now apply Rltb_true.
Qed.

Variable max_valuation_radius : R.
Variable g : viewshed_geometry.
Variable bi : block_info.

Lemma length_linspace (start : Z) (n : nat) :
  length (Np.linspace start n) = n.
Proof. unfold Np.linspace. now rewrite length_map, length_seq. Qed.

Lemma length_dist_in_m :
  length (dist_in_m g bi) = (win_ysize bi * win_xsize bi)%nat.
Proof.
  unfold dist_in_m. rewrite length_zip_with.
  unfold Np.meshgrid_x, Np.meshgrid_y.
  rewrite (@flat_map_constant_length _ _ (win_xsize bi)),
          (@flat_map_constant_length _ _ (win_xsize bi)).
  - rewrite length_linspace. lia.
  - intros y _. now rewrite length_map, length_linspace.
  - intros y _. now rewrite length_linspace.
Qed.

Lemma nth_error_linspace (start : Z) (n k : nat) :
  (k < n)%nat ->
  nth_error (Np.linspace start n) k = Some (IZR (start + Z.of_nat k)).
Proof.
  intros Hk. unfold Np.linspace.
  rewrite nth_error_map.
  rewrite (nth_error_nth' (seq 0 n) 0%nat) by now rewrite length_seq.
  now rewrite seq_nth.
Qed.

Lemma nth_error_flat_map_rows (A B : Type) (f : A -> list B) (n : nat)
  (l : list A) :
  (forall x, length (f x) = n) ->
  forall (r c : nat) (y : A),
    (c < n)%nat -> nth_error l r = Some y ->
    nth_error (flat_map f l) (r * n + c) = nth_error (f y) c.
Proof.
  intros Hrow.
  induction l as [| x l IH]; intros [| r] c y Hc Hy; simpl in Hy;
    try discriminate.
  - injection Hy as ->. simpl.
    apply nth_error_app1. now rewrite Hrow.
  - simpl flat_map.
    rewrite nth_error_app2 by (rewrite Hrow; simpl; lia).
    rewrite Hrow.
    replace (S r * n + c - n)%nat with (r * n + c)%nat by (simpl; lia).
    now apply IH.
Qed.

(** [dist_in_m] at row [r] and column [c] of the block is the distance,
    in metres, between pixel [(xoff + c, yoff + r)] and the pixel of the
    viewpoint. *)
Lemma dist_in_m_at (r c : nat) :
  (r < win_ysize bi)%nat -> (c < win_xsize bi)%nat ->
  nth_error (dist_in_m g bi) (r * win_xsize bi + c) =
  Some (Np.hypot
          (Rabs (IZR (xoff bi + Z.of_nat c) - IZR (ix_viewpoint g)))
          (Rabs (IZR (yoff bi + Z.of_nat r) - IZR (iy_viewpoint g)))
        * pixel_size_in_m g)%R.
Proof.
  intros Hr Hc. unfold dist_in_m.
  rewrite nth_error_zip_with.
  unfold Np.meshgrid_x, Np.meshgrid_y.
  rewrite (@nth_error_flat_map_rows _ _ _ (win_xsize bi) _
             (fun _ => length_linspace _ _) r c
             (IZR (yoff bi + Z.of_nat r)) Hc
             (nth_error_linspace _ Hr)).
  rewrite (@nth_error_flat_map_rows _ _ _ (win_xsize bi) _
             (fun _ => eq_trans (length_map _ _) (length_linspace _ _))
             r c (IZR (yoff bi + Z.of_nat r)) Hc
             (nth_error_linspace _ Hr)).
  rewrite nth_error_linspace by assumption.
  rewrite nth_error_map, nth_error_linspace by assumption.
  reflexivity.
Qed.

(** One pixel of the array written for a block: the pixel-wise reading
    of the loop body of [_calculate_valuation]. *)
Lemma valuation_block_pixel (vis_block : list R) (i : nat) (v d : R) :
  length vis_block = (win_ysize bi * win_xsize bi)%nat ->
  nth_error vis_block i = Some v ->
  nth_error (dist_in_m g bi) i = Some d ->
  nth_error
    (valuation_block method coefs weight max_valuation_radius g bi vis_block)
    i =
  Some (if Reqb v (vis_nodata g) then _VALUATION_NODATA
        else if Rleb d max_valuation_radius
             then pixel_valuation method coefs weight d v
             else 0%R).
Proof.
  intros Hshape Hv Hd.
  pose proof length_dist_in_m as Hdist.
  assert (Hi : (i < length vis_block)%nat)
    by (apply nth_error_Some; congruence).
  unfold valuation_block.
  set (dist := dist_in_m g bi) in *.
  set (valid_distances := map (fun d => Rleb d max_valuation_radius) dist).
  set (nodata := map (fun v => Reqb v (vis_nodata g)) vis_block).
  set (valid_indexes := Np.mask_and valid_distances (Np.mask_not nodata)).
  assert (Hvd : length valid_distances = length vis_block)
    by (unfold valid_distances; rewrite length_map; lia).
  assert (Hnd : length nodata = length vis_block)
    by (unfold nodata; now rewrite length_map).
  assert (Hvi : length valid_indexes = length vis_block)
    by (unfold valid_indexes;
        rewrite length_mask_and, length_mask_not; lia).
  rewrite _valuation_pointwise
    by (apply length_select; lia).
  rewrite <- select_zip_with.
  rewrite assign_select;
    [ | rewrite length_full; lia
      | rewrite length_full, length_zip_with; lia ].
  assert (Hz : length (Np.zip_with (pixel_valuation method coefs weight)
                         dist vis_block) = length vis_block)
    by (rewrite length_zip_with; lia).
  rewrite nth_error_assign_scalar
    by (rewrite length_where;
        rewrite ?length_mask_and, ?length_mask_not, ?length_full; lia).
  rewrite nth_error_where by (rewrite ?length_full; lia).
  unfold valid_indexes.
  rewrite !nth_error_mask_and, !nth_error_mask_not.
  unfold valid_distances, nodata.
  rewrite !nth_error_map, nth_error_zip_with, nth_error_full, Hv, Hd.
  simpl.
  apply Nat.ltb_lt in Hi. rewrite Hi.
  now destruct (Rleb d max_valuation_radius), (Reqb v (vis_nodata g)).
Qed.

Lemma nth_error_calculate_valuation
  (visibility : list (block_info * list R)) (k : nat) (vis_block : list R) :
  nth_error visibility k = Some (bi, vis_block) ->
  nth_error
    (_calculate_valuation method coefs weight max_valuation_radius g
       visibility) k =
  Some (valuation_block method coefs weight max_valuation_radius g bi
          vis_block).
Proof.
  intros Hk. unfold _calculate_valuation.
  now rewrite nth_error_map, Hk.
Qed.

End ValuationFacts.

(** C1.  Every pixel of every block of the visibility raster: a pixel
    holding the visibility raster's no-data value is written as
    [_VALUATION_NODATA]; any other pixel farther from the viewpoint than
    [max_valuation_radius] is written as 0, which is not the no-data
    value; and any other pixel whose visibility is 0 is written as 0
    whatever its distance, with each of the three valuation methods. *)
Theorem valuation_nodata_radius_and_invisible
  (method : valuation_method) (coefs : valuation_coefficients)
  (weight max_valuation_radius : R) (g : viewshed_geometry)
  (visibility : list (block_info * list R)) (k : nat) (bi : block_info)
  (vis_block : list R) (i : nat) (v d : R) :
  nth_error visibility k = Some (bi, vis_block) ->
  length vis_block = (win_ysize bi * win_xsize bi)%nat ->
  nth_error vis_block i = Some v ->
  nth_error (dist_in_m g bi) i = Some d ->
  exists out_block,
    nth_error (_calculate_valuation method coefs weight max_valuation_radius
                 g visibility) k = Some out_block /\
    (v = vis_nodata g -> nth_error out_block i = Some _VALUATION_NODATA) /\
    (v <> vis_nodata g -> (max_valuation_radius < d)%R ->
     nth_error out_block i = Some 0%R) /\
    (v <> vis_nodata g -> v = 0%R -> nth_error out_block i = Some 0%R) /\
    0%R <> _VALUATION_NODATA.
Proof.
  intros Hk Hshape Hv Hd.
  eexists. split; [ eapply nth_error_calculate_valuation; eassumption | ].
  rewrite (valuation_block_pixel method coefs weight max_valuation_radius
             g bi vis_block i Hshape Hv Hd).
  repeat split.
  - intros ->. now rewrite Reqb_refl.
  - intros Hnd Hfar.
    apply Reqb_false in Hnd. apply Rleb_false in Hfar.
    now rewrite Hnd, Hfar.
  - intros Hnd ->.
    apply Reqb_false in Hnd. rewrite Hnd.
    assert (H0 : Rltb 0 0 = false) by (apply Rltb_false; lra).
    destruct (Rleb d max_valuation_radius); auto.
    destruct method; unfold pixel_valuation; now rewrite H0.
  - unfold _VALUATION_NODATA. lra.
Qed.

(** A 2 x 1 block whose second pixel is no-data (255), seen from the
    block's first pixel with 30 m pixels. *)
Lemma valuation_nodata_radius_and_invisible_witness :
  exists out_block,
    nth_error
      (_calculate_valuation linear {| coef_a := 1; coef_b := 0 |} 2 1000
         {| ix_viewpoint := 0; iy_viewpoint := 0;
            pixel_size_in_m := 30; vis_nodata := 255 |}
         [({| xoff := 0; yoff := 0; win_xsize := 2; win_ysize := 1 |},
           [1%R; 255%R])]) 0 = Some out_block /\
    (255%R = 255%R -> nth_error out_block 1 = Some _VALUATION_NODATA) /\
    (255%R <> 255%R ->
     (1000 < Np.hypot (Rabs (IZR (0 + Z.of_nat 1) - IZR 0))
                      (Rabs (IZR (0 + Z.of_nat 0) - IZR 0)) * 30)%R ->
     nth_error out_block 1 = Some 0%R) /\
    (255%R <> 255%R -> 255%R = 0%R -> nth_error out_block 1 = Some 0%R) /\
    0%R <> _VALUATION_NODATA.
Proof.
  apply (@valuation_nodata_radius_and_invisible
           linear {| coef_a := 1; coef_b := 0 |} 2 1000
           {| ix_viewpoint := 0; iy_viewpoint := 0;
              pixel_size_in_m := 30; vis_nodata := 255 |}
           [({| xoff := 0; yoff := 0; win_xsize := 2; win_ysize := 1 |},
             [1%R; 255%R])] 0
           {| xoff := 0; yoff := 0; win_xsize := 2; win_ysize := 1 |}
           [1%R; 255%R] 1 255%R);
    reflexivity.
Defined.

(** C2.  With the logarithmic method, a pixel that is visible (a
    visibility above 0 that is not the no-data value) and within
    [max_valuation_radius] is written as [(a + b ln d) * weight *
    visibility] when its distance [d] is positive and as 0 when [d] is 0;
    and the logarithm is only ever evaluated on positive distances. *)
Theorem logarithmic_valuation_of_visible_pixel
  (coefs : valuation_coefficients)
  (weight max_valuation_radius : R) (g : viewshed_geometry)
  (visibility : list (block_info * list R)) (k : nat) (bi : block_info)
  (vis_block : list R) (i : nat) (v d : R) :
  nth_error visibility k = Some (bi, vis_block) ->
  length vis_block = (win_ysize bi * win_xsize bi)%nat ->
  nth_error vis_block i = Some v ->
  nth_error (dist_in_m g bi) i = Some d ->
  v <> vis_nodata g -> (0 < v)%R -> (d <= max_valuation_radius)%R ->
  exists out_block,
    nth_error (_calculate_valuation logarithmic coefs weight
                 max_valuation_radius g visibility) k = Some out_block /\
    ((0 < d)%R ->
     nth_error out_block i =
     Some ((coef_a coefs + coef_b coefs * ln d) * weight * v)%R) /\
    (d = 0%R -> nth_error out_block i = Some 0%R) /\
    (forall distance' visibility' : list R,
       Forall (fun x => 0 < x)%R
         (Np.select distance'
            (Np.mask_and (map (fun v => Rltb 0 v) visibility')
                         (map (fun d => Rltb 0 d) distance')))).
Proof.
  intros Hk Hshape Hv Hd Hnd Hvis Hnear.
  eexists. split; [ eapply nth_error_calculate_valuation; eassumption | ].
  rewrite (valuation_block_pixel logarithmic coefs weight
             max_valuation_radius g bi vis_block i Hshape Hv Hd).
  apply Reqb_false in Hnd. apply Rleb_true in Hnear.
  apply Rltb_true in Hvis.
  rewrite Hnd, Hnear. unfold pixel_valuation. rewrite Hvis. simpl.
  repeat split.
  - intros Hpos. apply Rltb_true in Hpos. rewrite Hpos. f_equal. ring.
  - intros ->.
    assert (H0 : Rltb 0 0 = false) by (apply Rltb_false; lra).
    now rewrite H0.
  - intros. apply logarithm_arguments_positive.
Qed.

Lemma hypot_one_pixel_east :
  (Np.hypot (Rabs (IZR (0 + Z.of_nat 1) - IZR 0))
            (Rabs (IZR (0 + Z.of_nat 0) - IZR 0)) * 30 = 30)%R.
Proof.
  simpl. unfold Np.hypot.
  replace (1 - 0)%R with 1%R by ring. replace (0 - 0)%R with 0%R by ring.
  rewrite Rabs_R1, Rabs_R0.
  replace (1 * 1 + 0 * 0)%R with 1%R by ring.
  rewrite sqrt_1. ring.
Qed.

(** The pixel east of the viewpoint, 30 m away and visible. *)
Lemma logarithmic_valuation_of_visible_pixel_witness :
  exists out_block,
    nth_error
      (_calculate_valuation logarithmic {| coef_a := 1; coef_b := 2 |} 2 1000
         {| ix_viewpoint := 0; iy_viewpoint := 0;
            pixel_size_in_m := 30; vis_nodata := 255 |}
         [({| xoff := 0; yoff := 0; win_xsize := 2; win_ysize := 1 |},
           [1%R; 1%R])]) 0 = Some out_block /\
    nth_error out_block 1 = Some ((1 + 2 * ln 30) * 2 * 1)%R.
Proof.
  destruct (@logarithmic_valuation_of_visible_pixel
              {| coef_a := 1; coef_b := 2 |} 2 1000
              {| ix_viewpoint := 0; iy_viewpoint := 0;
                 pixel_size_in_m := 30; vis_nodata := 255 |}
              [({| xoff := 0; yoff := 0; win_xsize := 2; win_ysize := 1 |},
                [1%R; 1%R])] 0
              {| xoff := 0; yoff := 0; win_xsize := 2; win_ysize := 1 |}
              [1%R; 1%R] 1 1%R
              (Np.hypot (Rabs (IZR (0 + Z.of_nat 1) - IZR 0))
                        (Rabs (IZR (0 + Z.of_nat 0) - IZR 0)) * 30)%R
              eq_refl eq_refl eq_refl eq_refl)
    as [out_block [Hblock [Hpositive _]]].
  - simpl. lra.
  - lra.
  - rewrite hypot_one_pixel_east. lra.
  - exists out_block. split; [ exact Hblock | ].
    rewrite Hpositive by (rewrite hypot_one_pixel_east; lra).
    now rewrite hypot_one_pixel_east.
Defined.

(** ** Aggregators *)

Section MaskedAccumulation.

(** One pixel [i] of a block of the terrain, [x] being its value there;
    [valid] is what the code tests of [x]. *)
Variable dem : list R.
Variable i : nat.
Variable x : R.
Variable valid : R -> bool.
Hypothesis Hx : nth_error dem i = Some x.

(** [acc[m & valid_dem] += f(array[m & valid_dem])], read at pixel [i];
    both reducers are folds of such a step. *)
Lemma masked_add_pixel (test : R -> bool) (f : R -> R)
  (acc array : list R) (s : R) :
  length acc = length dem -> length array = length dem ->
  nth_error acc i = Some s ->
  let m := Np.mask_and (map test array) (map valid dem) in
  nth_error (Np.add_at acc m (map f (Np.select array m))) i =
  Some (if test (nth i array 0%R) && valid x
        then (s + f (nth i array 0%R))%R else s).
Proof.
  intros Hacc Harr Hs m.
  assert (Hm : length m = length dem)
    by (unfold m; rewrite length_mask_and, !length_map; lia).
  assert (Hi : (i < length dem)%nat)
    by (apply nth_error_Some; congruence).
  rewrite <- select_map, add_at_select by (rewrite ?length_map; lia).
  rewrite nth_error_where
    by (rewrite ?length_zip_with, ?length_map; lia).
  unfold m.
  rewrite nth_error_mask_and, !nth_error_map, nth_error_zip_with, Hx, Hs,
    nth_error_map.
  rewrite (nth_error_nth' array 0%R) by lia. simpl.
  now destruct (test (nth i array 0%R)), (valid x).
Qed.

End MaskedAccumulation.

Section SumValuationRasters.

Variable dem_nodata : R.
Variable dem : list R.
Variable i : nat.
Variable x : R.
Hypothesis Hx : nth_error dem i = Some x.

Let sum_step (raster_sum valuation_matrix : list R) : list R :=
  let valid_pixels :=
    Np.mask_and (map (fun v => Rneb v _VALUATION_NODATA) valuation_matrix)
                (map (fun v => Rneb v dem_nodata) dem) in
  Np.add_at raster_sum valid_pixels (Np.select valuation_matrix valid_pixels).

Lemma sum_rasters_fold (valuation_rasters : list (list R)) :
  Forall (fun vm => length vm = length dem) valuation_rasters ->
  forall (raster_sum : list R) (s : R),
    length raster_sum = length dem ->
    nth_error raster_sum i = Some s ->
    x <> dem_nodata ->
    nth_error (fold_left sum_step valuation_rasters raster_sum) i =
    Some (s + Rsum (filter (fun y => Rneb y _VALUATION_NODATA)
                           (values_at i valuation_rasters)))%R.
Proof.
  induction 1 as [| vm rest Hvm _ IH]; intros raster_sum s Hlen Hs Hvalid.
  - simpl. rewrite Hs. f_equal. ring.
  - simpl fold_left.
    assert (Hlen' : length (sum_step raster_sum vm) = length dem)
      by (unfold sum_step, Np.add_at; now rewrite length_assign).
    assert (Hstep : nth_error (sum_step raster_sum vm) i =
                    Some (if Rneb (nth i vm 0%R) _VALUATION_NODATA
                          then (s + nth i vm 0%R)%R else s)).
    { pose proof (@masked_add_pixel dem i x (fun v => Rneb v dem_nodata) Hx
                    (fun v => Rneb v _VALUATION_NODATA) (fun v => v)
                    raster_sum vm s Hlen Hvm Hs) as Hpix.
      simpl in Hpix. rewrite map_id in Hpix.
      unfold sum_step. rewrite Hpix.
      apply Rneb_true in Hvalid. now rewrite Hvalid, andb_true_r. }
    rewrite (IH _ _ Hlen' Hstep Hvalid).
    simpl. destruct (Rneb (nth i vm 0%R) _VALUATION_NODATA); simpl;
      f_equal; ring.
Qed.

Lemma sum_rasters_fold_nodata (valuation_rasters : list (list R)) :
  Forall (fun vm => length vm = length dem) valuation_rasters ->
  forall (raster_sum : list R) (s : R),
    length raster_sum = length dem ->
    nth_error raster_sum i = Some s ->
    x = dem_nodata ->
    nth_error (fold_left sum_step valuation_rasters raster_sum) i = Some s.
Proof.
  induction 1 as [| vm rest Hvm _ IH]; intros raster_sum s Hlen Hs Hnodata.
  - exact Hs.
  - simpl fold_left.
    assert (Hlen' : length (sum_step raster_sum vm) = length dem)
      by (unfold sum_step, Np.add_at; now rewrite length_assign).
    apply IH; auto.
    pose proof (@masked_add_pixel dem i x (fun v => Rneb v dem_nodata) Hx
                  (fun v => Rneb v _VALUATION_NODATA) (fun v => v)
                  raster_sum vm s Hlen Hvm Hs) as Hpix.
    simpl in Hpix. rewrite map_id in Hpix.
    unfold sum_step. rewrite Hpix.
    apply Rneb_false in Hnodata. now rewrite Hnodata, andb_false_r.
Qed.

(** The pixel-wise reading of [_sum_rasters]. *)
Lemma _sum_rasters_pixel (valuation_rasters : list (list R)) :
  Forall (fun vm => length vm = length dem) valuation_rasters ->
  nth_error (_sum_rasters dem_nodata dem valuation_rasters) i =
  Some (if Reqb x dem_nodata then _VALUATION_NODATA
        else Rsum (filter (fun y => Rneb y _VALUATION_NODATA)
                          (values_at i valuation_rasters))).
Proof.
  intros Hall.
  assert (Hi : (i < length dem)%nat)
    by (apply nth_error_Some; congruence).
  apply Nat.ltb_lt in Hi.
  unfold _sum_rasters.
  set (start := Np.assign_scalar _ _ _).
  assert (Hlen : length start = length dem)
    by (unfold start; now rewrite length_assign_scalar, length_full).
  assert (Hstart : nth_error start i =
                   Some (if Rneb x dem_nodata then 0%R
                         else _VALUATION_NODATA)).
  { unfold start.
    rewrite nth_error_assign_scalar
      by now rewrite length_full, length_map.
    rewrite nth_error_map, Hx, nth_error_full, Hi. simpl.
    now destruct (Rneb x dem_nodata). }
  change (fold_left _ valuation_rasters start)
    with (fold_left sum_step valuation_rasters start).
  unfold Rneb in Hstart.
  destruct (Reqb x dem_nodata) eqn:Hnd; simpl in Hstart.
  - apply Reqb_true in Hnd.
    now apply sum_rasters_fold_nodata.
  - apply Reqb_false in Hnd.
    rewrite (sum_rasters_fold Hall start Hlen Hstart Hnd).
    f_equal. ring.
Qed.

End SumValuationRasters.

Section CountVisibleStructures.

Variable dem_nodata : R.
Variable dem : list R.
Variable i : nat.
Variable x : R.
Hypothesis Hx : nth_error dem i = Some x.

Let count_step (visibility_sum : list R) (band : list R * R) : list R :=
  let '(visibility_matrix, weight) := band in
  let visible_mask :=
    Np.mask_and (map (fun v => Reqb v 1) visibility_matrix)
                (map (fun v => Rneb v dem_nodata) dem) in
  Np.add_at visibility_sum visible_mask
    (map (fun v => v * weight)%R (Np.select visibility_matrix visible_mask)).

Let visible_at (band : list R * R) : bool := Reqb (nth i (fst band) 0%R) 1.

Lemma length_count_step (visibility_sum : list R) (band : list R * R) :
  length (count_step visibility_sum band) = length visibility_sum.
Proof.
  destruct band as [vm w]. unfold count_step, Np.add_at.
  now rewrite length_assign.
Qed.

Lemma count_step_pixel (visibility_sum : list R) (band : list R * R) s :
  length visibility_sum = length dem ->
  length (fst band) = length dem ->
  nth_error visibility_sum i = Some s ->
  nth_error (count_step visibility_sum band) i =
  Some (if visible_at band && Rneb x dem_nodata then (s + snd band)%R
        else s).
Proof.
  destruct band as [vm w]. simpl. intros Hlen Hvm Hs.
  pose proof (@masked_add_pixel dem i x (fun v => Rneb v dem_nodata) Hx
                (fun v => Reqb v 1) (fun v => v * w)%R
                visibility_sum vm s Hlen Hvm Hs) as Hpix.
  simpl in Hpix. unfold count_step. rewrite Hpix.
  unfold visible_at. simpl.
  destruct (Reqb (nth i vm 0%R) 1) eqn:Hone; simpl; auto.
  apply Reqb_true in Hone. rewrite Hone.
  destruct (Rneb x dem_nodata); auto. f_equal. ring.
Qed.

Lemma count_fold (bands : list (list R * R)) :
  Forall (fun band => length (fst band) = length dem) bands ->
  forall (visibility_sum : list R) (s : R),
    length visibility_sum = length dem ->
    nth_error visibility_sum i = Some s ->
    nth_error (fold_left count_step bands visibility_sum) i =
    Some (if Rneb x dem_nodata
          then (s + Rsum (map snd (filter visible_at bands)))%R
          else s).
Proof.
  induction 1 as [| band rest Hband _ IH]; intros visibility_sum s Hlen Hs.
  - simpl. rewrite Hs. destruct (Rneb x dem_nodata); f_equal. ring.
  - simpl fold_left.
    rewrite (IH _ _ (eq_trans (length_count_step _ _) Hlen)
               (@count_step_pixel _ band _ Hlen Hband Hs)).
    simpl. destruct (Rneb x dem_nodata), (visible_at band); simpl;
      f_equal; ring.
Qed.

(** The pixel-wise reading of the loop body of
    [_count_visible_structures]. *)
Lemma count_visible_block_pixel (weights : list R)
  (visibility_matrices : list (list R)) :
  Forall (fun vm => length vm = length dem) visibility_matrices ->
  nth_error
    (count_visible_block dem_nodata weights dem visibility_matrices) i =
  Some (if Reqb x dem_nodata then target_nodata
        else Rsum (map snd
                     (filter (fun band => Reqb (nth i (fst band) 0%R) 1)
                             (combine visibility_matrices weights)))).
Proof.
  intros Hall.
  assert (Hi : (i < length dem)%nat)
    by (apply nth_error_Some; congruence).
  apply Nat.ltb_lt in Hi.
  unfold count_visible_block.
  set (start := Np.assign_scalar _ _ _).
  assert (Hlen : length start = length dem)
    by (unfold start; now rewrite length_assign_scalar, length_full).
  assert (Hstart : nth_error start i =
                   Some (if Rneb x dem_nodata then 0%R else target_nodata)).
  { unfold start.
    rewrite nth_error_assign_scalar
      by now rewrite length_full, length_mask_not, length_map.
    rewrite nth_error_mask_not, nth_error_map, Hx, nth_error_full, Hi.
    simpl. now destruct (Rneb x dem_nodata). }
  assert (Hbands : Forall (fun band => length (fst band) = length dem)
                          (combine visibility_matrices weights)).
  { apply Forall_forall. intros [vm w] Hin. simpl.
    apply in_combine_l in Hin.
    now apply (proj1 (Forall_forall _ _) Hall). }
  pose proof (count_fold Hbands start Hlen Hstart) as Hfold.
  unfold count_step in Hfold.
  match goal with
  | |- nth_error ?L i = _ =>
      match type of Hfold with
      | nth_error ?L' i = _ => change L with L'
      end
  end.
  rewrite Hfold. unfold Rneb, visible_at.
  destruct (Reqb x dem_nodata); simpl; f_equal. ring.
Qed.

End CountVisibleStructures.

(** C5.  Every pixel of every block of the clipped DEM: where the DEM is
    no-data the weighted count is the aggregator's own no-data value -1,
    which is not 0; elsewhere it is the sum of the weights of exactly
    those viewpoints whose visibility raster holds 1 at the pixel, so it
    is 0 when no visibility raster holds 1 there (a 0 or a no-data value
    counts as not visible), and 0 when there is no viewpoint at all. *)
Theorem count_visible_structures_pixel
  (dem_nodata : R) (weights : list R)
  (stacks : list (list R * list (list R))) (k : nat)
  (dem_matrix : list R) (visibility_matrices : list (list R))
  (i : nat) (x : R) :
  nth_error stacks k = Some (dem_matrix, visibility_matrices) ->
  Forall (fun vm => length vm = length dem_matrix) visibility_matrices ->
  nth_error dem_matrix i = Some x ->
  exists out_block,
    nth_error (_count_visible_structures dem_nodata weights stacks) k =
    Some out_block /\
    (x = dem_nodata ->
     nth_error out_block i = Some target_nodata /\
     target_nodata = (-1)%R /\ target_nodata <> 0%R) /\
    (x <> dem_nodata ->
     nth_error out_block i =
     Some (Rsum (map snd
                   (filter (fun band => Reqb (nth i (fst band) 0%R) 1)
                           (combine visibility_matrices weights))))) /\
    (x <> dem_nodata ->
     Forall (fun vm => nth i vm 0%R <> 1%R) visibility_matrices ->
     nth_error out_block i = Some 0%R) /\
    (x <> dem_nodata -> visibility_matrices = [] ->
     nth_error out_block i = Some 0%R).
Proof.
  intros Hk Hall Hx.
  exists (count_visible_block dem_nodata weights dem_matrix
            visibility_matrices).
  split.
  { unfold _count_visible_structures. now rewrite nth_error_map, Hk. }
  rewrite (@count_visible_block_pixel dem_nodata dem_matrix i x Hx weights
             visibility_matrices Hall).
  repeat split.
  - subst x. now rewrite Reqb_refl.
  - unfold target_nodata. lra.
  - intros Hvalid. apply Reqb_false in Hvalid. now rewrite Hvalid.
  - intros Hvalid Hnone. apply Reqb_false in Hvalid. rewrite Hvalid.
    f_equal.
    replace (filter _ (combine visibility_matrices weights))
      with (@nil (list R * R)); [ reflexivity | ].
    symmetry. clear Hall Hk.
    revert weights.
    induction Hnone as [| vm rest Hvm _ IH]; intros [| w weights];
      simpl; auto.
    apply Reqb_false in Hvm. rewrite Hvm. apply IH.
  - intros Hvalid ->. apply Reqb_false in Hvalid. now rewrite Hvalid.
Qed.

(** Two viewpoints of weights 1 and 3, both visible at the first pixel
    of a block whose second pixel is no-data. *)
Lemma count_visible_structures_pixel_witness :
  exists out_block,
    nth_error
      (_count_visible_structures (-1) [1; 3]%R
         [([100; -1]%R, [[1; 0]%R; [1; 255]%R])]) 0 = Some out_block /\
    nth_error out_block 0 = Some 4%R.
Proof.
  destruct (@count_visible_structures_pixel (-1) [1; 3]%R
              [([100; -1]%R, [[1; 0]%R; [1; 255]%R])] 0
              [100; -1]%R [[1; 0]%R; [1; 255]%R] 0 100%R eq_refl)
    as [out_block [Hblock [_ [Hsum _]]]].
  - repeat constructor.
  - reflexivity.
  - exists out_block. split; [ exact Hblock | ].
    rewrite Hsum by lra. simpl. Rcompare. simpl. f_equal. lra.
Defined.

(** C6.  Every pixel of every block of the DEM: where the DEM is no-data
    the sum is [_VALUATION_NODATA]; elsewhere it is the sum of the values
    the valuation rasters hold at the pixel, those equal to
    [_VALUATION_NODATA] left out wherever they stand in the list, which
    is 0 when there is no valuation raster. *)
Theorem sum_valuation_rasters_pixel
  (dem_nodata : R) (stacks : list (list R * list (list R))) (k : nat)
  (dem : list R) (valuation_rasters : list (list R)) (i : nat) (x : R) :
  nth_error stacks k = Some (dem, valuation_rasters) ->
  Forall (fun vm => length vm = length dem) valuation_rasters ->
  nth_error dem i = Some x ->
  exists out_block,
    nth_error (_sum_valuation_rasters dem_nodata stacks) k =
    Some out_block /\
    (x = dem_nodata -> nth_error out_block i = Some _VALUATION_NODATA) /\
    (x <> dem_nodata ->
     nth_error out_block i =
     Some (Rsum (filter (fun y => Rneb y _VALUATION_NODATA)
                        (values_at i valuation_rasters)))) /\
    (x <> dem_nodata -> valuation_rasters = [] ->
     nth_error out_block i = Some 0%R).
Proof.
  intros Hk Hall Hx.
  exists (_sum_rasters dem_nodata dem valuation_rasters).
  split.
  { unfold _sum_valuation_rasters. now rewrite nth_error_map, Hk. }
  rewrite (@_sum_rasters_pixel dem_nodata dem i x Hx valuation_rasters Hall).
  repeat split.
  - intros ->. now rewrite Reqb_refl.
  - intros Hvalid. apply Reqb_false in Hvalid. now rewrite Hvalid.
  - intros Hvalid ->. apply Reqb_false in Hvalid. now rewrite Hvalid.
Qed.

(** Three valuation rasters over a block whose second pixel is no-data;
    at the first pixel the second raster holds the no-data value. *)
Lemma sum_valuation_rasters_pixel_witness :
  exists out_block,
    nth_error
      (_sum_valuation_rasters (-1)
         [([100; -1]%R,
           [[2; -99999]%R; [-99999; 5]%R; [3; 1]%R])]) 0 = Some out_block /\
    nth_error out_block 0 = Some 5%R.
Proof.
  destruct (@sum_valuation_rasters_pixel (-1)
              [([100; -1]%R, [[2; -99999]%R; [-99999; 5]%R; [3; 1]%R])] 0
              [100; -1]%R [[2; -99999]%R; [-99999; 5]%R; [3; 1]%R]
              0 100%R eq_refl)
    as [out_block [Hblock [_ [Hsum _]]]].
  - repeat constructor.
  - reflexivity.
  - exists out_block. split; [ exact Hblock | ].
    rewrite Hsum by lra. unfold _VALUATION_NODATA. simpl. Rcompare.
    simpl. f_equal. lra.
Defined.

(** ** Sorted runs and their merge *)

Lemma insert_sorted_permutation (x : R) (l : list R) :
  Permutation (Np.insert_sorted x l) (x :: l).
Proof.
  induction l as [| y l IH]; simpl; auto.
  destruct (Rleb x y); auto.
  rewrite IH. apply perm_swap.
Qed.

Lemma sort_permutation (l : list R) : Permutation (Np.sort l) l.
Proof.
  induction l as [| x l IH]; simpl; auto.
  rewrite insert_sorted_permutation. now constructor.
Qed.

Lemma length_sort (l : list R) : length (Np.sort l) = length l.
Proof. apply Permutation_length, sort_permutation. Qed.

Lemma insert_sorted_ascending (x : R) (l : list R) :
  StronglySorted Rle l -> StronglySorted Rle (Np.insert_sorted x l).
Proof.
  induction 1 as [| y l Hsorted IH Hy]; simpl.
  - repeat constructor.
  - destruct (Rleb x y) eqn:Hxy.
    + apply Rleb_true in Hxy.
      constructor; [ now constructor | ].
      constructor; auto.
      eapply Forall_impl; [ | exact Hy ]. intros z Hz. simpl in Hz. lra.
    + apply Rleb_false in Hxy.
      constructor; auto.
      eapply Permutation_Forall;
        [ symmetry; apply insert_sorted_permutation | ].
      constructor; auto. lra.
Qed.

Lemma sort_ascending (l : list R) : StronglySorted Rle (Np.sort l).
Proof.
  induction l as [| x l IH]; simpl.
  - constructor.
  - now apply insert_sorted_ascending.
Qed.

(** An ascending arrangement of a population is unique. *)
Lemma ascending_permutation_unique (l1 l2 : list R) :
  StronglySorted Rle l1 -> StronglySorted Rle l2 ->
  Permutation l1 l2 -> l1 = l2.
Proof.
  intros H1. revert l2.
  induction H1 as [| x l1 Hs1 IH Hx]; intros l2 H2 Hperm.
  - now apply Permutation_nil in Hperm.
  - destruct H2 as [| y l2 Hs2 Hy].
    + symmetry in Hperm. now apply Permutation_nil in Hperm.
    + assert (Hxy : x = y).
      { assert (Hin1 : In x (y :: l2))
          by (eapply Permutation_in; [ exact Hperm | now left ]).
        assert (Hin2 : In y (x :: l1))
          by (eapply Permutation_in;
              [ symmetry; exact Hperm | now left ]).
        destruct Hin1 as [-> | Hin1]; auto.
        destruct Hin2 as [-> | Hin2]; auto.
        apply (proj1 (Forall_forall _ _) Hy) in Hin1.
        apply (proj1 (Forall_forall _ _) Hx) in Hin2.
        simpl in *. lra. }
      subst y. f_equal. apply IH; auto.
      now apply Permutation_cons_inv in Hperm.
Qed.

Lemma heap_pop_none (runs : list (list R)) :
  heap_pop runs = None -> concat runs = [].
Proof.
  induction runs as [| [| x xs] rest IH]; simpl; auto.
  - destruct (heap_pop rest) as [[v rest'] |]; [ discriminate | auto ].
  - destruct (heap_pop rest) as [[y rest'] |]; [ | discriminate ].
    destruct (Rleb x y); discriminate.
Qed.

Lemma heap_pop_permutation (runs : list (list R)) v runs' :
  heap_pop runs = Some (v, runs') ->
  Permutation (concat runs) (v :: concat runs').
Proof.
  revert v runs'.
  induction runs as [| [| x xs] rest IH]; intros v runs'; simpl.
  - discriminate.
  - destruct (heap_pop rest) as [[y rest'] |]; [ | discriminate ].
    intros [= <- <-]. simpl. now apply IH.
  - destruct (heap_pop rest) as [[y rest'] |] eqn:Hrest.
    + destruct (Rleb x y); intros [= <- <-]; simpl; auto.
      rewrite (IH _ _ eq_refl).
      change (x :: xs ++ y :: concat rest')
        with ((x :: xs) ++ y :: concat rest').
      symmetry. apply (Permutation_middle (x :: xs) (concat rest') y).
    + intros [= <- <-]. reflexivity.
Qed.

Lemma heap_pop_runs_ascending (runs : list (list R)) v runs' :
  Forall (StronglySorted Rle) runs ->
  heap_pop runs = Some (v, runs') ->
  Forall (StronglySorted Rle) runs'.
Proof.
  intros Hall. revert v runs'.
  induction Hall as [| run rest Hrun Hrest IH]; intros v runs'; simpl.
  - discriminate.
  - destruct run as [| x xs].
    + destruct (heap_pop rest) as [[y rest'] |]; [ | discriminate ].
      intros [= <- <-]. constructor; eauto.
    + apply StronglySorted_inv in Hrun as Hxs. destruct Hxs as [Hxs _].
      destruct (heap_pop rest) as [[y rest'] |].
      * destruct (Rleb x y); intros [= <- <-]; constructor; eauto.
      * intros [= <- <-]. constructor; auto.
Qed.

(** What [heap_pop] returns is the least of all the values held. *)
Lemma heap_pop_least (runs : list (list R)) v runs' :
  Forall (StronglySorted Rle) runs ->
  heap_pop runs = Some (v, runs') ->
  Forall (Rle v) (concat runs).
Proof.
  intros Hall. revert v runs'.
  induction Hall as [| run rest Hrun Hrest IH]; intros v runs'; simpl.
  - discriminate.
  - destruct run as [| x xs].
    + destruct (heap_pop rest) as [[y rest'] |]; [ | discriminate ].
      intros [= <- <-]. simpl. eauto.
    + apply StronglySorted_inv in Hrun as [_ Hx].
      destruct (heap_pop rest) as [[y rest'] |] eqn:Hpop.
      * specialize (IH _ _ eq_refl).
        destruct (Rleb x y) eqn:Hxy; intros [= <- <-].
        -- apply Rleb_true in Hxy. simpl. constructor; [ lra | ].
           apply Forall_app. split; auto.
           eapply Forall_impl; [ | exact IH ]. intros z Hz. simpl in Hz. lra.
        -- apply Rleb_false in Hxy. simpl. constructor; [ lra | ].
           apply Forall_app. split; auto.
           eapply Forall_impl; [ | exact Hx ]. intros z Hz. simpl in Hz. lra.
      * intros [= <- <-]. apply heap_pop_none in Hpop. rewrite Hpop.
        simpl. rewrite app_nil_r. constructor; [ lra | auto ].
Qed.

Lemma heapq_merge_fuel_spec (fuel : nat) :
  forall runs : list (list R),
    length (concat runs) = fuel ->
    Forall (StronglySorted Rle) runs ->
    Permutation (heapq_merge_fuel fuel runs) (concat runs) /\
    StronglySorted Rle (heapq_merge_fuel fuel runs).
Proof.
  induction fuel as [| fuel IH]; intros runs Hlen Hall; simpl.
  - apply length_zero_iff_nil in Hlen. rewrite Hlen.
    split; constructor.
  - destruct (heap_pop runs) as [[v runs'] |] eqn:Hpop.
    + pose proof (heap_pop_permutation _ Hpop) as Hperm.
      pose proof (heap_pop_least Hall Hpop) as Hleast.
      pose proof (heap_pop_runs_ascending Hall Hpop) as Hall'.
      assert (Hlen' : length (concat runs') = fuel).
      { apply Permutation_length in Hperm. simpl in Hperm. lia. }
      destruct (IH runs' Hlen' Hall') as [IHperm IHsorted].
      split.
      * rewrite Hperm. now constructor.
      * constructor; auto.
        eapply Permutation_Forall; [ symmetry; exact IHperm | ].
        eapply Permutation_Forall in Hleast; [ | exact Hperm ].
        now inversion Hleast.
    + apply heap_pop_none in Hpop. rewrite Hpop in Hlen. discriminate.
Qed.

(** [heapq.merge] of ascending runs yields every value held by the
    runs, in ascending order. *)
Lemma heapq_merge_sorts (runs : list (list R)) :
  Forall (StronglySorted Rle) runs ->
  heapq_merge runs = Np.sort (concat runs).
Proof.
  intros Hall.
  destruct (@heapq_merge_fuel_spec _ runs eq_refl Hall) as [Hperm Hsorted].
  apply ascending_permutation_unique; auto.
  - apply sort_ascending.
  - unfold heapq_merge. rewrite Hperm. symmetry. apply sort_permutation.
Qed.

(** ** Percentile breakpoints *)

Lemma select_two_masks (p q : R -> bool) (block : list R) :
  Np.select block (Np.mask_and (map p block) (map q block)) =
  filter (fun v => p v && q v) block.
Proof.
  unfold Np.mask_and.
  induction block as [| v block IH]; simpl; auto.
  destruct (p v && q v); now rewrite IH.
Qed.

Section SpillRuns.

Variable raster_nodata : R.

Let eligible (v : R) : bool := Rneb v raster_nodata && Rneb v 0.

Lemma spill_block_invariant (st : spill_state) (population block : list R) :
  spill_invariant st population ->
  spill_invariant (spill_block raster_nodata st block)
                  (population ++ filter eligible block).
Proof.
  intros (Hn & Hsorted & Hperm). unfold spill_block.
  rewrite select_two_masks. fold eligible.
  destruct (length (filter eligible block) =? 0)%nat eqn:Hempty.
  - apply Nat.eqb_eq, length_zero_iff_nil in Hempty. rewrite Hempty.
    rewrite app_nil_r. now repeat split.
  - repeat split; simpl.
    + rewrite length_app, length_sort. lia.
    + apply Forall_app. split; auto.
      constructor; auto. apply sort_ascending.
    + rewrite concat_app. simpl. rewrite app_nil_r.
      apply Permutation_app; auto. apply sort_permutation.
Qed.

Lemma spill_fold_invariant (blocks : list (list R)) :
  forall (st : spill_state) (population : list R),
    spill_invariant st population ->
    spill_invariant (fold_left (spill_block raster_nodata) blocks st)
                    (population ++ filter eligible (concat blocks)).
Proof.
  induction blocks as [| block blocks IH]; intros st population Hinv; simpl.
  - now rewrite app_nil_r.
  - rewrite filter_app, app_assoc.
    apply IH. now apply spill_block_invariant.
Qed.

Lemma spill_runs_invariant (blocks : list (list R)) :
  spill_invariant (spill_runs raster_nodata blocks)
                  (eligible_population raster_nodata blocks).
Proof.
  apply (@spill_fold_invariant blocks
           {| n_elements := 0; iterators := [] |} []).
  repeat split; simpl; auto.
Qed.

(** The merge of the spilled runs is the whole eligible population in
    ascending order, however the raster is cut into blocks. *)
Lemma merged_runs_are_sorted_population (blocks : list (list R)) :
  heapq_merge (iterators (spill_runs raster_nodata blocks)) =
  Np.sort (eligible_population raster_nodata blocks) /\
  n_elements (spill_runs raster_nodata blocks) =
  length (Np.sort (eligible_population raster_nodata blocks)).
Proof.
  destruct (spill_runs_invariant blocks) as (Hn & Hsorted & Hperm).
  split.
  - rewrite heapq_merge_sorts by assumption.
    apply ascending_permutation_unique;
      [ apply sort_ascending | apply sort_ascending | ].
    now rewrite !sort_permutation.
  - now rewrite length_sort.
Qed.

End SpillRuns.

(** *** The rank positions *)

Lemma rank_ordinal_fraction (N : nat) (a : Z) (b : positive) :
  rank_ordinal N (a # b) = (- ((- (a * Z.of_nat N)) / Z.pos b))%Z.
Proof.
  unfold rank_ordinal, Qceiling, Qfloor, Qopp, Qmult, inject_Z.
  cbn [Qnum Qden]. now rewrite Pos.mul_1_r.
Qed.

Lemma rank_ordinals_values (N : nat) :
  map (rank_ordinal N) quantiles =
  [0; (Z.of_nat N + 3) / 4; (Z.of_nat N + 1) / 2;
   (3 * Z.of_nat N + 3) / 4]%Z.
Proof.
  unfold quantiles. simpl map. rewrite !rank_ordinal_fraction.
  generalize (Z.of_nat N). intros z.
  repeat f_equal; Z.div_mod_to_equations; lia.
Qed.

(** *** The loop over the merged values *)

Lemma percentile_loop_picks (values : list R) :
  forall (current_index next : Z) (rank_ordinals : list Z) (acc : list R),
    (current_index <= next)%Z ->
    StronglySorted Z.lt (next :: rank_ordinals) ->
    Forall (fun r => r < current_index + Z.of_nat (length values))%Z
           (next :: rank_ordinals) ->
    map Some (percentile_loop values current_index next rank_ordinals acc) =
    map Some acc ++
    map (fun r => nth_error values (Z.to_nat (r - current_index)))
        (next :: rank_ordinals).
Proof.
  induction values as [| value values IH];
    intros current_index next rank_ordinals acc Hle Hsorted Hbound.
  - inversion Hbound as [| ? ? Hnext _]. simpl in Hnext. lia.
  - assert (Hshift : forall r, (current_index < r)%Z ->
              nth_error (value :: values) (Z.to_nat (r - current_index)) =
              nth_error values (Z.to_nat (r - (current_index + 1)))).
    { intros r Hr.
      replace (Z.to_nat (r - current_index))
        with (S (Z.to_nat (r - (current_index + 1)))) by lia.
      reflexivity. }
    apply StronglySorted_inv in Hsorted as [Hsorted Hnext].
    inversion Hbound as [| ? ? Hb Hbounds]; subst.
    simpl percentile_loop.
    destruct (current_index =? next)%Z eqn:Heq.
    + apply Z.eqb_eq in Heq. subst next.
      destruct rank_ordinals as [| next' rank_ordinals'].
      * simpl. rewrite Z.sub_diag. simpl. now rewrite map_app.
      * inversion Hnext as [| ? ? Hlt Hrest]; subst.
        rewrite IH; auto.
        -- rewrite map_app, <- app_assoc. f_equal.
           cbn [map app]. rewrite Z.sub_diag. cbn [Z.to_nat nth_error].
           f_equal. rewrite Hshift by lia. f_equal.
           apply map_ext_in. intros r Hin.
           symmetry. apply Hshift.
           apply (proj1 (Forall_forall _ _) Hrest) in Hin. lia.
        -- lia.
        -- eapply Forall_impl; [ | exact Hbounds ].
           intros r Hr. simpl in Hr. cbn [length] in Hr. lia.
    + apply Z.eqb_neq in Heq.
      rewrite IH; auto.
      * f_equal. cbn [map]. rewrite Hshift by lia. f_equal.
        apply map_ext_in. intros r Hin.
        symmetry. apply Hshift.
        apply (proj1 (Forall_forall _ _) Hnext) in Hin. lia.
      * lia.
      * now constructor.
      * constructor.
        -- cbn [length] in Hb. lia.
        -- eapply Forall_impl; [ | exact Hbounds ].
           intros r Hr. simpl in Hr. cbn [length] in Hr. lia.
Qed.

(** With at least four values the four rank positions are distinct and
    inside the population: every quantile gets its breakpoint. *)
Lemma merged_percentiles_four_ranks (values : list R) :
  (4 <= length values)%nat ->
  map Some (merged_percentiles (length values) values) =
  map (fun q => nth_error values
                  (Z.to_nat (rank_ordinal (length values) q)))
      quantiles.
Proof.
  intros Hfour. unfold merged_percentiles.
  rewrite <- (map_map (rank_ordinal (length values))
                      (fun r => nth_error values (Z.to_nat r))).
  rewrite rank_ordinals_values.
  set (N := Z.of_nat (length values)).
  assert (HN : (4 <= N)%Z) by (unfold N; lia).
  rewrite percentile_loop_picks.
  - change (map Some (@nil R)) with (@nil (option R)). rewrite app_nil_l.
    apply map_ext. intros r. now rewrite Z.sub_0_r.
  - lia.
  - repeat constructor; Z.div_mod_to_equations; lia.
  - fold N. repeat constructor; Z.div_mod_to_equations; lia.
Qed.

(** With fewer than four values a rank position repeats or falls outside
    the population, and the loop records every value. *)
Lemma merged_percentiles_few_values (values : list R) :
  (length values < 4)%nat ->
  merged_percentiles (length values) values = values.
Proof.
  intros Hfew.
  destruct values as [| v0 [| v1 [| v2 [| v3 values]]]];
    try reflexivity.
  simpl in Hfew. lia.
Qed.

(** The breakpoints are those recorded from the whole eligible
    population in ascending order. *)
Lemma percentile_values_of_sorted_population (raster_nodata : R)
  (blocks : list (list R)) :
  percentile_values raster_nodata blocks =
  merged_percentiles
    (length (Np.sort (eligible_population raster_nodata blocks)))
    (Np.sort (eligible_population raster_nodata blocks)).
Proof.
  unfold percentile_values.
  destruct (merged_runs_are_sorted_population raster_nodata blocks)
    as [Hmerged Hcount].
  cbv zeta. now rewrite Hmerged, Hcount.
Qed.

Lemma percentile_values_four_ranks (raster_nodata : R)
  (blocks : list (list R)) :
  (4 <= length (eligible_population raster_nodata blocks))%nat ->
  map Some (percentile_values raster_nodata blocks) =
  breakpoints_in_memory raster_nodata blocks.
Proof.
  intros Hfour. rewrite percentile_values_of_sorted_population.
  unfold breakpoints_in_memory. cbv zeta.
  apply merged_percentiles_four_ranks. now rewrite length_sort.
Qed.

Lemma percentile_values_few_values (raster_nodata : R)
  (blocks : list (list R)) :
  (length (eligible_population raster_nodata blocks) < 4)%nat ->
  percentile_values raster_nodata blocks =
  Np.sort (eligible_population raster_nodata blocks).
Proof.
  intros Hfew. rewrite percentile_values_of_sorted_population.
  apply merged_percentiles_few_values. now rewrite length_sort.
Qed.

(** The first breakpoint is the least eligible value. *)
Lemma percentile_values_head (raster_nodata : R) (blocks : list (list R)) :
  (1 <= length (eligible_population raster_nodata blocks))%nat ->
  exists b,
    hd_error (percentile_values raster_nodata blocks) = Some b /\
    In b (eligible_population raster_nodata blocks) /\
    Forall (Rle b) (eligible_population raster_nodata blocks).
Proof.
  intros Hone.
  set (population := eligible_population raster_nodata blocks) in *.
  pose proof (sort_permutation population) as Hperm.
  pose proof (sort_ascending population) as Hsorted.
  pose proof (length_sort population) as Hlen.
  assert (Hhead : hd_error (percentile_values raster_nodata blocks) =
                  hd_error (Np.sort population)).
  { destruct (Nat.lt_ge_cases (length population) 4) as [Hfew | Hfour].
    - now rewrite percentile_values_few_values.
    - pose proof (percentile_values_four_ranks raster_nodata blocks Hfour)
        as Hpicks.
      unfold breakpoints_in_memory in Hpicks. cbv zeta in Hpicks.
      fold population in Hpicks.
      destruct (percentile_values raster_nodata blocks) as [| b rest];
        [ discriminate | ].
      injection Hpicks as Hb _.
      simpl. now destruct (Np.sort population). }
  destruct (Np.sort population) as [| b sorted] eqn:Hsort;
    [ simpl in Hlen; lia | ].
  exists b. split; [ exact Hhead | ]. split.
  - eapply Permutation_in; [ exact Hperm | now left ].
  - eapply Permutation_Forall; [ exact Hperm | ].
    apply StronglySorted_inv in Hsorted as [_ Hb].
    constructor; [ apply Rle_refl | exact Hb ].
Qed.

(** C3, as amended.  For every raster with at least four eligible
    (non-zero, non-no-data) pixels, however it is cut into blocks, the
    breakpoints recorded by the spill-and-merge algorithm are the values
    the whole population sorted in memory holds at the ranks
    [ceil(q * N)], one for each quantile; with fewer than four eligible
    pixels the algorithm records the whole sorted population instead;
    and whenever there is an eligible pixel the first breakpoint (rank 0)
    is the least eligible value. *)
Theorem tiled_breakpoints_match_in_memory_ranks
  (raster_nodata : R) (blocks : list (list R)) :
  ((4 <= length (eligible_population raster_nodata blocks))%nat ->
   map Some (percentile_values raster_nodata blocks) =
   breakpoints_in_memory raster_nodata blocks) /\
  ((length (eligible_population raster_nodata blocks) < 4)%nat ->
   percentile_values raster_nodata blocks =
   Np.sort (eligible_population raster_nodata blocks)) /\
  ((1 <= length (eligible_population raster_nodata blocks))%nat ->
   exists b,
     hd_error (percentile_values raster_nodata blocks) = Some b /\
     In b (eligible_population raster_nodata blocks) /\
     Forall (Rle b) (eligible_population raster_nodata blocks)).
Proof.
  split; [ | split ].
  - apply percentile_values_four_ranks.
  - apply percentile_values_few_values.
  - apply percentile_values_head.
Qed.

Lemma population_of_five :
  eligible_population (-99999) [[5; 0; 3]; [-99999; 1; 4; 2]]%R =
  [5; 3; 1; 4; 2]%R.
Proof. unfold eligible_population. Reval. reflexivity. Qed.

Lemma sorted_population_of_five :
  Np.sort [5; 3; 1; 4; 2]%R = [1; 2; 3; 4; 5]%R.
Proof. Reval. reflexivity. Qed.

(** Five eligible pixels in two blocks: ranks 0, 2, 3 and 4. *)
Lemma tiled_breakpoints_match_in_memory_ranks_witness :
  map Some (percentile_values (-99999) [[5; 0; 3]; [-99999; 1; 4; 2]]%R) =
  [Some 1; Some 3; Some 4; Some 5]%R.
Proof.
  rewrite (proj1 (tiled_breakpoints_match_in_memory_ranks (-99999)
                    [[5; 0; 3]; [-99999; 1; 4; 2]]%R)).
  - unfold breakpoints_in_memory.
    rewrite population_of_five, sorted_population_of_five. reflexivity.
  - rewrite population_of_five. simpl. lia.
Defined.

Lemma population_of_two :
  eligible_population (-99999) [[2; 0]; [-99999; 1]]%R = [2; 1]%R.
Proof. unfold eligible_population. Reval. reflexivity. Qed.

Lemma sorted_population_of_two : Np.sort [2; 1]%R = [1; 2]%R.
Proof. Reval. reflexivity. Qed.

(** C3, as stated, fails.  Two eligible pixels, one in each block: the
    rank positions are 0, 1, 1 and 2; the merge records the values at
    ranks 0 and 1 and nothing more, while picking from the sorted
    population yields the value at rank 1 twice and finds no rank 2. *)
Lemma tiled_breakpoints_differ_with_two_pixels :
  percentile_values (-99999) [[2; 0]; [-99999; 1]]%R = [1; 2]%R /\
  breakpoints_in_memory (-99999) [[2; 0]; [-99999; 1]]%R =
  [Some 1; Some 2; Some 2; None]%R /\
  map Some (percentile_values (-99999) [[2; 0]; [-99999; 1]]%R) <>
  breakpoints_in_memory (-99999) [[2; 0]; [-99999; 1]]%R.
Proof.
  assert (Hcode :
            percentile_values (-99999) [[2; 0]; [-99999; 1]]%R = [1; 2]%R).
  { rewrite percentile_values_few_values;
      rewrite population_of_two;
      [ apply sorted_population_of_two | simpl; lia ]. }
  assert (Hmemory :
            breakpoints_in_memory (-99999) [[2; 0]; [-99999; 1]]%R =
            [Some 1; Some 2; Some 2; None]%R).
  { unfold breakpoints_in_memory.
    rewrite population_of_two, sorted_population_of_two. reflexivity. }
  repeat split; auto.
  rewrite Hcode, Hmemory. discriminate.
Qed.

(** ** Classification *)

Lemma StronglySorted_app_l (l1 l2 : list R) :
  StronglySorted Rle (l1 ++ l2) -> StronglySorted Rle l1.
Proof.
  induction l1 as [| x l1 IH]; simpl; intros H.
  - constructor.
  - apply StronglySorted_inv in H as [Hs Hx].
    constructor; auto. now apply Forall_app in Hx.
Qed.

Lemma StronglySorted_skip (l1 l2 : list R) (x : R) :
  StronglySorted Rle (l1 ++ x :: l2) -> StronglySorted Rle (l1 ++ l2).
Proof.
  induction l1 as [| y l1 IH]; simpl; intros H.
  - now apply StronglySorted_inv in H.
  - apply StronglySorted_inv in H as [Hs Hy].
    constructor; auto.
    apply Forall_app in Hy as [Hy1 Hy2].
    apply Forall_app. split; auto. now inversion Hy2.
Qed.

(** The loop records a subsequence of the merged values. *)
Lemma percentile_loop_ascending (values : list R) :
  forall (current_index next : Z) (rank_ordinals : list Z) (acc : list R),
    StronglySorted Rle (acc ++ values) ->
    StronglySorted Rle
      (percentile_loop values current_index next rank_ordinals acc).
Proof.
  induction values as [| value values IH];
    intros current_index next rank_ordinals acc Hsorted; simpl.
  - now rewrite app_nil_r in Hsorted.
  - destruct (current_index =? next)%Z.
    + destruct rank_ordinals as [| next' rank_ordinals'].
      * apply StronglySorted_app_l with (l2 := values).
        now rewrite <- app_assoc.
      * apply IH. now rewrite <- app_assoc.
    + apply IH. now apply StronglySorted_skip in Hsorted.
Qed.

Lemma percentile_loop_length (values : list R) :
  forall (current_index next : Z) (rank_ordinals : list Z) (acc : list R),
    (length (percentile_loop values current_index next rank_ordinals acc)
     <= length acc + S (length rank_ordinals))%nat.
Proof.
  induction values as [| value values IH];
    intros current_index next rank_ordinals acc; simpl.
  - lia.
  - destruct (current_index =? next)%Z.
    + destruct rank_ordinals as [| next' rank_ordinals'].
      * rewrite length_app. simpl. lia.
      * etransitivity; [ apply IH | ]. rewrite length_app. simpl. lia.
    + apply IH.
Qed.

(** The breakpoints are ascending, and there are at most four. *)
Lemma percentile_values_ascending (raster_nodata : R)
  (blocks : list (list R)) :
  StronglySorted Rle (percentile_values raster_nodata blocks) /\
  (length (percentile_values raster_nodata blocks) <= 4)%nat.
Proof.
  rewrite percentile_values_of_sorted_population.
  unfold merged_percentiles. cbv zeta.
  rewrite rank_ordinals_values. split.
  - apply percentile_loop_ascending. apply sort_ascending.
  - etransitivity; [ apply percentile_loop_length | ]. simpl. lia.
Qed.

Lemma ascending_is_nondecreasing (bins : list R) :
  StronglySorted Rle bins -> Np.nondecreasing bins = true.
Proof.
  induction 1 as [| x bins Hsorted IH Hx]; auto.
  destruct bins as [| y bins]; auto.
  change (Rleb x y && Np.nondecreasing (y :: bins) = true).
  rewrite IH, andb_true_r. apply Rleb_true.
  now inversion Hx.
Qed.

(** On ascending bins the search from the right counts the breakpoints
    that do not exceed the value. *)
Lemma searchsorted_right_counts (bins : list R) (v : R) :
  StronglySorted Rle bins ->
  Np.searchsorted_right bins v = breakpoints_le bins v.
Proof.
  unfold breakpoints_le.
  induction 1 as [| x bins Hsorted IH Hx]; simpl; auto.
  destruct (Rleb x v) eqn:Hxv; simpl.
  - now rewrite IH.
  - apply Rleb_false in Hxv.
    replace (filter (fun b => Rleb b v) bins) with (@nil R);
      [ reflexivity | ].
    symmetry. clear IH Hsorted.
    induction Hx as [| y bins Hy _ IH]; simpl; auto.
    replace (Rleb y v) with false; auto.
    symmetry. apply Rleb_false. lra.
Qed.

Lemma _map_percentiles_pointwise (raster_nodata : R) (bins block : list R) :
  Np.nondecreasing bins = true ->
  _map_percentiles raster_nodata bins block =
  Some (map (pixel_bucket raster_nodata bins) block).
Proof.
  intros Hbins. unfold _map_percentiles, Np.digitize. rewrite Hbins.
  f_equal. unfold Np.mask_and, Np.mask_not, Rneb.
  induction block as [| v block IH]; simpl; auto.
  unfold pixel_bucket at 1.
  destruct (Reqb v raster_nodata), (Reqb v 0); simpl; now rewrite IH.
Qed.

Lemma raster_calculator_byte_total (local_op : list R -> option (list Z))
  (f : list R -> list Z) (blocks : list (list R)) :
  (forall block, local_op block = Some (f block)) ->
  raster_calculator_byte local_op blocks =
  Some (map (fun block => map band_byte (f block)) blocks).
Proof.
  intros Hop. induction blocks as [| block blocks IH]; simpl; auto.
  now rewrite Hop, IH.
Qed.

Lemma band_byte_nodata : band_byte (int8 _BYTE_NODATA) = 255%Z.
Proof. reflexivity. Qed.

Lemma band_byte_small (k : nat) :
  (k < 128)%nat -> band_byte (int8 (Z.of_nat k)) = Z.of_nat k.
Proof.
  intros Hk. unfold band_byte, int8.
  rewrite (Z.mod_small (Z.of_nat k + 128)) by lia.
  rewrite Z.mod_small; lia.
Qed.

Lemma int8_small (k : nat) :
  (k < 128)%nat -> int8 (Z.of_nat k) = Z.of_nat k.
Proof.
  intros Hk. unfold int8. rewrite Z.mod_small; lia.
Qed.

Lemma breakpoints_le_bound (bins : list R) (v : R) :
  (breakpoints_le bins v <= length bins)%nat.
Proof. apply filter_length_le. Qed.

(** The classified raster, pixel by pixel. *)
Lemma visual_quality_raster_pixels (raster_nodata : R)
  (blocks : list (list R)) :
  visual_quality_raster raster_nodata blocks =
  Some (map (fun block =>
               map (fun v =>
                      band_byte
                        (pixel_bucket raster_nodata
                           (percentile_values raster_nodata blocks) v))
                   block)
            blocks).
Proof.
  unfold visual_quality_raster. cbv zeta.
  destruct (percentile_values_ascending raster_nodata blocks)
    as [Hsorted _].
  rewrite (@raster_calculator_byte_total _
             (map (pixel_bucket raster_nodata
                     (percentile_values raster_nodata blocks)))).
  - f_equal. apply map_ext. intros block. now rewrite map_map.
  - intros block. apply _map_percentiles_pointwise.
    now apply ascending_is_nondecreasing.
Qed.

(** C4.  The classified raster exists for every source raster, and for
    every pixel of it: a no-data pixel is written as the classifier's own
    no-data value 255 (which is not the no-data value of the valuation
    rasters); a pixel that is not no-data and equals 0 is written as 0;
    any other pixel is written as the number of breakpoints less than or
    equal to its value, the breakpoints being in ascending order. *)
Theorem classification_of_every_pixel
  (raster_nodata : R) (blocks : list (list R)) :
  exists written,
    visual_quality_raster raster_nodata blocks = Some written /\
    StronglySorted Rle (percentile_values raster_nodata blocks) /\
    IZR _BYTE_NODATA <> _VALUATION_NODATA /\
    forall (k : nat) (block : list R) (i : nat) (v : R),
      nth_error blocks k = Some block ->
      nth_error block i = Some v ->
      exists out_block,
        nth_error written k = Some out_block /\
        (v = raster_nodata -> nth_error out_block i = Some _BYTE_NODATA) /\
        (v <> raster_nodata -> v = 0%R ->
         nth_error out_block i = Some 0%Z) /\
        (v <> raster_nodata -> v <> 0%R ->
         nth_error out_block i =
         Some (Z.of_nat
                 (breakpoints_le (percentile_values raster_nodata blocks)
                                 v))).
Proof.
  destruct (percentile_values_ascending raster_nodata blocks)
    as [Hsorted Hfour].
  eexists. split; [ apply visual_quality_raster_pixels | ].
  split; [ exact Hsorted | ].
  split; [ unfold _BYTE_NODATA, _VALUATION_NODATA; lra | ].
  intros k block i v Hblock Hv.
  eexists. split; [ now rewrite nth_error_map, Hblock | ].
  rewrite nth_error_map, Hv. simpl. unfold pixel_bucket.
  repeat split.
  - intros ->. now rewrite Reqb_refl.
  - intros Hvalid ->. apply Reqb_false in Hvalid.
    now rewrite Hvalid, Reqb_refl.
  - intros Hvalid Hnonzero.
    apply Reqb_false in Hvalid. apply Reqb_false in Hnonzero.
    rewrite Hvalid, Hnonzero, searchsorted_right_counts by assumption.
    f_equal. apply band_byte_small.
    pose proof (breakpoints_le_bound
                  (percentile_values raster_nodata blocks) v).
    lia.
Qed.

(** The raster of five eligible pixels in two blocks: breakpoints 1, 3,
    4 and 5, and the classes written for each pixel. *)
Lemma visual_quality_raster_of_five :
  percentile_values (-99999) [[5; 0; 3]; [-99999; 1; 4; 2]]%R =
  [1; 3; 4; 5]%R /\
  visual_quality_raster (-99999) [[5; 0; 3]; [-99999; 1; 4; 2]]%R =
  Some [[4; 0; 2]; [255; 1; 3; 1]]%Z.
Proof.
  assert (Hbins : percentile_values (-99999)
                    [[5; 0; 3]; [-99999; 1; 4; 2]]%R = [1; 3; 4; 5]%R).
  { rewrite percentile_values_of_sorted_population.
    rewrite population_of_five, sorted_population_of_five. reflexivity. }
  split; [ exact Hbins | ].
  rewrite visual_quality_raster_pixels, Hbins.
  unfold pixel_bucket. Reval. reflexivity.
Qed.

(** ** Reclassifying a bucket *)

Lemma _map_percentiles_one_pixel (raster_nodata : R) (bins : list R) (v : R) :
  StronglySorted Rle bins ->
  _map_percentiles raster_nodata bins [v] =
  Some [pixel_bucket raster_nodata bins v].
Proof.
  intros Hsorted. rewrite _map_percentiles_pointwise; auto.
  now apply ascending_is_nondecreasing.
Qed.

Lemma pixel_bucket_of_value (raster_nodata : R) (bins : list R) (v : R) :
  StronglySorted Rle bins -> (length bins < 128)%nat ->
  v <> raster_nodata -> v <> 0%R ->
  pixel_bucket raster_nodata bins v = Z.of_nat (breakpoints_le bins v).
Proof.
  intros Hsorted Hshort Hvalid Hnonzero. unfold pixel_bucket.
  apply Reqb_false in Hvalid. apply Reqb_false in Hnonzero.
  rewrite Hvalid, Hnonzero, searchsorted_right_counts by assumption.
  apply int8_small. pose proof (breakpoints_le_bound bins v). lia.
Qed.

(** C8, as amended.  For ascending breakpoints (fewer than 128 of them)
    and a value that is neither 0 nor no-data, the value's bucket [b] is
    the number of breakpoints that do not exceed it; classifying that
    bucket again with the same breakpoints (the bucket not being the
    no-data value) yields 0 for bucket 0 and otherwise the number of
    breakpoints that do not exceed [b], which is the same bucket exactly
    when [b] is 0 or [b] breakpoints do not exceed [b]. *)
Theorem reclassified_bucket
  (raster_nodata : R) (bins : list R) (v : R) :
  StronglySorted Rle bins -> (length bins < 128)%nat ->
  v <> 0%R -> v <> raster_nodata ->
  IZR (Z.of_nat (breakpoints_le bins v)) <> raster_nodata ->
  _map_percentiles raster_nodata bins [v] =
  Some [Z.of_nat (breakpoints_le bins v)] /\
  _map_percentiles raster_nodata bins
    [IZR (Z.of_nat (breakpoints_le bins v))] =
  Some [Z.of_nat
          (if (breakpoints_le bins v =? 0)%nat then 0%nat
           else breakpoints_le bins
                  (IZR (Z.of_nat (breakpoints_le bins v))))] /\
  ((if (breakpoints_le bins v =? 0)%nat then 0%nat
    else breakpoints_le bins (IZR (Z.of_nat (breakpoints_le bins v)))) =
   breakpoints_le bins v <->
   breakpoints_le bins v = 0%nat \/
   breakpoints_le bins (IZR (Z.of_nat (breakpoints_le bins v))) =
   breakpoints_le bins v).
Proof.
  intros Hsorted Hshort Hnonzero Hvalid Hbucket.
  rewrite !_map_percentiles_one_pixel by assumption.
  rewrite pixel_bucket_of_value by assumption.
  set (b := breakpoints_le bins v) in *.
  repeat split.
  - destruct (Nat.eqb_spec b 0) as [Hb | Hb].
    + rewrite Hb in *. unfold pixel_bucket.
      apply Reqb_false in Hbucket. simpl in *.
      now rewrite Hbucket, Reqb_refl.
    + rewrite pixel_bucket_of_value; auto.
      apply not_0_IZR. lia.
  - destruct (Nat.eqb_spec b 0); auto.
  - destruct (Nat.eqb_spec b 0); intros [H | H]; congruence.
Qed.

Lemma breakpoints_le_unit_steps :
  breakpoints_le [1; 2; 3; 4]%R (5 / 2)%R = 2%nat /\
  breakpoints_le [1; 2; 3; 4]%R 2%R = 2%nat.
Proof. unfold breakpoints_le. split; Reval; reflexivity. Qed.

(** Breakpoints 1, 2, 3, 4 and the value 2.5: bucket 2, and bucket 2
    again. *)
Lemma reclassified_bucket_witness :
  _map_percentiles (-99999) [1; 2; 3; 4]%R [(5 / 2)%R] = Some [2%Z] /\
  _map_percentiles (-99999) [1; 2; 3; 4]%R [2%R] = Some [2%Z].
Proof.
  destruct breakpoints_le_unit_steps as [Hfirst Hsecond].
  destruct (@reclassified_bucket (-99999) [1; 2; 3; 4]%R (5 / 2)%R)
    as [Hbucket [Hagain _]].
  - repeat constructor; lra.
  - simpl. lia.
  - lra.
  - lra.
  - rewrite Hfirst. simpl. lra.
  - rewrite Hfirst in Hbucket, Hagain. simpl in Hbucket, Hagain.
    rewrite Hsecond in Hagain. split; assumption.
Defined.

(** C8, as stated, fails.  Breakpoints 10, 20, 30, 40 and the value 25:
    the bucket is 2, and bucket 2 classified again is 0, whether the
    no-data value is that of the valuation rasters or that of the
    classified raster. *)
Lemma classification_is_not_idempotent :
  _map_percentiles (-99999) [10; 20; 30; 40]%R [25%R] = Some [2%Z] /\
  _map_percentiles (-99999) [10; 20; 30; 40]%R [2%R] = Some [0%Z] /\
  _map_percentiles 255 [10; 20; 30; 40]%R [2%R] = Some [0%Z] /\
  2%Z <> 0%Z.
Proof.
  unfold _map_percentiles, Np.digitize.
  repeat split; Reval; try reflexivity. discriminate.
Qed.

(** ** Temporary directories *)

Lemma rmtree_removes (path : String.string) (ds : list String.string) :
  ~ In path (filter (fun d => negb (String.eqb path d)) ds).
Proof.
  intros Hin. apply filter_In in Hin as [_ Hneq].
  now rewrite String.eqb_refl in Hneq.
Qed.

(** When nothing raises before [shutil.rmtree] and the removal succeeds,
    [_clip_and_mask_dem] returns and its directory is gone. *)
Lemma clip_temp_dir_removed (h : clip_host) (working_dir : String.string)
  (w : world) :
  clip_get_vector_info h = Return tt ->
  clip_get_raster_info h = Return tt ->
  clip_warp_raster h = Return tt ->
  clip_new_raster_from_base h = Return tt ->
  clip_rasterize h = Return tt ->
  clip_raster_calculator h = Return tt ->
  clip_rmtree h = Return tt ->
  fst (_clip_and_mask_dem h working_dir w) = Return tt /\
  ~ In (clip_temp_dir h working_dir)
       (dirs (snd (_clip_and_mask_dem h working_dir w))).
Proof.
  intros Hv Hr Hw Hn Hz Hc Hrm.
  unfold _clip_and_mask_dem, bind, mkdtemp, logger, call,
    try_except_OSError, rmtree.
  rewrite Hv, Hr, Hw, Hn, Hz, Hc, Hrm. simpl.
  split; [ reflexivity | ].
  rewrite String.eqb_refl. simpl. apply rmtree_removes.
Qed.

(** The first call of [_clip_and_mask_dem] that raises, whichever of
    the six between [mkdtemp] and [shutil.rmtree] it is, ends the
    function with its exception and the directory in place. *)
Lemma clip_temp_dir_left_by_exception (h : clip_host)
  (working_dir : String.string) (w : world) (e : exn)
  (before after : list (result unit)) :
  [clip_get_vector_info h; clip_get_raster_info h; clip_warp_raster h;
   clip_new_raster_from_base h; clip_rasterize h;
   clip_raster_calculator h] = before ++ Raise e :: after ->
  Forall (fun outcome => outcome = Return tt) before ->
  fst (_clip_and_mask_dem h working_dir w) = Raise e /\
  In (clip_temp_dir h working_dir)
     (dirs (snd (_clip_and_mask_dem h working_dir w))).
Proof.
  intros Hcalls Hbefore.
  unfold _clip_and_mask_dem, clip_temp_dir, bind, mkdtemp, logger, call.
  destruct h as [suffix vector_info raster_info warp new_raster rasterize
                   calculator remove].
  cbn [clip_tmp_suffix clip_get_vector_info clip_get_raster_info
       clip_warp_raster clip_new_raster_from_base clip_rasterize
       clip_raster_calculator clip_rmtree] in *.
  do 6 (destruct before as [| outcome before];
        [ injection Hcalls as -> _;
          cbn [fst snd dirs]; split; [ reflexivity | now left ]
        | injection Hcalls as -> Hcalls;
          apply Forall_cons_iff in Hbefore;
          destruct Hbefore as [-> Hbefore] ]).
  now destruct before.
Qed.

(** A failed removal is logged, not raised. *)
Lemma clip_rmtree_failure_logged (h : clip_host)
  (working_dir : String.string) (w : world) :
  clip_get_vector_info h = Return tt ->
  clip_get_raster_info h = Return tt ->
  clip_warp_raster h = Return tt ->
  clip_new_raster_from_base h = Return tt ->
  clip_rasterize h = Return tt ->
  clip_raster_calculator h = Return tt ->
  clip_rmtree h = Raise OSError ->
  fst (_clip_and_mask_dem h working_dir w) = Return tt /\
  In (clip_temp_dir h working_dir)
     (dirs (snd (_clip_and_mask_dem h working_dir w))) /\
  hd_error (logged (snd (_clip_and_mask_dem h working_dir w))) =
  Some "Could not remove temp directory"%string.
Proof.
  intros Hv Hr Hw Hn Hz Hc Hrm.
  unfold _clip_and_mask_dem, bind, mkdtemp, logger, call,
    try_except_OSError, rmtree.
  rewrite Hv, Hr, Hw, Hn, Hz, Hc, Hrm. simpl.
  repeat split. now left.
Qed.

(** When nothing raises before [shutil.rmtree] and the removal succeeds,
    the directory of [_calculate_visual_quality] is gone, whether or not
    writing the classified raster raises afterwards. *)
Lemma quality_temp_dir_removed (h : quality_host) (raster_nodata : R)
  (blocks : list (list R)) (working_dir : String.string) (w : world) :
  quality_get_raster_info h = Return tt ->
  quality_spill h = Return tt ->
  quality_merge h = Return tt ->
  quality_rmtree h = Return tt ->
  ~ In (quality_temp_dir h working_dir)
       (dirs (snd (_calculate_visual_quality h raster_nodata blocks
                     working_dir w))).
Proof.
  intros Hi Hs Hm Hrm.
  unfold _calculate_visual_quality, bind, mkdtemp, logger, call,
    try_except_OSError, rmtree, path_exists, makedirs, ret, raise.
  rewrite Hi, Hs, Hm, Hrm. unfold quality_temp_dir.
  cbn [fst snd dirs logged graph_built tasks].
  destruct (existsb (String.eqb working_dir) (dirs w));
    cbn [fst snd dirs logged graph_built tasks];
    destruct (quality_raster_calculator h);
    cbn [fst snd dirs logged graph_built tasks];
    try destruct (raster_calculator_byte _ _);
    cbn [fst snd dirs logged graph_built tasks];
    apply rmtree_removes.
Qed.

(** An exception raised while the runs are merged (or spilled) leaves
    [_calculate_visual_quality] with its directory in place. *)
Lemma quality_temp_dir_left_by_exception (h : quality_host)
  (raster_nodata : R) (blocks : list (list R))
  (working_dir : String.string) (w : world) (e : exn) :
  quality_get_raster_info h = Return tt ->
  quality_spill h = Raise e \/
  (quality_spill h = Return tt /\ quality_merge h = Raise e) ->
  fst (_calculate_visual_quality h raster_nodata blocks working_dir w) =
  Raise e /\
  In (quality_temp_dir h working_dir)
     (dirs (snd (_calculate_visual_quality h raster_nodata blocks
                   working_dir w))).
Proof.
  intros Hi Hfail.
  unfold _calculate_visual_quality, bind, mkdtemp, logger, call,
    path_exists, makedirs, ret.
  rewrite Hi. simpl.
  destruct (existsb (String.eqb working_dir) (dirs w)); simpl;
    destruct Hfail as [Hs | [Hs Hm]]; rewrite Hs; simpl;
    try rewrite Hm; simpl; (split; [ reflexivity | now left ]).
Qed.

(** C7, as amended.  The temporary directory of [_clip_and_mask_dem] and
    that of [_calculate_visual_quality] are removed when no exception is
    raised before the call of [shutil.rmtree] and that call succeeds; an
    exception raised partway (by any of the six calls of
    [_clip_and_mask_dem] between [mkdtemp] and [shutil.rmtree], or while
    the runs of [_calculate_visual_quality] are spilled or merged) ends
    the function with that exception and the directory still in
    place. *)
Theorem temporary_directories_removed_on_success :
  (forall (h : clip_host) (working_dir : String.string) (w : world),
     (clip_get_vector_info h = Return tt ->
      clip_get_raster_info h = Return tt ->
      clip_warp_raster h = Return tt ->
      clip_new_raster_from_base h = Return tt ->
      clip_rasterize h = Return tt ->
      clip_raster_calculator h = Return tt ->
      clip_rmtree h = Return tt ->
      fst (_clip_and_mask_dem h working_dir w) = Return tt /\
      ~ In (clip_temp_dir h working_dir)
           (dirs (snd (_clip_and_mask_dem h working_dir w)))) /\
     (forall (e : exn) (before after : list (result unit)),
        [clip_get_vector_info h; clip_get_raster_info h;
         clip_warp_raster h; clip_new_raster_from_base h;
         clip_rasterize h; clip_raster_calculator h] =
        before ++ Raise e :: after ->
        Forall (fun outcome => outcome = Return tt) before ->
        fst (_clip_and_mask_dem h working_dir w) = Raise e /\
        In (clip_temp_dir h working_dir)
           (dirs (snd (_clip_and_mask_dem h working_dir w))))) /\
  (forall (h : quality_host) (raster_nodata : R) (blocks : list (list R))
          (working_dir : String.string) (w : world),
     quality_get_raster_info h = Return tt ->
     (quality_spill h = Return tt ->
      quality_merge h = Return tt ->
      quality_rmtree h = Return tt ->
      ~ In (quality_temp_dir h working_dir)
           (dirs (snd (_calculate_visual_quality h raster_nodata blocks
                         working_dir w)))) /\
     (forall e,
        quality_spill h = Raise e \/
        (quality_spill h = Return tt /\ quality_merge h = Raise e) ->
        fst (_calculate_visual_quality h raster_nodata blocks
               working_dir w) = Raise e /\
        In (quality_temp_dir h working_dir)
           (dirs (snd (_calculate_visual_quality h raster_nodata blocks
                         working_dir w))))).
Proof.
  split.
  - intros h working_dir w. split.
    + intros. now apply clip_temp_dir_removed.
    + intros e before after Hcalls Hbefore.
      eapply clip_temp_dir_left_by_exception; eassumption.
  - intros h raster_nodata blocks working_dir w Hi. split.
    + intros. now apply quality_temp_dir_removed.
    + intros e He. now apply quality_temp_dir_left_by_exception.
Qed.

(** A run of [_clip_and_mask_dem] in which every call returns. *)
Lemma temporary_directories_removed_on_success_witness :
  fst (_clip_and_mask_dem
         {| clip_tmp_suffix := "k3x9"%string;
            clip_get_vector_info := Return tt;
            clip_get_raster_info := Return tt;
            clip_warp_raster := Return tt;
            clip_new_raster_from_base := Return tt;
            clip_rasterize := Return tt;
            clip_raster_calculator := Return tt;
            clip_rmtree := Return tt |}
         "ws/intermediate"%string
         {| dirs := ["ws/intermediate"%string]; logged := [];
            graph_built := true; tasks := [clip_dem_to_aoi] |}) =
  Return tt /\
  ~ In "ws/intermediate/clip_demk3x9"%string
       (dirs (snd (_clip_and_mask_dem
         {| clip_tmp_suffix := "k3x9"%string;
            clip_get_vector_info := Return tt;
            clip_get_raster_info := Return tt;
            clip_warp_raster := Return tt;
            clip_new_raster_from_base := Return tt;
            clip_rasterize := Return tt;
            clip_raster_calculator := Return tt;
            clip_rmtree := Return tt |}
         "ws/intermediate"%string
         {| dirs := ["ws/intermediate"%string]; logged := [];
            graph_built := true; tasks := [clip_dem_to_aoi] |}))).
Proof.
  apply (proj1 (proj1 temporary_directories_removed_on_success
           {| clip_tmp_suffix := "k3x9"%string;
              clip_get_vector_info := Return tt;
              clip_get_raster_info := Return tt;
              clip_warp_raster := Return tt;
              clip_new_raster_from_base := Return tt;
              clip_rasterize := Return tt;
              clip_raster_calculator := Return tt;
              clip_rmtree := Return tt |}
           "ws/intermediate"%string
           {| dirs := ["ws/intermediate"%string]; logged := [];
              graph_built := true; tasks := [clip_dem_to_aoi] |}));
    reflexivity.
Defined.

(** C7, as stated, fails.  [warp_raster] raises inside
    [_clip_and_mask_dem], and loading a run raises during the merge of
    [_calculate_visual_quality]: each function ends with the exception
    and its temporary directory still exists. *)
Lemma temporary_directory_left_behind :
  (fst (_clip_and_mask_dem
          {| clip_tmp_suffix := "k3x9"%string;
             clip_get_vector_info := Return tt;
             clip_get_raster_info := Return tt;
             clip_warp_raster := Raise RuntimeError;
             clip_new_raster_from_base := Return tt;
             clip_rasterize := Return tt;
             clip_raster_calculator := Return tt;
             clip_rmtree := Return tt |}
          "ws/intermediate"%string
          {| dirs := ["ws/intermediate"%string]; logged := [];
             graph_built := true; tasks := [clip_dem_to_aoi] |}) =
   Raise RuntimeError /\
   dirs (snd (_clip_and_mask_dem
          {| clip_tmp_suffix := "k3x9"%string;
             clip_get_vector_info := Return tt;
             clip_get_raster_info := Return tt;
             clip_warp_raster := Raise RuntimeError;
             clip_new_raster_from_base := Return tt;
             clip_rasterize := Return tt;
             clip_raster_calculator := Return tt;
             clip_rmtree := Return tt |}
          "ws/intermediate"%string
          {| dirs := ["ws/intermediate"%string]; logged := [];
             graph_built := true; tasks := [clip_dem_to_aoi] |})) =
   ["ws/intermediate/clip_demk3x9"%string; "ws/intermediate"%string]) /\
  (fst (_calculate_visual_quality
          {| quality_tmp_suffix := "p7q2"%string;
             quality_get_raster_info := Return tt;
             quality_spill := Return tt;
             quality_merge := Raise RuntimeError;
             quality_rmtree := Return tt;
             quality_raster_calculator := Return tt |}
          (-99999) [[2; 0]; [-99999; 1]]%R
          "ws/intermediate"%string
          {| dirs := ["ws/intermediate"%string]; logged := [];
             graph_built := true; tasks := [calculate_visual_quality] |}) =
   Raise RuntimeError /\
   dirs (snd (_calculate_visual_quality
          {| quality_tmp_suffix := "p7q2"%string;
             quality_get_raster_info := Return tt;
             quality_spill := Return tt;
             quality_merge := Raise RuntimeError;
             quality_rmtree := Return tt;
             quality_raster_calculator := Return tt |}
          (-99999) [[2; 0]; [-99999; 1]]%R
          "ws/intermediate"%string
          {| dirs := ["ws/intermediate"%string]; logged := [];
             graph_built := true; tasks := [calculate_visual_quality] |})) =
   ["ws/intermediate/visual_qualityp7q2"%string;
    "ws/intermediate"%string]).
Proof. repeat split. Qed.

(** ** Viewpoints over a DEM without a no-data value *)

(** C10.  When the DEM has no no-data value defined,
    [_viewpoint_over_nodata] returns [False] for every viewpoint, so the
    loop over the structures keeps exactly the viewpoints that
    [_viewpoint_within_raster] accepts. *)
Theorem viewpoint_never_over_undefined_nodata
  (viewpoint : R * R) (dem : dem_raster) :
  GetNoDataValue dem = None ->
  _viewpoint_over_nodata viewpoint dem = false /\
  viewpoint_kept dem viewpoint = _viewpoint_within_raster viewpoint dem.
Proof.
  intros Hnone.
  assert (Hover : _viewpoint_over_nodata viewpoint dem = false).
  { unfold _viewpoint_over_nodata.
    destruct (GetGeoTransform dem) as [[[[[gt0 gt1] gt2] gt3] gt4] gt5].
    now rewrite Hnone. }
  split; [ exact Hover | ].
  unfold viewpoint_kept. rewrite Hover.
  now destruct (_viewpoint_within_raster viewpoint dem).
Qed.

(** A DEM of 30 m pixels with no no-data value, every pixel at 100 m. *)
Lemma viewpoint_never_over_undefined_nodata_witness :
  _viewpoint_over_nodata (15, -15)%R
    {| bounding_box := (0, -300, 300, 0)%R;
       mean_pixel_size := 30;
       GetNoDataValue := None;
       GetGeoTransform := (0, 30, 0, 0, 0, -30)%R;
       ReadAsArray := fun _ _ => Some 100%R |} = false /\
  viewpoint_kept
    {| bounding_box := (0, -300, 300, 0)%R;
       mean_pixel_size := 30;
       GetNoDataValue := None;
       GetGeoTransform := (0, 30, 0, 0, 0, -30)%R;
       ReadAsArray := fun _ _ => Some 100%R |} (15, -15)%R =
  _viewpoint_within_raster (15, -15)%R
    {| bounding_box := (0, -300, 300, 0)%R;
       mean_pixel_size := 30;
       GetNoDataValue := None;
       GetGeoTransform := (0, 30, 0, 0, 0, -30)%R;
       ReadAsArray := fun _ _ => Some 100%R |}.
Proof.
  apply (@viewpoint_never_over_undefined_nodata (15, -15)%R
           {| bounding_box := (0, -300, 300, 0)%R;
              mean_pixel_size := 30;
              GetNoDataValue := None;
              GetGeoTransform := (0, 30, 0, 0, 0, -30)%R;
              ReadAsArray := fun _ _ => Some 100%R |}).
  reflexivity.
Defined.

(** ** [execute] and an unrecognized valuation function *)

Section UnrecognizedValuationFunction.

Variable args : args_dict.
Variable f : String.string.
Hypothesis Hfunction :
  lookup "valuation_function"%string args = Some (PyStr f).
Hypothesis Hlinear : String.prefix "linear"%string f = false.
Hypothesis Hlogarithmic : String.prefix "logarithmic"%string f = false.
Hypothesis Hexponential : String.prefix "exponential"%string f = false.

Lemma select_valuation_method_raises (dem : dem_raster) (w : world) :
  select_valuation_method dem args w =
  (Raise (ValueError
            (String.append "Valuation function type "%string
               (String.append f " not recognized"%string))), w).
Proof.
  unfold select_valuation_method, bind, getitem, startswith, ret, raise.
  rewrite Hfunction. cbn [str].
  now rewrite Hlinear, Hlogarithmic, Hexponential.
Qed.

(** Whatever else [args] holds, [execute] ends with an exception and has
    only written to the log. *)
Lemma execute_raises_before_graph (h : execute_host) (w : world) :
  exists e,
    execute h args w =
    (Raise e,
     {| dirs := dirs w;
        logged := "Starting Scenic Quality Model"%string :: logged w;
        graph_built := graph_built w;
        tasks := tasks w |}).
Proof.
  unfold execute, bind, logger, getitem, call, raise, ret.
  destruct (lookup "dem_path"%string args) as [dem_path |];
    [ | eexists; reflexivity ].
  destruct (get_raster_info h dem_path) as [dem | e];
    [ | eexists; reflexivity ].
  destruct (lookup "a_coef"%string args) as [a_coef |];
    [ | eexists; reflexivity ].
  destruct (float h a_coef) as [a | e]; [ | eexists; reflexivity ].
  destruct (lookup "b_coef"%string args) as [b_coef |];
    [ | eexists; reflexivity ].
  destruct (float h b_coef) as [b | e]; [ | eexists; reflexivity ].
  rewrite select_valuation_method_raises. eexists; reflexivity.
Qed.

(** With the DEM and both coefficients read, the exception is the
    [ValueError] of line 101. *)
Lemma execute_raises_ValueError (h : execute_host) (w : world)
  (dem_path a_coef b_coef : pyval) (dem : dem_raster)
  (a b : pyfloat) :
  lookup "dem_path"%string args = Some dem_path ->
  get_raster_info h dem_path = Return dem ->
  lookup "a_coef"%string args = Some a_coef ->
  float h a_coef = Return a ->
  lookup "b_coef"%string args = Some b_coef ->
  float h b_coef = Return b ->
  fst (execute h args w) =
  Raise (ValueError
           (String.append "Valuation function type "%string
              (String.append f " not recognized"%string))).
Proof.
  intros Hdem Hinfo Ha Hfa Hb Hfb.
  unfold execute, bind, logger, getitem, call, ret.
  rewrite Hdem, Hinfo, Ha, Hfa, Hb, Hfb.
  now rewrite select_valuation_method_raises.
Qed.

End UnrecognizedValuationFunction.

(** C9, as amended.  When [args['valuation_function']] is a string that
    starts with none of 'linear', 'logarithmic' and 'exponential',
    [execute] ends with an exception without having constructed the task
    graph, added a task or created a directory; when the statements
    before the check succeed (the DEM is read and both coefficients are
    converted), that exception is the [ValueError] naming the
    unrecognized function. *)
Theorem execute_rejects_unrecognized_function
  (h : execute_host) (args : args_dict) (w : world) (f : String.string) :
  lookup "valuation_function"%string args = Some (PyStr f) ->
  String.prefix "linear"%string f = false ->
  String.prefix "logarithmic"%string f = false ->
  String.prefix "exponential"%string f = false ->
  (exists e, fst (execute h args w) = Raise e) /\
  graph_built (snd (execute h args w)) = graph_built w /\
  tasks (snd (execute h args w)) = tasks w /\
  dirs (snd (execute h args w)) = dirs w /\
  (forall (dem_path a_coef b_coef : pyval) (dem : dem_raster)
          (a b : pyfloat),
     lookup "dem_path"%string args = Some dem_path ->
     get_raster_info h dem_path = Return dem ->
     lookup "a_coef"%string args = Some a_coef ->
     float h a_coef = Return a ->
     lookup "b_coef"%string args = Some b_coef ->
     float h b_coef = Return b ->
     fst (execute h args w) =
     Raise (ValueError
              (String.append "Valuation function type "%string
                 (String.append f " not recognized"%string)))).
Proof.
  intros Hfunction Hlinear Hlogarithmic Hexponential.
  destruct (@execute_raises_before_graph args f Hfunction Hlinear
              Hlogarithmic Hexponential h w) as [e He].
  rewrite He. cbn [fst snd graph_built tasks dirs].
  repeat split.
  - now exists e.
  - intros dem_path a_coef b_coef dem a b Hdem Hinfo Ha Hfa Hb Hfb.
    rewrite <- (@execute_raises_ValueError args f Hfunction Hlinear
                  Hlogarithmic Hexponential h w dem_path a_coef b_coef
                  dem a b Hdem Hinfo Ha Hfa Hb Hfb).
    now rewrite He.
Qed.

(** The arguments of a run that asks for a 'quadratic' valuation. *)
Lemma execute_rejects_unrecognized_function_witness :
  fst (execute
         {| get_raster_info := fun _ =>
              Return {| bounding_box := (0, -300, 300, 0)%R;
                        mean_pixel_size := 30;
                        GetNoDataValue := Some (-1)%R;
                        GetGeoTransform := (0, 30, 0, 0, 0, -30)%R;
                        ReadAsArray := fun _ _ => Some 100%R |};
            float_of_string := fun _ => None;
            int_of_string := fun _ => None;
            structures_points := Return [(15, -15)%R];
            clipped_dem_task_join := Return tt;
            clipped_viewpoints_task_join := Return tt;
            graph_join := Return tt |}
         [("workspace_dir", PyStr "ws"); ("dem_path", PyStr "dem.tif");
          ("aoi_path", PyStr "aoi.shp");
          ("structure_path", PyStr "structures.shp");
          ("refraction", PyFloat (Finite (13 / 100)));
          ("valuation_function", PyStr "quadratic");
          ("a_coef", PyFloat (Finite 1)); ("b_coef", PyFloat (Finite 0));
          ("max_valuation_radius", PyFloat (Finite 8000))]%string
         {| dirs := []; logged := []; graph_built := false; tasks := [] |}) =
  Raise (ValueError "Valuation function type quadratic not recognized"%string)
  /\
  tasks (snd (execute
         {| get_raster_info := fun _ =>
              Return {| bounding_box := (0, -300, 300, 0)%R;
                        mean_pixel_size := 30;
                        GetNoDataValue := Some (-1)%R;
                        GetGeoTransform := (0, 30, 0, 0, 0, -30)%R;
                        ReadAsArray := fun _ _ => Some 100%R |};
            float_of_string := fun _ => None;
            int_of_string := fun _ => None;
            structures_points := Return [(15, -15)%R];
            clipped_dem_task_join := Return tt;
            clipped_viewpoints_task_join := Return tt;
            graph_join := Return tt |}
         [("workspace_dir", PyStr "ws"); ("dem_path", PyStr "dem.tif");
          ("aoi_path", PyStr "aoi.shp");
          ("structure_path", PyStr "structures.shp");
          ("refraction", PyFloat (Finite (13 / 100)));
          ("valuation_function", PyStr "quadratic");
          ("a_coef", PyFloat (Finite 1)); ("b_coef", PyFloat (Finite 0));
          ("max_valuation_radius", PyFloat (Finite 8000))]%string
         {| dirs := []; logged := []; graph_built := false; tasks := [] |})) =
  [].
Proof.
  destruct (@execute_rejects_unrecognized_function
         {| get_raster_info := fun _ =>
              Return {| bounding_box := (0, -300, 300, 0)%R;
                        mean_pixel_size := 30;
                        GetNoDataValue := Some (-1)%R;
                        GetGeoTransform := (0, 30, 0, 0, 0, -30)%R;
                        ReadAsArray := fun _ _ => Some 100%R |};
            float_of_string := fun _ => None;
            int_of_string := fun _ => None;
            structures_points := Return [(15, -15)%R];
            clipped_dem_task_join := Return tt;
            clipped_viewpoints_task_join := Return tt;
            graph_join := Return tt |}
         [("workspace_dir", PyStr "ws"); ("dem_path", PyStr "dem.tif");
          ("aoi_path", PyStr "aoi.shp");
          ("structure_path", PyStr "structures.shp");
          ("refraction", PyFloat (Finite (13 / 100)));
          ("valuation_function", PyStr "quadratic");
          ("a_coef", PyFloat (Finite 1)); ("b_coef", PyFloat (Finite 0));
          ("max_valuation_radius", PyFloat (Finite 8000))]%string
         {| dirs := []; logged := []; graph_built := false; tasks := [] |}
         "quadratic"%string eq_refl eq_refl eq_refl eq_refl)
    as (_ & _ & Htasks & _ & Herror).
  split.
  - exact (Herror _ _ _ _ _ _ eq_refl eq_refl eq_refl eq_refl eq_refl
             eq_refl).
  - exact Htasks.
Defined.

(** C9, as stated, fails.  The statements before the check run first:
    without ['dem_path'] in [args] the exception is the [KeyError] of
    that key, and with an [a_coef] of [None] it is the [TypeError] of
    [float], whatever the valuation function. *)
Lemma execute_unrecognized_function_without_ValueError :
  fst (execute (run_host (Return tt))
         [("workspace_dir", PyStr "ws");
          ("valuation_function", PyStr "quadratic");
          ("a_coef", PyFloat (Finite 1));
          ("b_coef", PyFloat (Finite 0))]%string
         new_world) = Raise (KeyError "dem_path"%string) /\
  fst (execute (run_host (Return tt))
         [("workspace_dir", PyStr "ws"); ("dem_path", PyStr "dem.tif");
          ("valuation_function", PyStr "quadratic");
          ("a_coef", PyNone); ("b_coef", PyFloat (Finite 0))]%string
         new_world) = Raise TypeError.
Proof. split; reflexivity. Qed.

(** The same run with the 'linear' valuation: the graph is constructed
    and nine tasks are added, two of them for the one viewpoint. *)
Lemma execute_linear_adds_tasks :
  execute
    {| get_raster_info := fun _ =>
         Return {| bounding_box := (0, -300, 300, 0)%R;
                   mean_pixel_size := 30;
                   GetNoDataValue := Some (-1)%R;
                   GetGeoTransform := (0, 30, 0, 0, 0, -30)%R;
                   ReadAsArray := fun _ _ => Some 100%R |};
       float_of_string := fun _ => None;
       int_of_string := fun _ => None;
       structures_points := Return [(15, -15)%R];
       clipped_dem_task_join := Return tt;
       clipped_viewpoints_task_join := Return tt;
       graph_join := Return tt |}
    [("workspace_dir", PyStr "ws"); ("dem_path", PyStr "dem.tif");
     ("aoi_path", PyStr "aoi.shp");
     ("structure_path", PyStr "structures.shp");
     ("refraction", PyFloat (Finite (13 / 100)));
     ("valuation_function", PyStr "linear");
     ("a_coef", PyFloat (Finite 1)); ("b_coef", PyFloat (Finite 0));
     ("max_valuation_radius", PyFloat (Finite 8000))]%string
    {| dirs := []; logged := []; graph_built := false; tasks := [] |} =
  (Return tt,
   {| dirs := ["ws/intermediate"; "ws/output"]%string;
      logged := ["Waiting for Scenic Quality tasks to complete.";
                 "Setting up viewshed tasks";
                 "Waiting for clipping to finish";
                 "Building file registry";
                 "Starting Scenic Quality Model"]%string;
      graph_built := true;
      tasks := [calculate_visual_quality;
                sum_visibility_for_all_structures;
                add_up_valuation_rasters;
                calculate_valuation_for_viewshed 0;
                calculate_visibility 0;
                clip_dem_to_aoi;
                clip_reprojected_structures_to_aoi;
                reproject_structures_to_dem;
                reproject_aoi_to_dem] |}).
Proof.
  unfold execute, bind, logger, getitem, call, ret, n_workers_of, TaskGraph,
    add_task, makedirs, os_path_join, select_valuation_method, startswith.
  cbn -[Rleb Reqb Rltb Rdiv IZR Rplus Rminus Rmult int_of_float].
  unfold viewpoint_kept, _viewpoint_within_raster, _viewpoint_over_nodata.
  cbn -[Rleb Reqb Rltb Rdiv IZR Rplus Rminus Rmult int_of_float].
  Rcompare.
  reflexivity.
Qed.

(* ================================================================== *)
(** * Part III: further properties                                      *)
(* ================================================================== *)

(** ** Valuation: the other two methods, and the distances *)

(** X1.  With the linear and the exponential method, a pixel that is not
    no-data, has a visibility above 0 and lies within
    [max_valuation_radius] is written as [(a + b d) * weight *
    visibility] and as [a exp(-b d) * weight * visibility]. *)
Theorem linear_and_exponential_valuation_of_visible_pixel
  (coefs : valuation_coefficients)
  (weight max_valuation_radius : R) (g : viewshed_geometry)
  (visibility : list (block_info * list R)) (k : nat) (bi : block_info)
  (vis_block : list R) (i : nat) (v d : R) :
  nth_error visibility k = Some (bi, vis_block) ->
  length vis_block = (win_ysize bi * win_xsize bi)%nat ->
  nth_error vis_block i = Some v ->
  nth_error (dist_in_m g bi) i = Some d ->
  v <> vis_nodata g -> (0 < v)%R -> (d <= max_valuation_radius)%R ->
  (exists out_block,
     nth_error (_calculate_valuation linear coefs weight
                  max_valuation_radius g visibility) k = Some out_block /\
     nth_error out_block i =
     Some ((coef_a coefs + coef_b coefs * d) * weight * v)%R) /\
  (exists out_block,
     nth_error (_calculate_valuation exponential coefs weight
                  max_valuation_radius g visibility) k = Some out_block /\
     nth_error out_block i =
     Some (coef_a coefs * exp (- coef_b coefs * d) * weight * v)%R).
Proof.
  intros Hk Hshape Hv Hd Hnd Hvis Hnear.
  apply Reqb_false in Hnd. apply Rleb_true in Hnear.
  apply Rltb_true in Hvis.
  split; eexists;
    (split; [ eapply nth_error_calculate_valuation; eassumption | ]);
    rewrite (valuation_block_pixel _ coefs weight max_valuation_radius
               g bi vis_block i Hshape Hv Hd);
    rewrite Hnd, Hnear; unfold pixel_valuation; rewrite Hvis;
    f_equal; ring.
Qed.

Lemma hypot_two_pixels_south :
  (Np.hypot (Rabs (IZR (0 + Z.of_nat 0) - IZR 0))
            (Rabs (IZR (0 + Z.of_nat 2) - IZR 0)) * 30 = 60)%R.
Proof.
  simpl. unfold Np.hypot.
  replace (2 - 0)%R with 2%R by ring. replace (0 - 0)%R with 0%R by ring.
  rewrite Rabs_R0, (Rabs_pos_eq 2) by lra.
  replace (0 * 0 + 2 * 2)%R with (Rsqr 2) by (unfold Rsqr; ring).
  rewrite sqrt_Rsqr by lra. ring.
Qed.

(** The pixel two rows south of the viewpoint, 60 m away. *)
Lemma linear_and_exponential_valuation_of_visible_pixel_witness :
  (exists out_block,
     nth_error
       (_calculate_valuation linear {| coef_a := 1; coef_b := 2 |} 3 1000
          {| ix_viewpoint := 0; iy_viewpoint := 0;
             pixel_size_in_m := 30; vis_nodata := 255 |}
          [({| xoff := 0; yoff := 0; win_xsize := 1; win_ysize := 3 |},
            [1; 0; 1]%R)]) 0 = Some out_block /\
     nth_error out_block 2 = Some ((1 + 2 * 60) * 3 * 1)%R) /\
  (exists out_block,
     nth_error
       (_calculate_valuation exponential {| coef_a := 1; coef_b := 2 |} 3
          1000
          {| ix_viewpoint := 0; iy_viewpoint := 0;
             pixel_size_in_m := 30; vis_nodata := 255 |}
          [({| xoff := 0; yoff := 0; win_xsize := 1; win_ysize := 3 |},
            [1; 0; 1]%R)]) 0 = Some out_block /\
     nth_error out_block 2 = Some (1 * exp (- 2 * 60) * 3 * 1)%R).
Proof.
  rewrite <- hypot_two_pixels_south.
  apply (@linear_and_exponential_valuation_of_visible_pixel
           {| coef_a := 1; coef_b := 2 |} 3 1000
           {| ix_viewpoint := 0; iy_viewpoint := 0;
              pixel_size_in_m := 30; vis_nodata := 255 |}
           [({| xoff := 0; yoff := 0; win_xsize := 1; win_ysize := 3 |},
             [1; 0; 1]%R)] 0
           {| xoff := 0; yoff := 0; win_xsize := 1; win_ysize := 3 |}
           [1; 0; 1]%R 2 1%R
           (Np.hypot (Rabs (IZR (0 + Z.of_nat 0) - IZR 0))
                     (Rabs (IZR (0 + Z.of_nat 2) - IZR 0)) * 30)%R
           eq_refl eq_refl eq_refl eq_refl).
  - simpl. lra.
  - lra.
  - rewrite hypot_two_pixels_south. lra.
Defined.

Lemma hypot_nonnegative (x y : R) : (0 <= Np.hypot x y)%R.
Proof. unfold Np.hypot. apply sqrt_pos. Qed.

Lemma hypot_zero (x y : R) : Np.hypot x y = 0%R -> x = 0%R /\ y = 0%R.
Proof.
  unfold Np.hypot. intros Hzero.
  apply sqrt_eq_0 in Hzero; [ | nra ].
  split; nra.
Qed.

Lemma Rabs_zero (x : R) : Rabs x = 0%R -> x = 0%R.
Proof.
  intros Hzero. destruct (Req_dec_T x 0) as [Hx | Hx]; auto.
  now apply Rabs_no_R0 in Hx.
Qed.

Lemma Forall_zip_with (A B C : Type) (P : C -> Prop) (f : A -> B -> C)
  (a : list A) (b : list B) :
  (forall x y, P (f x y)) -> Forall P (Np.zip_with f a b).
Proof.
  intros Hf. revert b.
  induction a as [| x a IH]; intros [| y b]; simpl; auto.
Qed.

(** X2.  In a block, the distances are never negative when the pixel
    size is not; and with a positive pixel size the distance at row [r]
    and column [c] is 0 exactly when that pixel is the pixel of the
    viewpoint. *)
Theorem distance_zero_only_at_viewpoint
  (g : viewshed_geometry) (bi : block_info) (r c : nat) (d : R) :
  (0 < pixel_size_in_m g)%R ->
  (r < win_ysize bi)%nat -> (c < win_xsize bi)%nat ->
  nth_error (dist_in_m g bi) (r * win_xsize bi + c) = Some d ->
  Forall (fun d' => 0 <= d')%R (dist_in_m g bi) /\
  (d = 0%R <->
   (xoff bi + Z.of_nat c = ix_viewpoint g /\
    yoff bi + Z.of_nat r = iy_viewpoint g)%Z).
Proof.
  intros Hsize Hr Hc Hd. split.
  - unfold dist_in_m. apply Forall_zip_with. intros x y.
    apply Rmult_le_pos; [ apply hypot_nonnegative | lra ].
  - rewrite (dist_in_m_at g bi Hr Hc) in Hd. injection Hd as <-.
    split.
    + intros Hzero.
      apply Rmult_integral in Hzero as [Hzero | Hzero]; [ | lra ].
      apply hypot_zero in Hzero as [Hx Hy].
      split; apply eq_IZR.
      * apply Rabs_zero in Hx. lra.
      * apply Rabs_zero in Hy. lra.
    + intros [<- <-].
      unfold Np.hypot. rewrite !Rminus_diag, Rabs_R0.
      replace (0 * 0 + 0 * 0)%R with 0%R by ring.
      rewrite sqrt_0. ring.
Qed.

(** The pixel east of the viewpoint in a block of two pixels. *)
Lemma distance_zero_only_at_viewpoint_witness :
  Forall (fun d' => 0 <= d')%R
    (dist_in_m {| ix_viewpoint := 0; iy_viewpoint := 0;
                  pixel_size_in_m := 30; vis_nodata := 255 |}
               {| xoff := 0; yoff := 0; win_xsize := 2; win_ysize := 1 |}) /\
  ((Np.hypot (Rabs (IZR (0 + Z.of_nat 1) - IZR 0))
             (Rabs (IZR (0 + Z.of_nat 0) - IZR 0)) * 30)%R = 0%R <->
   (0 + Z.of_nat 1 = 0 /\ 0 + Z.of_nat 0 = 0)%Z).
Proof.
  apply (@distance_zero_only_at_viewpoint
           {| ix_viewpoint := 0; iy_viewpoint := 0;
              pixel_size_in_m := 30; vis_nodata := 255 |}
           {| xoff := 0; yoff := 0; win_xsize := 2; win_ysize := 1 |}
           0 1).
  - simpl. lra.
  - simpl. lia.
  - simpl. lia.
  - reflexivity.
Defined.

(** X3.  With the logarithmic method the pixel of the viewpoint itself,
    when it is not no-data, is written as 0 whatever its visibility, the
    coefficients, the weight and the radius. *)
Theorem logarithmic_valuation_at_viewpoint_is_zero
  (coefs : valuation_coefficients) (weight max_valuation_radius : R)
  (g : viewshed_geometry) (bi : block_info) (vis_block : list R)
  (r c : nat) (v : R) :
  (r < win_ysize bi)%nat -> (c < win_xsize bi)%nat ->
  (xoff bi + Z.of_nat c = ix_viewpoint g)%Z ->
  (yoff bi + Z.of_nat r = iy_viewpoint g)%Z ->
  length vis_block = (win_ysize bi * win_xsize bi)%nat ->
  nth_error vis_block (r * win_xsize bi + c) = Some v ->
  v <> vis_nodata g ->
  nth_error (valuation_block logarithmic coefs weight max_valuation_radius
               g bi vis_block) (r * win_xsize bi + c) = Some 0%R.
Proof.
  intros Hr Hc Hx Hy Hshape Hv Hnd.
  assert (Hd : nth_error (dist_in_m g bi) (r * win_xsize bi + c) =
               Some 0%R).
  { rewrite (dist_in_m_at g bi Hr Hc), Hx, Hy.
    unfold Np.hypot. rewrite !Rminus_diag, Rabs_R0.
    replace (0 * 0 + 0 * 0)%R with 0%R by ring.
    rewrite sqrt_0. f_equal. ring. }
  rewrite (valuation_block_pixel logarithmic coefs weight
             max_valuation_radius g bi vis_block _ Hshape Hv Hd).
  apply Reqb_false in Hnd. rewrite Hnd.
  unfold pixel_valuation.
  replace (Rltb 0 0) with false by (symmetry; apply Rltb_false; lra).
  rewrite andb_false_r. now destruct (Rleb 0 max_valuation_radius).
Qed.

(** The viewpoint in the first pixel of a visible block. *)
Lemma logarithmic_valuation_at_viewpoint_is_zero_witness :
  nth_error
    (valuation_block logarithmic {| coef_a := 1; coef_b := 2 |} 3 1000
       {| ix_viewpoint := 4; iy_viewpoint := 7;
          pixel_size_in_m := 30; vis_nodata := 255 |}
       {| xoff := 4; yoff := 7; win_xsize := 2; win_ysize := 1 |}
       [1; 1]%R) (0 * 2 + 0) = Some 0%R.
Proof.
  apply (@logarithmic_valuation_at_viewpoint_is_zero
           {| coef_a := 1; coef_b := 2 |} 3 1000
           {| ix_viewpoint := 4; iy_viewpoint := 7;
              pixel_size_in_m := 30; vis_nodata := 255 |}
           {| xoff := 4; yoff := 7; win_xsize := 2; win_ysize := 1 |}
           [1; 1]%R 0 0 1%R).
  - simpl. lia.
  - simpl. lia.
  - reflexivity.
  - reflexivity.
  - reflexivity.
  - reflexivity.
  - simpl. lra.
Defined.

(** ** Shapes *)

Lemma fold_left_keeps_length (A B : Type) (step : list A -> B -> list A)
  (items : list B) :
  (forall acc item, length (step acc item) = length acc) ->
  forall acc, length (fold_left step items acc) = length acc.
Proof.
  intros Hstep. induction items as [| item items IH]; intros acc; simpl.
  - reflexivity.
  - now rewrite IH, Hstep.
Qed.

Lemma length_add_at (a : list R) (m : list bool) (vals : list R) :
  length (Np.add_at a m vals) = length a.
Proof. unfold Np.add_at. apply length_assign. Qed.

(** X4.  Every raster the model derives has the blocks of its first
    input, pixel for pixel: the valuation of a viewshed, the sum of the
    valuations, the weighted count, the classified raster and the masked
    DEM. *)
Theorem derived_rasters_keep_their_shape :
  (forall method coefs weight max_valuation_radius g visibility,
     map (@length R)
         (_calculate_valuation method coefs weight max_valuation_radius g
            visibility) =
     map (fun block => length (snd block)) visibility) /\
  (forall dem_nodata stacks,
     map (@length R) (_sum_valuation_rasters dem_nodata stacks) =
     map (fun stack => length (fst stack)) stacks) /\
  (forall dem_nodata weights stacks,
     map (@length R) (_count_visible_structures dem_nodata weights stacks) =
     map (fun stack => length (fst stack)) stacks) /\
  (forall raster_nodata blocks,
     exists written,
       visual_quality_raster raster_nodata blocks = Some written /\
       map (@length Z) written = map (@length R) blocks) /\
  (forall dem_nodata dem aoi_mask,
     length (_mask_op dem_nodata dem aoi_mask) = length dem).
Proof.
  repeat split.
  - intros. unfold _calculate_valuation. rewrite map_map.
    apply map_ext. intros [bi vis_block]. unfold valuation_block. simpl.
    now rewrite length_assign_scalar, length_assign, length_full.
  - intros. unfold _sum_valuation_rasters. rewrite map_map.
    apply map_ext. intros [dem rasters]. unfold _sum_rasters. simpl.
    rewrite fold_left_keeps_length
      by (intros; apply length_add_at).
    now rewrite length_assign_scalar, length_full.
  - intros. unfold _count_visible_structures. rewrite map_map.
    apply map_ext. intros [dem rasters]. unfold count_visible_block. simpl.
    rewrite fold_left_keeps_length
      by (intros acc [vm w]; apply length_add_at).
    now rewrite length_assign_scalar, length_full.
  - intros. eexists. split; [ apply visual_quality_raster_pixels | ].
    rewrite map_map. apply map_ext. intros block. apply length_map.
  - intros. unfold _mask_op. now rewrite length_assign, length_full.
Qed.

(** ** Clipping the DEM: the mask and the bounding box *)

Lemma _mask_op_pointwise (dem_nodata : R) (dem aoi_mask : list R) :
  length aoi_mask = length dem ->
  _mask_op dem_nodata dem aoi_mask =
  Np.zip_with (fun v m => if Reqb m 1 then v else dem_nodata) dem aoi_mask.
Proof.
  unfold _mask_op, Np.mask_and. revert aoi_mask.
  induction dem as [| v dem IH]; intros [| m aoi_mask] Hlen;
    simpl in *; try discriminate; auto.
  injection Hlen as Hlen. specialize (IH aoi_mask Hlen).
  unfold Rneb in *.
  destruct (Reqb v dem_nodata) eqn:Hv, (Reqb m 1); simpl; rewrite IH;
    auto.
  apply Reqb_true in Hv. now subst.
Qed.

(** X5.  Masking the DEM keeps the pixels where the AOI mask is 1 as
    they are and writes the DEM's no-data value everywhere else; masking
    the result again with the same mask changes nothing. *)
Theorem mask_op_keeps_aoi_and_is_idempotent
  (dem_nodata : R) (dem aoi_mask : list R) :
  length aoi_mask = length dem ->
  (forall (i : nat) (v m : R),
     nth_error dem i = Some v -> nth_error aoi_mask i = Some m ->
     (m = 1%R ->
      nth_error (_mask_op dem_nodata dem aoi_mask) i = Some v) /\
     (m <> 1%R ->
      nth_error (_mask_op dem_nodata dem aoi_mask) i = Some dem_nodata)) /\
  _mask_op dem_nodata (_mask_op dem_nodata dem aoi_mask) aoi_mask =
  _mask_op dem_nodata dem aoi_mask.
Proof.
  intros Hlen. split.
  - intros i v m Hv Hm.
    rewrite _mask_op_pointwise, nth_error_zip_with, Hv, Hm by assumption.
    split.
    + intros ->. now rewrite Reqb_refl.
    + intros Hout. apply Reqb_false in Hout. now rewrite Hout.
  - rewrite (_mask_op_pointwise dem_nodata dem) by assumption.
    rewrite _mask_op_pointwise
      by (rewrite length_zip_with; lia).
    clear Hlen. revert aoi_mask.
    induction dem as [| v dem IH]; intros [| m aoi_mask]; simpl; auto.
    rewrite IH. now destruct (Reqb m 1).
Qed.

(** A block of three pixels, the third one outside the AOI. *)
Lemma mask_op_keeps_aoi_and_is_idempotent_witness :
  _mask_op (-1) (_mask_op (-1) [100; -1; 120]%R [1; 1; 0]%R) [1; 1; 0]%R =
  _mask_op (-1) [100; -1; 120]%R [1; 1; 0]%R.
Proof.
  apply (proj2 (@mask_op_keeps_aoi_and_is_idempotent (-1)
                  [100; -1; 120]%R [1; 1; 0]%R eq_refl)).
Defined.

Lemma Rleb_py_max (a b x : R) :
  Rleb (py_max a b) x = Rleb a x && Rleb b x.
Proof.
  unfold py_max. destruct (Rltb a b) eqn:Hab.
  - apply Rltb_true in Hab.
    destruct (Rleb b x) eqn:Hb.
    + apply Rleb_true in Hb. rewrite andb_true_r. symmetry.
      apply Rleb_true. lra.
    + now rewrite andb_false_r.
  - apply Rltb_false in Hab.
    destruct (Rleb a x) eqn:Ha; simpl; auto.
    apply Rleb_true in Ha. symmetry. apply Rleb_true. lra.
Qed.

Lemma Rleb_py_min (a b x : R) :
  Rleb x (py_min a b) = Rleb x a && Rleb x b.
Proof.
  unfold py_min. destruct (Rltb b a) eqn:Hab.
  - apply Rltb_true in Hab.
    destruct (Rleb x b) eqn:Hb.
    + apply Rleb_true in Hb. rewrite andb_true_r. symmetry.
      apply Rleb_true. lra.
    + now rewrite andb_false_r.
  - apply Rltb_false in Hab.
    destruct (Rleb x a) eqn:Ha; simpl; auto.
    apply Rleb_true in Ha. symmetry. apply Rleb_true. lra.
Qed.

(** X6.  A viewpoint is within a raster whose bounding box is
    [intersection_bbox] of the AOI's and the DEM's exactly when it is
    inside the AOI's bounding box (edges included) and within the DEM. *)
Theorem within_intersection_bbox
  (viewpoint : R * R) (aoi_bbox : R * R * R * R)
  (dem clipped : dem_raster) :
  bounding_box clipped = intersection_bbox aoi_bbox (bounding_box dem) ->
  _viewpoint_within_raster viewpoint clipped = true <->
  (let '(aoi_minx, aoi_miny, aoi_maxx, aoi_maxy) := aoi_bbox in
   (aoi_minx <= fst viewpoint <= aoi_maxx)%R /\
   (aoi_miny <= snd viewpoint <= aoi_maxy)%R) /\
  _viewpoint_within_raster viewpoint dem = true.
Proof.
  intros Hbox. unfold _viewpoint_within_raster. rewrite Hbox.
  destruct aoi_bbox as [[[aoi_minx aoi_miny] aoi_maxx] aoi_maxy].
  destruct (bounding_box dem) as [[[dem_minx dem_miny] dem_maxx] dem_maxy].
  destruct viewpoint as [x y]. cbn [intersection_bbox fst snd].
  rewrite !Rleb_py_max, !Rleb_py_min.
  destruct (Rleb aoi_minx x) eqn:H1, (Rleb dem_minx x) eqn:H2,
    (Rleb x aoi_maxx) eqn:H3, (Rleb x dem_maxx) eqn:H4,
    (Rleb aoi_miny y) eqn:H5, (Rleb dem_miny y) eqn:H6,
    (Rleb y aoi_maxy) eqn:H7, (Rleb y dem_maxy) eqn:H8;
    cbn [andb orb negb];
    repeat match goal with
           | H : Rleb _ _ = true |- _ => apply Rleb_true in H
           | H : Rleb _ _ = false |- _ => apply Rleb_false in H
           end;
    split; try discriminate; try (intros; repeat split; lra);
    intros [[? ?] ?]; try discriminate; lra.
Qed.

(** An AOI box that overlaps the east of the DEM's. *)
Lemma within_intersection_bbox_witness :
  _viewpoint_within_raster (250, -15)%R
    {| bounding_box := (200, -300, 300, 0)%R;
       mean_pixel_size := 30;
       GetNoDataValue := None;
       GetGeoTransform := (200, 30, 0, 0, 0, -30)%R;
       ReadAsArray := fun _ _ => Some 100%R |} = true <->
  ((200 <= fst (250, -15) <= 400)%R /\
   (-400 <= snd (250, -15) <= 0)%R) /\
  _viewpoint_within_raster (250, -15)%R
    {| bounding_box := (0, -300, 300, 0)%R;
       mean_pixel_size := 30;
       GetNoDataValue := None;
       GetGeoTransform := (0, 30, 0, 0, 0, -30)%R;
       ReadAsArray := fun _ _ => Some 100%R |} = true.
Proof.
  apply (@within_intersection_bbox (250, -15)%R (200, -400, 400, 0)%R
           {| bounding_box := (0, -300, 300, 0)%R;
              mean_pixel_size := 30;
              GetNoDataValue := None;
              GetGeoTransform := (0, 30, 0, 0, 0, -30)%R;
              ReadAsArray := fun _ _ => Some 100%R |}
           {| bounding_box := (200, -300, 300, 0)%R;
              mean_pixel_size := 30;
              GetNoDataValue := None;
              GetGeoTransform := (200, 30, 0, 0, 0, -30)%R;
              ReadAsArray := fun _ _ => Some 100%R |}).
  cbn [bounding_box intersection_bbox]. unfold py_max, py_min.
  Rcompare. reflexivity.
Defined.

(** ** The sorted runs *)

Lemma spill_fold_iterators (raster_nodata : R) (blocks : list (list R)) :
  forall st : spill_state,
    iterators (fold_left (spill_block raster_nodata) blocks st) =
    iterators st ++
    map Np.sort
      (filter (fun run => negb (length run =? 0)%nat)
         (map (filter (fun v => Rneb v raster_nodata && Rneb v 0))
              blocks)).
Proof.
  induction blocks as [| block blocks IH]; intros st; simpl.
  - now rewrite app_nil_r.
  - rewrite IH. unfold spill_block. rewrite select_two_masks.
    destruct (length (filter _ block) =? 0)%nat; simpl.
    + reflexivity.
    + now rewrite <- app_assoc.
Qed.

(** X7.  After the first loop of [_calculate_visual_quality] the runs
    are, in block order, the eligible (non-zero, non-no-data) pixels of
    each block that has any, sorted in ascending order; a block without
    eligible pixels leaves no run, so no run is empty; and [n_elements]
    is the number of eligible pixels of the whole raster. *)
Theorem spilled_runs_of_a_raster
  (raster_nodata : R) (blocks : list (list R)) :
  iterators (spill_runs raster_nodata blocks) =
  map Np.sort
    (filter (fun run => negb (length run =? 0)%nat)
       (map (filter (fun v => Rneb v raster_nodata && Rneb v 0)) blocks)) /\
  Forall (fun run => run <> [] /\ StronglySorted Rle run)
         (iterators (spill_runs raster_nodata blocks)) /\
  n_elements (spill_runs raster_nodata blocks) =
  length (eligible_population raster_nodata blocks).
Proof.
  assert (Hruns : iterators (spill_runs raster_nodata blocks) =
                  map Np.sort
                    (filter (fun run => negb (length run =? 0)%nat)
                       (map (filter (fun v => Rneb v raster_nodata
                                              && Rneb v 0)) blocks)))
    by (unfold spill_runs; now rewrite spill_fold_iterators).
  split; [ exact Hruns | ]. split.
  - rewrite Hruns. apply Forall_forall. intros run Hin.
    apply in_map_iff in Hin as [unsorted [<- Hin]].
    apply filter_In in Hin as [_ Hnonempty].
    split; [ | apply sort_ascending ].
    intros Hempty. apply (f_equal (@length R)) in Hempty.
    rewrite length_sort in Hempty. simpl in Hempty.
    now rewrite Hempty in Hnonempty.
  - now destruct (spill_runs_invariant raster_nodata blocks) as [Hn _].
Qed.

(** ** The breakpoints do not depend on the blocks *)

Lemma Permutation_filter (A : Type) (f : A -> bool) (l l' : list A) :
  Permutation l l' -> Permutation (filter f l) (filter f l').
Proof.
  induction 1 as [| x l l' _ IH | x y l | l l' l'' _ IH1 _ IH2]; simpl.
  - constructor.
  - destruct (f x); auto.
  - destruct (f x), (f y); auto. apply perm_swap.
  - now transitivity (filter f l').
Qed.

Lemma sort_of_permutation (l l' : list R) :
  Permutation l l' -> Np.sort l = Np.sort l'.
Proof.
  intros Hperm.
  apply ascending_permutation_unique;
    [ apply sort_ascending | apply sort_ascending | ].
  now rewrite !sort_permutation.
Qed.

(** X8.  Two rasters that hold the same pixels, cut into blocks
    differently or listed in another order, get the same breakpoints and
    hence classify every value alike. *)
Theorem breakpoints_do_not_depend_on_blocks
  (raster_nodata : R) (blocks blocks' : list (list R)) :
  Permutation (concat blocks) (concat blocks') ->
  percentile_values raster_nodata blocks =
  percentile_values raster_nodata blocks' /\
  forall block : list R,
    _map_percentiles raster_nodata
      (percentile_values raster_nodata blocks) block =
    _map_percentiles raster_nodata
      (percentile_values raster_nodata blocks') block.
Proof.
  intros Hperm.
  assert (Hbins : percentile_values raster_nodata blocks =
                  percentile_values raster_nodata blocks').
  { rewrite !percentile_values_of_sorted_population.
    unfold eligible_population.
    now rewrite (sort_of_permutation
                   (Permutation_filter
                      (fun v => Rneb v raster_nodata && Rneb v 0) Hperm)). }
  split; [ exact Hbins | ]. intros block. now rewrite Hbins.
Qed.

(** The raster of five eligible pixels as two blocks and as one. *)
Lemma breakpoints_do_not_depend_on_blocks_witness :
  percentile_values (-99999) [[5; 0; 3]; [-99999; 1; 4; 2]]%R =
  percentile_values (-99999) [[5; 0; 3; -99999; 1; 4; 2]]%R.
Proof.
  apply (proj1 (@breakpoints_do_not_depend_on_blocks (-99999)
                  [[5; 0; 3]; [-99999; 1; 4; 2]]%R
                  [[5; 0; 3; -99999; 1; 4; 2]]%R
                  (Permutation_refl _))).
Defined.

(** ** What the breakpoints are *)

Lemma percentile_loop_values (values : list R) :
  forall (current_index next : Z) (rank_ordinals : list Z) (acc : list R)
         (b : R),
    In b (percentile_loop values current_index next rank_ordinals acc) ->
    In b acc \/ In b values.
Proof.
  induction values as [| value values IH];
    intros current_index next rank_ordinals acc b; simpl.
  - auto.
  - destruct (current_index =? next)%Z.
    + destruct rank_ordinals as [| next' rank_ordinals'].
      * intros Hin. apply in_app_or in Hin as [Hin | [<- | []]]; auto.
      * intros Hin. apply IH in Hin as [Hin | Hin]; auto.
        apply in_app_or in Hin as [Hin | [<- | []]]; auto.
    + intros Hin. apply IH in Hin as [Hin | Hin]; auto.
Qed.

Lemma percentile_values_are_eligible (raster_nodata : R)
  (blocks : list (list R)) (b : R) :
  In b (percentile_values raster_nodata blocks) ->
  In b (eligible_population raster_nodata blocks).
Proof.
  rewrite percentile_values_of_sorted_population.
  unfold merged_percentiles. cbv zeta. rewrite rank_ordinals_values.
  intros Hin. apply percentile_loop_values in Hin as [[] | Hin].
  eapply Permutation_in; [ apply sort_permutation | exact Hin ].
Qed.

Lemma percentile_values_length (raster_nodata : R)
  (blocks : list (list R)) :
  length (percentile_values raster_nodata blocks) =
  Nat.min (length (eligible_population raster_nodata blocks)) 4.
Proof.
  destruct (Nat.lt_ge_cases
              (length (eligible_population raster_nodata blocks)) 4)
    as [Hfew | Hfour].
  - rewrite percentile_values_few_values, length_sort by assumption. lia.
  - pose proof (percentile_values_four_ranks raster_nodata blocks Hfour)
      as Hpicks.
    apply (f_equal (@length (option R))) in Hpicks.
    unfold breakpoints_in_memory in Hpicks.
    rewrite !length_map in Hpicks. rewrite Hpicks. simpl. lia.
Qed.

(** X9.  Every breakpoint is the value of an eligible pixel of the
    raster, hence neither 0 nor the no-data value; the breakpoints are
    in ascending order; and there are four of them, or as many as there
    are eligible pixels when these are fewer than four. *)
Theorem breakpoints_are_eligible_values
  (raster_nodata : R) (blocks : list (list R)) :
  (forall b, In b (percentile_values raster_nodata blocks) ->
             In b (concat blocks) /\ b <> raster_nodata /\ b <> 0%R) /\
  StronglySorted Rle (percentile_values raster_nodata blocks) /\
  length (percentile_values raster_nodata blocks) =
  Nat.min (length (eligible_population raster_nodata blocks)) 4.
Proof.
  split; [ | split ].
  - intros b Hin. apply percentile_values_are_eligible in Hin.
    apply filter_In in Hin as [Hin Heligible].
    apply andb_prop in Heligible as [Hnd Hzero].
    apply Rneb_true in Hnd. apply Rneb_true in Hzero. auto.
  - apply percentile_values_ascending.
  - apply percentile_values_length.
Qed.

(** ** The classes of the eligible pixels *)

Lemma breakpoints_le_monotone (bins : list R) (v v' : R) :
  (v <= v')%R -> (breakpoints_le bins v <= breakpoints_le bins v')%nat.
Proof.
  intros Hle. unfold breakpoints_le.
  induction bins as [| b bins IH]; simpl; auto.
  destruct (Rleb b v) eqn:Hb.
  - apply Rleb_true in Hb.
    replace (Rleb b v') with true by (symmetry; apply Rleb_true; lra).
    simpl. lia.
  - destruct (Rleb b v'); simpl; lia.
Qed.

Lemma eligible_pixel_reaches_first_breakpoint (raster_nodata : R)
  (blocks : list (list R)) (v : R) :
  In v (eligible_population raster_nodata blocks) ->
  (1 <= breakpoints_le (percentile_values raster_nodata blocks) v)%nat.
Proof.
  intros Hin.
  assert (Hone : (1 <= length (eligible_population raster_nodata blocks))%nat).
  { destruct (eligible_population raster_nodata blocks); [ easy | simpl; lia ]. }
  destruct (percentile_values_head raster_nodata blocks Hone)
    as [b [Hhead [_ Hleast]]].
  apply (proj1 (Forall_forall _ _) Hleast) in Hin.
  destruct (percentile_values raster_nodata blocks) as [| b' bins];
    [ discriminate | ].
  injection Hhead as ->. unfold breakpoints_le. simpl.
  replace (Rleb b v) with true by (symmetry; now apply Rleb_true).
  simpl. lia.
Qed.

Lemma pixel_at_in_concat (A : Type) (raster : list (list A)) (k i : nat)
  (v : A) :
  pixel_at raster k i = Some v -> In v (concat raster).
Proof.
  unfold pixel_at. destruct (nth_error raster k) as [block |] eqn:Hblock;
    [ | discriminate ].
  intros Hv. apply in_concat. exists block.
  split; eapply nth_error_In; eassumption.
Qed.

Lemma written_class_of_eligible_pixel (raster_nodata : R)
  (blocks : list (list R)) (k i : nat) (v : R) :
  pixel_at blocks k i = Some v -> v <> raster_nodata -> v <> 0%R ->
  pixel_at
    (map (fun block =>
            map (fun v =>
                   band_byte
                     (pixel_bucket raster_nodata
                        (percentile_values raster_nodata blocks) v))
                block)
         blocks) k i =
  Some (Z.of_nat
          (breakpoints_le (percentile_values raster_nodata blocks) v)).
Proof.
  intros Hv Hvalid Hnonzero.
  destruct (percentile_values_ascending raster_nodata blocks)
    as [Hsorted Hfour].
  unfold pixel_at in *. rewrite nth_error_map.
  destruct (nth_error blocks k) as [block |]; [ | discriminate ].
  simpl. rewrite nth_error_map, Hv. simpl. f_equal.
  rewrite pixel_bucket_of_value by (auto; lia).
  unfold band_byte.
  pose proof (breakpoints_le_bound
                (percentile_values raster_nodata blocks) v).
  apply Z.mod_small. lia.
Qed.

(** X10.  In the classified raster an eligible (non-zero, non-no-data)
    pixel is never written as 0 or as 255: its class lies between 1 and
    4; and of two eligible pixels the one with the larger value never
    gets the smaller class. *)
Theorem eligible_pixels_get_classes_one_to_four
  (raster_nodata : R) (blocks : list (list R)) :
  exists written,
    visual_quality_raster raster_nodata blocks = Some written /\
    forall (k i : nat) (v : R),
      pixel_at blocks k i = Some v -> v <> raster_nodata -> v <> 0%R ->
      exists class,
        pixel_at written k i = Some class /\
        (1 <= class <= 4)%Z /\
        forall (k' i' : nat) (v' : R) (class' : Z),
          pixel_at blocks k' i' = Some v' ->
          v' <> raster_nodata -> v' <> 0%R ->
          pixel_at written k' i' = Some class' ->
          (v <= v')%R -> (class <= class')%Z.
Proof.
  eexists. split; [ apply visual_quality_raster_pixels | ].
  intros k i v Hv Hvalid Hnonzero.
  exists (Z.of_nat
            (breakpoints_le (percentile_values raster_nodata blocks) v)).
  split; [ now apply written_class_of_eligible_pixel | ].
  split.
  - assert (Hin : In v (eligible_population raster_nodata blocks)).
    { apply filter_In. split; [ eapply pixel_at_in_concat; eassumption | ].
      apply andb_true_intro. split; now apply Rneb_true. }
    pose proof (eligible_pixel_reaches_first_breakpoint _ _ _ Hin).
    pose proof (breakpoints_le_bound
                  (percentile_values raster_nodata blocks) v).
    destruct (percentile_values_ascending raster_nodata blocks) as [_ ?].
    lia.
  - intros k' i' v' class' Hv' Hvalid' Hnonzero' Hclass' Hle.
    rewrite (@written_class_of_eligible_pixel raster_nodata blocks k' i' v')
      in Hclass' by assumption.
    injection Hclass' as <-.
    apply Nat2Z.inj_le. now apply breakpoints_le_monotone.
Qed.

(** ** A failed removal of the temporary directory *)

Lemma quality_result_whatever_cleanup (h : quality_host) (raster_nodata : R)
  (blocks : list (list R)) (working_dir : String.string) (w : world)
  (written : list (list Z)) :
  quality_get_raster_info h = Return tt ->
  quality_spill h = Return tt ->
  quality_merge h = Return tt ->
  quality_rmtree h = Return tt \/ quality_rmtree h = Raise OSError ->
  quality_raster_calculator h = Return tt ->
  visual_quality_raster raster_nodata blocks = Some written ->
  fst (_calculate_visual_quality h raster_nodata blocks working_dir w) =
  Return written.
Proof.
  intros Hi Hs Hm Hrm Hc Hq. unfold visual_quality_raster in Hq.
  unfold _calculate_visual_quality, bind, mkdtemp, logger, call,
    try_except_OSError, rmtree, path_exists, makedirs, ret, raise.
  rewrite Hi, Hs, Hm, Hc, Hq.
  cbn [fst snd dirs logged graph_built tasks].
  destruct (existsb (String.eqb working_dir) (dirs w));
    destruct Hrm as [-> | ->]; reflexivity.
Qed.

Lemma quality_rmtree_failure_logged (h : quality_host) (raster_nodata : R)
  (blocks : list (list R)) (working_dir : String.string) (w : world) :
  quality_get_raster_info h = Return tt ->
  quality_spill h = Return tt ->
  quality_merge h = Return tt ->
  quality_rmtree h = Raise OSError ->
  In (quality_temp_dir h working_dir)
     (dirs (snd (_calculate_visual_quality h raster_nodata blocks
                   working_dir w))) /\
  In "Unable to remove temporary directory"%string
     (logged (snd (_calculate_visual_quality h raster_nodata blocks
                     working_dir w))).
Proof.
  intros Hi Hs Hm Hrm.
  unfold _calculate_visual_quality, bind, mkdtemp, logger, call,
    try_except_OSError, rmtree, path_exists, makedirs, ret, raise.
  rewrite Hi, Hs, Hm, Hrm. unfold quality_temp_dir.
  cbn [fst snd dirs logged graph_built tasks].
  destruct (existsb (String.eqb working_dir) (dirs w));
    destruct (quality_raster_calculator h);
    try destruct (raster_calculator_byte _ _);
    cbn [fst snd dirs logged]; split;
    try (now left); right; now left.
Qed.

(** X11.  When [shutil.rmtree] fails with [OSError] the failure is
    logged and goes no further: [_clip_and_mask_dem] returns normally,
    and [_calculate_visual_quality] returns the same classified raster
    as when the removal succeeds; the directory is then still there. *)
Theorem failed_cleanup_is_logged_not_raised :
  (forall (h : clip_host) (working_dir : String.string) (w : world),
     clip_get_vector_info h = Return tt ->
     clip_get_raster_info h = Return tt ->
     clip_warp_raster h = Return tt ->
     clip_new_raster_from_base h = Return tt ->
     clip_rasterize h = Return tt ->
     clip_raster_calculator h = Return tt ->
     clip_rmtree h = Raise OSError ->
     fst (_clip_and_mask_dem h working_dir w) = Return tt /\
     In (clip_temp_dir h working_dir)
        (dirs (snd (_clip_and_mask_dem h working_dir w))) /\
     hd_error (logged (snd (_clip_and_mask_dem h working_dir w))) =
     Some "Could not remove temp directory"%string) /\
  (forall (h : quality_host) (raster_nodata : R) (blocks : list (list R))
          (working_dir : String.string) (w : world),
     quality_get_raster_info h = Return tt ->
     quality_spill h = Return tt ->
     quality_merge h = Return tt ->
     quality_raster_calculator h = Return tt ->
     exists written,
       visual_quality_raster raster_nodata blocks = Some written /\
       (quality_rmtree h = Return tt \/ quality_rmtree h = Raise OSError ->
        fst (_calculate_visual_quality h raster_nodata blocks
               working_dir w) = Return written) /\
       (quality_rmtree h = Raise OSError ->
        In (quality_temp_dir h working_dir)
           (dirs (snd (_calculate_visual_quality h raster_nodata blocks
                         working_dir w))) /\
        In "Unable to remove temporary directory"%string
           (logged (snd (_calculate_visual_quality h raster_nodata blocks
                           working_dir w))))).
Proof.
  split.
  - intros. now apply clip_rmtree_failure_logged.
  - intros h raster_nodata blocks working_dir w Hi Hs Hm Hc.
    eexists. split; [ apply visual_quality_raster_pixels | ]. split.
    + intros Hrm. apply quality_result_whatever_cleanup; auto.
      apply visual_quality_raster_pixels.
    + intros Hrm. now apply quality_rmtree_failure_logged.
Qed.

(** A run of [_clip_and_mask_dem] whose directory cannot be removed. *)
Lemma failed_cleanup_is_logged_not_raised_witness :
  fst (_clip_and_mask_dem
         {| clip_tmp_suffix := "k3x9"%string;
            clip_get_vector_info := Return tt;
            clip_get_raster_info := Return tt;
            clip_warp_raster := Return tt;
            clip_new_raster_from_base := Return tt;
            clip_rasterize := Return tt;
            clip_raster_calculator := Return tt;
            clip_rmtree := Raise OSError |}
         "ws/intermediate"%string
         {| dirs := ["ws/intermediate"%string]; logged := [];
            graph_built := true; tasks := [clip_dem_to_aoi] |}) =
  Return tt.
Proof.
  apply (proj1 failed_cleanup_is_logged_not_raised
           {| clip_tmp_suffix := "k3x9"%string;
              clip_get_vector_info := Return tt;
              clip_get_raster_info := Return tt;
              clip_warp_raster := Return tt;
              clip_new_raster_from_base := Return tt;
              clip_rasterize := Return tt;
              clip_raster_calculator := Return tt;
              clip_rmtree := Raise OSError |}
           "ws/intermediate"%string
           {| dirs := ["ws/intermediate"%string]; logged := [];
              graph_built := true; tasks := [clip_dem_to_aoi] |}
           eq_refl eq_refl eq_refl eq_refl eq_refl eq_refl eq_refl).
Defined.

(** ** The pixel under a viewpoint *)

Lemma int_of_float_floor (x : R) (k : nat) :
  (IZR (Z.of_nat k) <= x < IZR (Z.of_nat k) + 1)%R ->
  int_of_float x = Z.of_nat k.
Proof.
  intros [Hlow Hhigh]. unfold int_of_float.
  assert (H0 : (0 <= IZR (Z.of_nat k))%R) by (apply IZR_le; lia).
  destruct (Rle_dec 0 x) as [_ | Hneg]; [ | lra ].
  symmetry. apply Int_part_spec. lra.
Qed.

(** X12.  For a north-up DEM with a no-data value (pixel width positive,
    pixel height negative) and a viewpoint that lies in the pixel of
    column [col] and row [row], [_viewpoint_over_nodata] tells whether
    that very pixel holds the no-data value; it is [False] when the
    raster has no such pixel. *)
Theorem viewpoint_over_nodata_reads_its_pixel
  (viewpoint : R * R) (dem : dem_raster) (nodata : R)
  (gt0 gt1 gt2 gt3 gt4 gt5 : R) (col row : nat) :
  GetGeoTransform dem = (gt0, gt1, gt2, gt3, gt4, gt5) ->
  GetNoDataValue dem = Some nodata ->
  (0 < gt1)%R -> (gt5 < 0)%R ->
  (gt0 + IZR (Z.of_nat col) * gt1 <= fst viewpoint
   < gt0 + (IZR (Z.of_nat col) + 1) * gt1)%R ->
  (gt3 + (IZR (Z.of_nat row) + 1) * gt5 < snd viewpoint
   <= gt3 + IZR (Z.of_nat row) * gt5)%R ->
  _viewpoint_over_nodata viewpoint dem =
  match ReadAsArray dem (Z.of_nat col) (Z.of_nat row) with
  | Some value => Reqb value nodata
  | None => false
  end.
Proof.
  intros Hgt Hnodata Hwidth Hheight [Hx1 Hx2] [Hy1 Hy2].
  unfold _viewpoint_over_nodata. rewrite Hgt, Hnodata.
  assert (Hcol : int_of_float ((fst viewpoint - gt0) / gt1) =
                 Z.of_nat col).
  { apply int_of_float_floor.
    set (q := ((fst viewpoint - gt0) / gt1)%R).
    assert (Hq : (fst viewpoint - gt0 = q * gt1)%R)
      by (unfold q; field; lra).
    split; nra. }
  assert (Hrow : int_of_float ((snd viewpoint - gt3) / gt5) =
                 Z.of_nat row).
  { apply int_of_float_floor.
    set (q := ((snd viewpoint - gt3) / gt5)%R).
    assert (Hq : (snd viewpoint - gt3 = q * gt5)%R)
      by (unfold q; field; lra).
    split; nra. }
  rewrite Hcol, Hrow.
  destruct (ReadAsArray dem (Z.of_nat col) (Z.of_nat row)) as [value |];
    auto.
  now destruct (Reqb value nodata).
Qed.

(** A viewpoint in column 3, row 2 of a DEM of 30 m pixels whose pixels
    of column 3 are no-data. *)
Lemma viewpoint_over_nodata_reads_its_pixel_witness :
  _viewpoint_over_nodata (100, -75)%R
    {| bounding_box := (0, -300, 300, 0)%R;
       mean_pixel_size := 30;
       GetNoDataValue := Some (-1)%R;
       GetGeoTransform := (0, 30, 0, 0, 0, -30)%R;
       ReadAsArray := fun ix _ =>
         if (ix =? 3)%Z then Some (-1)%R else Some 100%R |} =
  Reqb (-1) (-1).
Proof.
  apply (@viewpoint_over_nodata_reads_its_pixel (100, -75)%R
           {| bounding_box := (0, -300, 300, 0)%R;
              mean_pixel_size := 30;
              GetNoDataValue := Some (-1)%R;
              GetGeoTransform := (0, 30, 0, 0, 0, -30)%R;
              ReadAsArray := fun ix _ =>
                if (ix =? 3)%Z then Some (-1)%R else Some 100%R |}
           (-1)%R 0 30 0 0 0 (-30)%R 3 2 eq_refl eq_refl);
    simpl; lra.
Defined.

(** ** [execute]: the number of workers *)

Lemma n_workers_of_returns (h : execute_host) (args : args_dict) (w : world) :
  (forall negative,
     lookup "n_workers"%string args <> Some (PyFloat (Infinity negative))) ->
  exists z, n_workers_of h args w = (Return z, w).
Proof.
  intros Hfinite.
  unfold n_workers_of, bind, getitem, call, ret, raise.
  destruct (lookup "n_workers"%string args)
    as [[s | [x | negative |] | z |] |];
    simpl; eauto.
  - destruct (int_of_string h s); eauto.
  - now destruct (Hfinite negative).
Qed.

(** X13.  Reading [n_workers] changes nothing, and the [except] clause
    catches all but one failure of [int]: a missing key, [None], a
    string that is no integer and a float that is [nan] all give 0
    workers, an integer gives itself and a float its integer part; an
    infinite float raises [OverflowError], which is not caught and ends
    the reading; every other value gives a number. *)
Theorem n_workers_defaults_to_zero
  (h : execute_host) (args : args_dict) (w : world) :
  (lookup "n_workers"%string args = None ->
   n_workers_of h args w = (Return 0%Z, w)) /\
  (lookup "n_workers"%string args = Some PyNone ->
   n_workers_of h args w = (Return 0%Z, w)) /\
  (forall s, lookup "n_workers"%string args = Some (PyStr s) ->
             int_of_string h s = None ->
             n_workers_of h args w = (Return 0%Z, w)) /\
  (lookup "n_workers"%string args = Some (PyFloat NaN) ->
   n_workers_of h args w = (Return 0%Z, w)) /\
  (forall z, lookup "n_workers"%string args = Some (PyInt z) ->
             n_workers_of h args w = (Return z, w)) /\
  (forall x, lookup "n_workers"%string args = Some (PyFloat (Finite x)) ->
             n_workers_of h args w = (Return (int_of_float x), w)) /\
  (forall negative,
     lookup "n_workers"%string args = Some (PyFloat (Infinity negative)) ->
     n_workers_of h args w = (Raise OverflowError, w)) /\
  ((forall negative,
      lookup "n_workers"%string args <>
      Some (PyFloat (Infinity negative))) ->
   exists z, n_workers_of h args w = (Return z, w)).
Proof.
  unfold n_workers_of, bind, getitem, call, ret, raise.
  repeat split.
  - intros ->. reflexivity.
  - intros ->. reflexivity.
  - intros s -> Hs. simpl. now rewrite Hs.
  - intros ->. reflexivity.
  - intros z ->. reflexivity.
  - intros x ->. reflexivity.
  - intros negative ->. reflexivity.
  - intros Hfinite.
    destruct (@n_workers_of_returns h args w Hfinite) as [z Hz].
    exists z. exact Hz.
Qed.

(** ** [execute]: the tasks of a run *)

Lemma select_valuation_method_returns (dem : dem_raster) (args : args_dict)
  (f : String.string) (w : world) :
  lookup "valuation_function"%string args = Some (PyStr f) ->
  starts_with_a_method f = true ->
  exists m w',
    select_valuation_method dem args w = (Return m, w') /\
    dirs w' = dirs w /\ tasks w' = tasks w /\
    graph_built w' = graph_built w.
Proof.
  intros Hf Hmethod.
  unfold select_valuation_method, bind, getitem, startswith, ret, raise,
    logger.
  rewrite Hf. unfold starts_with_a_method in Hmethod.
  destruct (String.prefix "linear" f); [ eauto 10 | ].
  destruct (String.prefix "logarithmic" f).
  - destruct (Rltb (mean_pixel_size dem) 1); eauto 10.
  - destruct (String.prefix "exponential" f); [ eauto 10 | discriminate ].
Qed.

Lemma viewshed_task_names_cons (feature_index n : nat) :
  viewshed_task_names feature_index (S n) =
  calculate_visibility feature_index
  :: calculate_valuation_for_viewshed feature_index
  :: viewshed_task_names (S feature_index) n.
Proof. reflexivity. Qed.

Lemma add_viewshed_tasks_names (h : execute_host) (args : args_dict)
  (refraction : pyval) (x : pyfloat) :
  lookup "refraction"%string args = Some refraction ->
  float h refraction = Return x ->
  forall (viewpoint_tuples : list (R * R)) (feature_index : nat) (w : world),
    add_viewshed_tasks h args viewpoint_tuples feature_index w =
    (Return tt,
     {| dirs := dirs w; logged := logged w; graph_built := graph_built w;
        tasks := rev (viewshed_task_names feature_index
                        (length viewpoint_tuples)) ++ tasks w |}).
Proof.
  intros Hkey Hfloat.
  induction viewpoint_tuples as [| viewpoint viewpoint_tuples IH];
    intros feature_index w.
  - destruct w; reflexivity.
  - cbn [add_viewshed_tasks length].
    unfold bind, getitem, call, add_task, ret.
    rewrite Hkey, Hfloat, IH. cbn [dirs logged graph_built tasks].
    rewrite viewshed_task_names_cons. cbn [rev].
    now rewrite <- !app_assoc.
Qed.

Section RunOfExecute.

Variable h : execute_host.
Variable args : args_dict.
Variable w : world.
Variables dem_path a_coef b_coef radius aoi_path structure_path : pyval.
Variable dem : dem_raster.
Variables a b r : pyfloat.
Variables f workspace_dir : String.string.

Hypothesis Hdem_path : lookup "dem_path"%string args = Some dem_path.
Hypothesis Hdem : get_raster_info h dem_path = Return dem.
Hypothesis Ha_coef : lookup "a_coef"%string args = Some a_coef.
Hypothesis Ha : float h a_coef = Return a.
Hypothesis Hb_coef : lookup "b_coef"%string args = Some b_coef.
Hypothesis Hb : float h b_coef = Return b.
Hypothesis Hfunction :
  lookup "valuation_function"%string args = Some (PyStr f).
Hypothesis Hmethod : starts_with_a_method f = true.
Hypothesis Hworkspace :
  lookup "workspace_dir"%string args = Some (PyStr workspace_dir).
Hypothesis Hradius :
  lookup "max_valuation_radius"%string args = Some radius.
Hypothesis Hr : float h radius = Return r.
Hypothesis Hworkers :
  forall negative,
    lookup "n_workers"%string args <> Some (PyFloat (Infinity negative)).

(** With these arguments [execute] gets as far as constructing the
    graph: what is left to run starts in a world [w1] whose graph exists
    and whose directories are the two of the workspace. *)
Lemma execute_constructs_graph :
  exists (w1 : world) (rest : M unit),
    execute h args w = rest w1 /\
    graph_built w1 = true /\ tasks w1 = tasks w /\
    dirs w1 = path_join workspace_dir "intermediate"%string
              :: path_join workspace_dir "output"%string :: dirs w /\
    rest =
    (_ <- getitem args "aoi_path"%string ;;
     _ <- add_task reproject_aoi_to_dem ;;
     _ <- getitem args "structure_path"%string ;;
     _ <- add_task reproject_structures_to_dem ;;
     _ <- add_task clip_reprojected_structures_to_aoi ;;
     _ <- getitem args "dem_path"%string ;;
     _ <- add_task clip_dem_to_aoi ;;
     _ <- logger "Waiting for clipping to finish"%string ;;
     _ <- call (clipped_dem_task_join h) ;;
     _ <- call (clipped_viewpoints_task_join h) ;;
     _ <- logger "Setting up viewshed tasks"%string ;;
     points <- call (structures_points h) ;;
     _ <- add_viewshed_tasks h args
            (filter (viewpoint_kept dem) points) 0 ;;
     _ <- add_task add_up_valuation_rasters ;;
     _ <- add_task sum_visibility_for_all_structures ;;
     _ <- add_task calculate_visual_quality ;;
     _ <- logger "Waiting for Scenic Quality tasks to complete."%string ;;
     call (graph_join h)).
Proof.
  unfold execute.
  unfold bind at 1. unfold logger at 1.
  unfold bind at 1. unfold getitem at 1. rewrite Hdem_path. unfold ret at 1.
  unfold bind at 1. unfold call at 1. rewrite Hdem.
  unfold bind at 1. unfold getitem at 1. rewrite Ha_coef. unfold ret at 1.
  unfold bind at 1. unfold call at 1. rewrite Ha.
  unfold bind at 1. unfold getitem at 1. rewrite Hb_coef. unfold ret at 1.
  unfold bind at 1. unfold call at 1. rewrite Hb.
  unfold bind at 1.
  match goal with
  | |- context [select_valuation_method dem args ?w0] =>
      destruct (@select_valuation_method_returns dem args f w0
                  Hfunction Hmethod)
        as (m & w' & Hselect & Hdirs & Htasks & Hgraph)
  end.
  rewrite Hselect.
  unfold bind at 1. unfold getitem at 1. rewrite Hworkspace. unfold ret at 1.
  unfold bind at 1. unfold os_path_join at 1. unfold ret at 1.
  unfold bind at 1. unfold getitem at 1. rewrite Hworkspace. unfold ret at 1.
  unfold bind at 1. unfold os_path_join at 1. unfold ret at 1.
  unfold bind at 1. unfold makedirs at 1.
  unfold bind at 1. unfold makedirs at 1.
  unfold bind at 1. unfold logger at 1.
  unfold bind at 1. unfold getitem at 1. rewrite Hradius. unfold ret at 1.
  unfold bind at 1. unfold call at 1. rewrite Hr.
  unfold bind at 1.
  match goal with
  | |- context [n_workers_of h args ?w0] =>
      destruct (@n_workers_of_returns h args w0 Hworkers)
        as [n_workers Hn_workers]
  end.
  rewrite Hn_workers.
  unfold bind at 1. unfold TaskGraph at 1.
  cbn [dirs logged graph_built tasks] in *.
  eexists. eexists. split; [ reflexivity | ].
  cbn [dirs logged graph_built tasks].
  rewrite Hdirs, Htasks. repeat split.
Qed.

End RunOfExecute.

(** A run of [execute] in which nothing raises. *)
Lemma execute_run
  (h : execute_host) (args : args_dict) (w : world)
  (dem_path a_coef b_coef radius aoi_path structure_path refraction : pyval)
  (dem : dem_raster) (a b r x : pyfloat)
  (f workspace_dir : String.string)
  (points : list (R * R)) :
  lookup "dem_path"%string args = Some dem_path ->
  get_raster_info h dem_path = Return dem ->
  lookup "a_coef"%string args = Some a_coef ->
  float h a_coef = Return a ->
  lookup "b_coef"%string args = Some b_coef ->
  float h b_coef = Return b ->
  lookup "valuation_function"%string args = Some (PyStr f) ->
  starts_with_a_method f = true ->
  lookup "workspace_dir"%string args = Some (PyStr workspace_dir) ->
  lookup "max_valuation_radius"%string args = Some radius ->
  float h radius = Return r ->
  (forall negative,
     lookup "n_workers"%string args <> Some (PyFloat (Infinity negative))) ->
  lookup "aoi_path"%string args = Some aoi_path ->
  lookup "structure_path"%string args = Some structure_path ->
  lookup "refraction"%string args = Some refraction ->
  float h refraction = Return x ->
  clipped_dem_task_join h = Return tt ->
  clipped_viewpoints_task_join h = Return tt ->
  structures_points h = Return points ->
  graph_join h = Return tt ->
  fst (execute h args w) = Return tt /\
  graph_built (snd (execute h args w)) = true /\
  dirs (snd (execute h args w)) =
  path_join workspace_dir "intermediate"%string
  :: path_join workspace_dir "output"%string :: dirs w /\
  rev (tasks (snd (execute h args w))) =
  rev (tasks w) ++
  [reproject_aoi_to_dem; reproject_structures_to_dem;
   clip_reprojected_structures_to_aoi; clip_dem_to_aoi] ++
  viewshed_task_names 0 (length (filter (viewpoint_kept dem) points)) ++
  [add_up_valuation_rasters; sum_visibility_for_all_structures;
   calculate_visual_quality].
Proof.
  intros Hdem_path Hdem Ha_coef Ha Hb_coef Hb Hfunction Hmethod Hworkspace
    Hradius Hr Hworkers Haoi Hstructure Hrefraction Hx Hjoin1 Hjoin2
    Hpoints Hjoin.
  destruct (execute_constructs_graph h args w Hdem_path Hdem Ha_coef Ha
              Hb_coef Hb Hfunction Hmethod Hworkspace Hradius Hr Hworkers)
    as (w1 & rest & -> & Hgraph & Htasks & Hdirs & ->).
  unfold bind, getitem, add_task, logger, call, ret.
  rewrite Haoi, Hstructure, Hdem_path, Hjoin1, Hjoin2, Hpoints.
  cbn [fst snd dirs logged graph_built tasks].
  rewrite (add_viewshed_tasks_names h args Hrefraction Hx).
  rewrite Hjoin. cbn [fst snd dirs logged graph_built tasks].
  repeat split; auto.
  rewrite Htasks. cbn [rev].
  rewrite !rev_app_distr, rev_involutive. cbn [rev app].
  now rewrite <- !app_assoc.
Qed.

(** X14.  A run of [execute] in which the arguments are present and
    numeric, [n_workers] is not an infinite float, the valuation
    function is recognized and no call raises: it returns, the two directories of the workspace are made, and the
    tasks added are the four of the first phase, then for each structure
    point that is within the DEM and not over no-data one visibility
    task and one valuation task numbered from 0 in order, then the three
    final tasks; a skipped point gets no task and takes no number. *)
Theorem execute_adds_two_tasks_per_kept_viewpoint
  (h : execute_host) (args : args_dict) (w : world)
  (dem_path a_coef b_coef radius aoi_path structure_path refraction : pyval)
  (dem : dem_raster) (a b r x : pyfloat)
  (f workspace_dir : String.string)
  (points : list (R * R)) :
  lookup "dem_path"%string args = Some dem_path ->
  get_raster_info h dem_path = Return dem ->
  lookup "a_coef"%string args = Some a_coef ->
  float h a_coef = Return a ->
  lookup "b_coef"%string args = Some b_coef ->
  float h b_coef = Return b ->
  lookup "valuation_function"%string args = Some (PyStr f) ->
  starts_with_a_method f = true ->
  lookup "workspace_dir"%string args = Some (PyStr workspace_dir) ->
  lookup "max_valuation_radius"%string args = Some radius ->
  float h radius = Return r ->
  (forall negative,
     lookup "n_workers"%string args <> Some (PyFloat (Infinity negative))) ->
  lookup "aoi_path"%string args = Some aoi_path ->
  lookup "structure_path"%string args = Some structure_path ->
  lookup "refraction"%string args = Some refraction ->
  float h refraction = Return x ->
  clipped_dem_task_join h = Return tt ->
  clipped_viewpoints_task_join h = Return tt ->
  structures_points h = Return points ->
  graph_join h = Return tt ->
  fst (execute h args w) = Return tt /\
  graph_built (snd (execute h args w)) = true /\
  dirs (snd (execute h args w)) =
  path_join workspace_dir "intermediate"%string
  :: path_join workspace_dir "output"%string :: dirs w /\
  rev (tasks (snd (execute h args w))) =
  rev (tasks w) ++
  [reproject_aoi_to_dem; reproject_structures_to_dem;
   clip_reprojected_structures_to_aoi; clip_dem_to_aoi] ++
  viewshed_task_names 0 (length (filter (viewpoint_kept dem) points)) ++
  [add_up_valuation_rasters; sum_visibility_for_all_structures;
   calculate_visual_quality].
Proof. intros. eapply execute_run; eassumption. Qed.

Lemma run_args_n_workers (negative : bool) :
  lookup "n_workers"%string run_args <> Some (PyFloat (Infinity negative)).
Proof. discriminate. Qed.

(** The run of [run_host] on [run_args]. *)
Lemma execute_adds_two_tasks_per_kept_viewpoint_witness :
  fst (execute (run_host (Return tt)) run_args new_world) = Return tt /\
  graph_built (snd (execute (run_host (Return tt)) run_args new_world)) =
  true.
Proof.
  destruct (@execute_adds_two_tasks_per_kept_viewpoint
              (run_host (Return tt)) run_args new_world
              (PyStr "dem.tif"%string) (PyFloat (Finite 1))
              (PyFloat (Finite 0)) (PyFloat (Finite 8000))
              (PyStr "aoi.shp"%string) (PyStr "structures.shp"%string)
              (PyFloat (Finite (13 / 100)))
              {| bounding_box := (0, -300, 300, 0)%R;
                 mean_pixel_size := 30;
                 GetNoDataValue := Some (-1)%R;
                 GetGeoTransform := (0, 30, 0, 0, 0, -30)%R;
                 ReadAsArray := fun _ _ => Some 100%R |}
              (Finite 1) (Finite 0) (Finite 8000) (Finite (13 / 100))
              "linear"%string "ws"%string [(15, -15)%R]
              eq_refl eq_refl eq_refl eq_refl eq_refl eq_refl eq_refl
              eq_refl eq_refl eq_refl eq_refl run_args_n_workers
              eq_refl eq_refl eq_refl eq_refl eq_refl eq_refl eq_refl
              eq_refl)
    as (Hreturn & Hgraph & _).
  split; assumption.
Defined.

(** X15.  When the statements before it succeed and the join on the
    task that clips the DEM raises, [execute] ends with that exception: the graph holds the four tasks of the
    first phase and no task of any viewpoint. *)
Theorem execute_stops_at_a_failed_clip
  (h : execute_host) (args : args_dict) (w : world)
  (dem_path a_coef b_coef radius aoi_path structure_path : pyval)
  (dem : dem_raster) (a b r : pyfloat)
  (f workspace_dir : String.string)
  (e : exn) :
  lookup "dem_path"%string args = Some dem_path ->
  get_raster_info h dem_path = Return dem ->
  lookup "a_coef"%string args = Some a_coef ->
  float h a_coef = Return a ->
  lookup "b_coef"%string args = Some b_coef ->
  float h b_coef = Return b ->
  lookup "valuation_function"%string args = Some (PyStr f) ->
  starts_with_a_method f = true ->
  lookup "workspace_dir"%string args = Some (PyStr workspace_dir) ->
  lookup "max_valuation_radius"%string args = Some radius ->
  float h radius = Return r ->
  (forall negative,
     lookup "n_workers"%string args <> Some (PyFloat (Infinity negative))) ->
  lookup "aoi_path"%string args = Some aoi_path ->
  lookup "structure_path"%string args = Some structure_path ->
  clipped_dem_task_join h = Raise e ->
  fst (execute h args w) = Raise e /\
  tasks (snd (execute h args w)) =
  [clip_dem_to_aoi; clip_reprojected_structures_to_aoi;
   reproject_structures_to_dem; reproject_aoi_to_dem] ++ tasks w.
Proof.
  intros Hdem_path Hdem Ha_coef Ha Hb_coef Hb Hfunction Hmethod Hworkspace
    Hradius Hr Hworkers Haoi Hstructure Hjoin1.
  destruct (execute_constructs_graph h args w Hdem_path Hdem Ha_coef Ha
              Hb_coef Hb Hfunction Hmethod Hworkspace Hradius Hr Hworkers)
    as (w1 & rest & -> & Hgraph & Htasks & Hdirs & ->).
  unfold bind, getitem, add_task, logger, call, ret.
  rewrite Haoi, Hstructure, Hdem_path, Hjoin1.
  cbn [fst snd dirs logged graph_built tasks].
  now rewrite Htasks.
Qed.

(** The run of [run_host] with a failing clip of the DEM. *)
Lemma execute_stops_at_a_failed_clip_witness :
  fst (execute (run_host (Raise RuntimeError)) run_args new_world) =
  Raise RuntimeError /\
  tasks (snd (execute (run_host (Raise RuntimeError)) run_args new_world)) =
  [clip_dem_to_aoi; clip_reprojected_structures_to_aoi;
   reproject_structures_to_dem; reproject_aoi_to_dem] ++ [].
Proof.
  apply (@execute_stops_at_a_failed_clip
           (run_host (Raise RuntimeError)) run_args new_world
           (PyStr "dem.tif"%string) (PyFloat (Finite 1))
           (PyFloat (Finite 0)) (PyFloat (Finite 8000))
           (PyStr "aoi.shp"%string) (PyStr "structures.shp"%string)
           {| bounding_box := (0, -300, 300, 0)%R;
              mean_pixel_size := 30;
              GetNoDataValue := Some (-1)%R;
              GetGeoTransform := (0, 30, 0, 0, 0, -30)%R;
              ReadAsArray := fun _ _ => Some 100%R |}
           (Finite 1) (Finite 0) (Finite 8000) "linear"%string "ws"%string
           RuntimeError);
    try reflexivity; apply run_args_n_workers.
Defined.

(** ** [validate] *)

Ltac reassociate :=
  repeat match goal with
         | |- context [(?a ++ ?b) ++ ?c] => rewrite <- (app_assoc a b c)
         end.

Lemma fold_left_appends (A B : Type) (step : list A -> B -> list A)
  (items : list B) :
  (forall acc item, step acc item = acc ++ step [] item) ->
  forall acc,
    fold_left step items acc = acc ++ flat_map (step []) items.
Proof.
  intros Hstep. induction items as [| item items IH]; intros acc; simpl.
  - now rewrite app_nil_r.
  - now rewrite IH, Hstep, <- app_assoc.
Qed.

Lemma check_spatial_file_appends (g : gdal_host) (args : args_dict)
  (acc : list (list String.string * String.string))
  (file : String.string * filetype * String.string) :
  check_spatial_file g args acc file =
  acc ++ check_spatial_file g args [] file.
Proof.
  destruct file as [[key filetype] filetype_string].
  unfold check_spatial_file.
  destruct (lookup key args) as [v |]; [ | now rewrite app_nil_r ].
  destruct (has_no_value v); [ now rewrite app_nil_r | ].
  destruct (OpenEx g v filetype); [ now rewrite app_nil_r | reflexivity ].
Qed.

Lemma check_numeric_key_appends (h : execute_host) (args : args_dict)
  (limit_to : option String.string)
  (acc : list (list String.string * String.string)) (key : String.string) :
  check_numeric_key h args limit_to acc key =
  acc ++ check_numeric_key h args limit_to [] key.
Proof.
  unfold check_numeric_key.
  destruct (negb (limited_to limit_to key)); [ now rewrite app_nil_r | ].
  destruct (lookup key args) as [v |]; [ | now rewrite app_nil_r ].
  destruct (float h v) as [x | [msg | k | | | | |]];
    try (now rewrite app_nil_r); reflexivity.
Qed.

(** The two lists of the loop over the required keys. *)
Lemma check_required_keys_lists (args : args_dict)
  (limit_to : option String.string) (keys : list String.string) :
  forall missing no_value : list String.string,
    fold_left (check_required_key args limit_to) keys (missing, no_value) =
    (missing ++
     filter (fun key =>
               limited_to limit_to key
               && match lookup key args with
                  | None => true
                  | Some _ => false
                  end) keys,
     no_value ++
     filter (fun key =>
               limited_to limit_to key
               && match lookup key args with
                  | None => false
                  | Some v => has_no_value v
                  end) keys).
Proof.
  induction keys as [| key keys IH]; intros missing no_value.
  - simpl. now rewrite !app_nil_r.
  - cbn [fold_left filter].
    assert (Hstep : check_required_key args limit_to (missing, no_value) key
                    = (missing ++
                       (if limited_to limit_to key
                           && match lookup key args with
                              | None => true
                              | Some _ => false
                              end
                        then [key] else []),
                       no_value ++
                       (if limited_to limit_to key
                           && match lookup key args with
                              | None => false
                              | Some v => has_no_value v
                              end
                        then [key] else []))).
    { unfold check_required_key.
      destruct (limited_to limit_to key); simpl;
        [ | now rewrite !app_nil_r ].
      destruct (lookup key args) as [v |];
        [ destruct (has_no_value v) | ]; now rewrite ?app_nil_r. }
    rewrite Hstep, IH.
    destruct (limited_to limit_to key
              && match lookup key args with
                 | None => true
                 | Some _ => false
                 end),
      (limited_to limit_to key
       && match lookup key args with
          | None => false
          | Some v => has_no_value v
          end);
      cbn [app]; reassociate; reflexivity.
Qed.

Ltac parts_of_the_list :=
  repeat match goal with
         | |- _ /\ _ => split
         | |- true = false -> _ => intros [=]
         | |- false = true -> _ => intros [=]
         | |- _ -> _ => intros _
         | |- exists _, _ => eexists
         end;
  try match goal with
      | H : OpenEx _ _ _ = _ |- _ => rewrite H
      end;
  try match goal with
      | H : (_ || _) = _ |- _ => rewrite H
      end;
  reflexivity.

Lemma ValidateReturn_injective
  (errors errors' : list (list String.string * String.string)) :
  ValidateReturn errors = ValidateReturn errors' -> errors = errors'.
Proof. now intros [=]. Qed.

(** The list [validate] returns, in its five parts: keys without a
    value, the valuation function, the spatial files, the projection of
    the DEM and the numbers. *)
Lemma validate_returned_list (h : execute_host) (g : gdal_host)
  (args : args_dict) (limit_to : option String.string)
  (errors : list (list String.string * String.string)) :
  validate h g args limit_to = ValidateReturn errors ->
  exists no_value function projection,
    errors =
    no_value ++ function
    ++ flat_map (check_spatial_file g args []) spatial_files
    ++ projection
    ++ flat_map (check_numeric_key h args limit_to []) numeric_keys /\
    filter (fun key =>
              limited_to limit_to key
              && match lookup key args with
                 | None => true
                 | Some _ => false
                 end) required_keys = [] /\
    no_value =
    match filter (fun key =>
                    limited_to limit_to key
                    && match lookup key args with
                       | None => false
                       | Some v => has_no_value v
                       end) required_keys with
    | [] => []
    | key :: keys => [(key :: keys, "parameter has no value"%string)]
    end /\
    (limited_to limit_to "valuation_function"%string = true ->
     exists s,
       lookup "valuation_function"%string args = Some (PyStr s) /\
       function =
       if starts_with_a_method s then []
       else [(["valuation_function"%string], "Invalid function"%string)]) /\
    (limited_to limit_to "valuation_function"%string = false ->
     function = []) /\
    (limited_to limit_to "dem_path"%string = true ->
     exists dem_path,
       lookup "dem_path"%string args = Some dem_path /\
       projection =
       if OpenEx g dem_path OF_RASTER
          && (Rltb 5000000 (Rabs (GetLinearUnits g dem_path - 1))
              || negb (IsProjected g dem_path))
       then [(["dem_path"%string], "Must be projected in meters"%string)]
       else []) /\
    (limited_to limit_to "dem_path"%string = false -> projection = []).
Proof.
  unfold validate. rewrite check_required_keys_lists. cbn [app].
  destruct (filter _ required_keys) as [| missing_key missing];
    [ | discriminate ].
  set (no_value :=
         match filter (fun key =>
                         limited_to limit_to key
                         && match lookup key args with
                            | None => false
                            | Some v => has_no_value v
                            end) required_keys with
         | [] => []
         | key :: keys => [(key :: keys, "parameter has no value"%string)]
         end).
  assert (Hno_value :
            match filter (fun key =>
                            limited_to limit_to key
                            && match lookup key args with
                               | None => false
                               | Some v => has_no_value v
                               end) required_keys with
            | [] => []
            | _ :: _ =>
                [(filter (fun key =>
                            limited_to limit_to key
                            && match lookup key args with
                               | None => false
                               | Some v => has_no_value v
                               end) required_keys,
                  "parameter has no value"%string)]
            end = no_value)
    by (unfold no_value; now destruct (filter _ required_keys)).
  rewrite Hno_value. clear Hno_value.
  intros Hreturn. exists no_value.
  destruct (limited_to limit_to "valuation_function"%string) eqn:Hlimit_f.
  - destruct (lookup "valuation_function"%string args)
      as [[s | x | z |] |] eqn:Hf; try discriminate.
    exists (if starts_with_a_method s then []
            else [(["valuation_function"%string],
                   "Invalid function"%string)]).
    assert (Hfunction :
              (if negb (starts_with_a_method s)
               then Return (no_value ++
                            [(["valuation_function"%string],
                              "Invalid function"%string)])
               else Return no_value) =
              Return (no_value ++
                      (if starts_with_a_method s then []
                       else [(["valuation_function"%string],
                              "Invalid function"%string)])))
      by (destruct (starts_with_a_method s); simpl;
          now rewrite ?app_nil_r).
    rewrite Hfunction in Hreturn. clear Hfunction.
    rewrite (fold_left_appends _ _ (check_spatial_file_appends g args))
      in Hreturn.
    destruct (limited_to limit_to "dem_path"%string) eqn:Hlimit_d.
    + destruct (lookup "dem_path"%string args) as [dem_path |] eqn:Hd;
        [ | discriminate ].
      exists (if OpenEx g dem_path OF_RASTER
                 && (Rltb 5000000 (Rabs (GetLinearUnits g dem_path - 1))
                     || negb (IsProjected g dem_path))
              then [(["dem_path"%string],
                     "Must be projected in meters"%string)]
              else []).
      destruct (OpenEx g dem_path OF_RASTER) eqn:Hopen;
        [ destruct (Rltb 5000000 (Rabs (GetLinearUnits g dem_path - 1))
                    || negb (IsProjected g dem_path)) eqn:Hunits | ];
        cbv beta iota delta [andb] in *;
        rewrite (fold_left_appends _ _
                   (check_numeric_key_appends h args limit_to)) in Hreturn;
        apply ValidateReturn_injective in Hreturn; subst errors;
        (split; [ reassociate; reflexivity | ]);
        parts_of_the_list.
    + exists [].
      rewrite (fold_left_appends _ _
                 (check_numeric_key_appends h args limit_to)) in Hreturn.
      apply ValidateReturn_injective in Hreturn; subst errors.
      split; [ reassociate; reflexivity | ].
      parts_of_the_list.
  - exists [].
    rewrite (fold_left_appends _ _ (check_spatial_file_appends g args))
      in Hreturn.
    destruct (limited_to limit_to "dem_path"%string) eqn:Hlimit_d.
    + destruct (lookup "dem_path"%string args) as [dem_path |] eqn:Hd;
        [ | discriminate ].
      exists (if OpenEx g dem_path OF_RASTER
                 && (Rltb 5000000 (Rabs (GetLinearUnits g dem_path - 1))
                     || negb (IsProjected g dem_path))
              then [(["dem_path"%string],
                     "Must be projected in meters"%string)]
              else []).
      destruct (OpenEx g dem_path OF_RASTER) eqn:Hopen;
        [ destruct (Rltb 5000000 (Rabs (GetLinearUnits g dem_path - 1))
                    || negb (IsProjected g dem_path)) eqn:Hunits | ];
        cbv beta iota delta [andb] in *;
        rewrite (fold_left_appends _ _
                   (check_numeric_key_appends h args limit_to)) in Hreturn;
        apply ValidateReturn_injective in Hreturn; subst errors;
        (split; [ reassociate; reflexivity | ]);
        parts_of_the_list.
    + exists [].
      rewrite (fold_left_appends _ _
                 (check_numeric_key_appends h args limit_to)) in Hreturn.
      apply ValidateReturn_injective in Hreturn; subst errors.
      split; [ reassociate; reflexivity | ].
      parts_of_the_list.
Qed.

(** X16. [validate] raises the [KeyError] of the missing keys exactly
    when one of the required keys it is limited to is not in [args], and
    the error then carries every such key, in the order of
    [required_keys]. *)
Theorem validate_key_error_carries_every_missing_key
  (h : execute_host) (g : gdal_host) (args : args_dict)
  (limit_to : option String.string) (keys : list String.string) :
  validate h g args limit_to = ValidateKeyError keys <->
  keys <> [] /\
  keys = filter (fun key =>
                   limited_to limit_to key
                   && match lookup key args with
                      | None => true
                      | Some _ => false
                      end) required_keys.
Proof.
  unfold validate. rewrite check_required_keys_lists. cbn [app].
  destruct (filter _ required_keys) as [| missing_key missing].
  - split; [ | now intros [Hkeys ->] ].
    intros Hraise. exfalso.
    destruct (filter _ required_keys) as [| no_value_key no_value];
      (destruct (limited_to limit_to "valuation_function"%string);
       [ destruct (lookup "valuation_function"%string args)
           as [[s | x | z |] |];
         try discriminate;
         destruct (negb (starts_with_a_method s)) | ]);
      (destruct (limited_to limit_to "dem_path"%string);
       [ destruct (lookup "dem_path"%string args) as [dem_path |];
         try discriminate;
         destruct (OpenEx g dem_path OF_RASTER);
         [ destruct (Rltb 5000000 (Rabs (GetLinearUnits g dem_path - 1))
                     || negb (IsProjected g dem_path)) | ] | ]);
      discriminate.
  - split.
    + intros [= <-]. now split.
    + now intros [_ ->].
Qed.

Lemma spatial_file_messages (g : gdal_host) (args : args_dict)
  (keys : list String.string) (message : String.string) :
  In (keys, message)
     (flat_map (check_spatial_file g args []) spatial_files) ->
  message = "Must be a raster"%string \/ message = "Must be a vector"%string.
Proof.
  intros Hin. apply in_flat_map in Hin.
  destruct Hin as (file & Hfile & Hin).
  unfold spatial_files in Hfile. cbn [In] in Hfile.
  destruct Hfile as [<- | [<- | [<- | []]]];
    unfold check_spatial_file in Hin;
    match type of Hin with
    | context [lookup ?key args] => destruct (lookup key args) as [v |]
    end; try contradiction;
    match type of Hin with
    | context [has_no_value ?v] => destruct (has_no_value v)
    end; try contradiction;
    match type of Hin with
    | context [OpenEx g ?v ?filetype] => destruct (OpenEx g v filetype)
    end; try contradiction;
    destruct Hin as [[= <- <-] | []]; auto.
Qed.

Lemma numeric_key_messages (h : execute_host) (args : args_dict)
  (limit_to : option String.string)
  (keys : list String.string) (message : String.string) :
  In (keys, message)
     (flat_map (check_numeric_key h args limit_to []) numeric_keys) ->
  message = "Must be a number"%string.
Proof.
  intros Hin. apply in_flat_map in Hin.
  destruct Hin as (key & _ & Hin).
  unfold check_numeric_key in Hin.
  destruct (negb (limited_to limit_to key)); try contradiction.
  destruct (lookup key args) as [v |]; try contradiction.
  destruct (float h v) as [x | [msg | k | | | | |]]; try contradiction;
    now destruct Hin as [[= <- <-] | []].
Qed.

(** X17. When [validate] returns and checks the DEM, its list holds
    ['Must be projected in meters'] for [dem_path] exactly when gdal
    opens the DEM and its linear units are more than 5,000,000 away from
    1 or it is not projected; linear units of feet on a projected DEM
    are not reported. *)
Theorem projection_in_meters_is_reported
  (h : execute_host) (g : gdal_host) (args : args_dict)
  (limit_to : option String.string) (dem_path : pyval)
  (errors : list (list String.string * String.string)) :
  validate h g args limit_to = ValidateReturn errors ->
  limited_to limit_to "dem_path"%string = true ->
  lookup "dem_path"%string args = Some dem_path ->
  In (["dem_path"%string], "Must be projected in meters"%string) errors <->
  OpenEx g dem_path OF_RASTER = true /\
  ((5000000 < Rabs (GetLinearUnits g dem_path - 1))%R
   \/ IsProjected g dem_path = false).
Proof.
  intros Hreturn Hlimit Hdem.
  destruct (validate_returned_list _ _ _ _ Hreturn)
    as (no_value & function & projection & -> & _ & Hno_value
        & Hfunction & Hno_function & Hprojection & _).
  destruct (Hprojection Hlimit) as (dem_path' & Hdem' & ->).
  rewrite Hdem in Hdem'. injection Hdem' as <-.
  assert (Hreported :
            OpenEx g dem_path OF_RASTER
            && (Rltb 5000000 (Rabs (GetLinearUnits g dem_path - 1))
                || negb (IsProjected g dem_path)) = true <->
            OpenEx g dem_path OF_RASTER = true /\
            ((5000000 < Rabs (GetLinearUnits g dem_path - 1))%R
             \/ IsProjected g dem_path = false)).
  { rewrite andb_true_iff, orb_true_iff, Rltb_true, negb_true_iff.
    reflexivity. }
  rewrite <- Hreported. clear Hreported.
  rewrite !in_app_iff. split.
  - intros [Hin | [Hin | [Hin | [Hin | Hin]]]].
    + exfalso. rewrite Hno_value in Hin.
      destruct (filter _ required_keys); [ contradiction | ].
      now destruct Hin as [[=] | []].
    + exfalso.
      destruct (limited_to limit_to "valuation_function"%string).
      * destruct Hfunction as (s & _ & ->); [ reflexivity | ].
        destruct (starts_with_a_method s); [ contradiction | ].
        now destruct Hin as [[=] | []].
      * rewrite Hno_function in Hin; [ contradiction | reflexivity ].
    + exfalso. apply spatial_file_messages in Hin.
      now destruct Hin as [[=] | [=]].
    + destruct (OpenEx g dem_path OF_RASTER
                && (Rltb 5000000 (Rabs (GetLinearUnits g dem_path - 1))
                    || negb (IsProjected g dem_path)));
        [ reflexivity | contradiction ].
    + exfalso. apply numeric_key_messages in Hin. discriminate.
  - intros ->. right. right. right. left. now left.
Qed.

Lemma validate_run_args_in_feet :
  validate (run_host (Return tt)) run_gdal_in_feet run_args None =
  ValidateReturn [].
Proof.
  unfold validate, run_args. cbn.
  assert (Hfeet : Rltb 5000000 (Rabs (3048 / 10000 - 1)) = false).
  { apply Rltb_false. unfold Rabs. destruct (Rcase_abs _); lra. }
  rewrite Hfeet. reflexivity.
Qed.

(** A projected DEM in feet on [run_args]: nothing is reported. *)
Lemma projection_in_meters_is_reported_witness :
  In (["dem_path"%string], "Must be projected in meters"%string) [] <->
  OpenEx run_gdal_in_feet (PyStr "dem.tif"%string) OF_RASTER = true /\
  ((5000000 < Rabs (GetLinearUnits run_gdal_in_feet
                      (PyStr "dem.tif"%string) - 1))%R
   \/ IsProjected run_gdal_in_feet (PyStr "dem.tif"%string) = false).
Proof.
  apply (@projection_in_meters_is_reported
           (run_host (Return tt)) run_gdal_in_feet run_args None
           (PyStr "dem.tif"%string) []
           validate_run_args_in_feet eq_refl eq_refl).
Defined.








Lemma filter_none (A : Type) (p : A -> bool) (l : list A) :
  (forall x, In x l -> p x = false) -> filter p l = [].
Proof.
  induction l as [| x l IH]; intros Hp; [ reflexivity | ].
  cbn [filter]. rewrite (Hp x) by now left.
  apply IH. intros y Hy. apply Hp. now right.
Qed.

(** X19. A valuation function that is not a string is not reported but
    raised: with every required key in [args], [validate] ends with the
    [AttributeError] of [startswith], also for [None], which is in the
    list of the keys without a value. *)
Theorem validate_raises_on_a_valuation_function_that_is_no_string
  (h : execute_host) (g : gdal_host) (args : args_dict)
  (limit_to : option String.string) (v : pyval) :
  (forall key, In key required_keys -> lookup key args <> None) ->
  limited_to limit_to "valuation_function"%string = true ->
  lookup "valuation_function"%string args = Some v ->
  (forall s, v <> PyStr s) ->
  validate h g args limit_to = ValidateRaise AttributeError.
Proof.
  intros Hpresent Hlimit Hv Hstring.
  unfold validate. rewrite check_required_keys_lists. cbn [app].
  rewrite filter_none.
  - rewrite Hlimit, Hv.
    destruct v as [s | x | z |]; try reflexivity.
    now destruct (Hstring s).
  - intros key Hkey. specialize (Hpresent key Hkey).
    destruct (lookup key args); [ apply andb_false_r | contradiction ].
Qed.

(** [run_args] with a valuation function of [None]. *)
Lemma validate_raises_on_a_valuation_function_that_is_no_string_witness :
  validate (run_host (Return tt)) run_gdal
           (("valuation_function"%string, PyNone) :: run_args) None =
  ValidateRaise AttributeError.
Proof.
  apply (@validate_raises_on_a_valuation_function_that_is_no_string
           (run_host (Return tt)) run_gdal
           (("valuation_function"%string, PyNone) :: run_args) None PyNone).
  - intros key Hkey. unfold required_keys in Hkey. cbn [In] in Hkey.
    repeat (destruct Hkey as [<- | Hkey]; [ discriminate | ]).
    contradiction.
  - reflexivity.
  - reflexivity.
  - discriminate.
Defined.
